(** * Samsung LHB55ECH display adapter: MDC codec, session, alerts, layouts

    A shallow embedding of [samsung_display_adapter.py] and the properties
    of its frame codec, retry loop, argument validation, alert store and
    video-wall layout planner.

    Conventions of the embedding:
    - Python [int] is [Z]; [bytes] is [list byte]; a [dict] keeps its
      insertion order and is an association list with unique keys;
    - a Python function that can raise returns an [outcome]: either
      [Returns v] or [Raises e]; [try ... except Exception] is [try_except];
    - I/O ([asyncio] streams, [time.time], [logging]) is made explicit:
      the environment is a script of what each call answers, and every
      call the code makes is appended to a trace of events. *)

From Stdlib Require Import String Ascii DecimalString DecimalNat.
From Stdlib Require Import ZArith List Lia Bool Permutation.
From Stdlib.Strings Require Byte.
Import ListNotations.

Local Open Scope Z_scope.

(* ================================================================== *)
(** * Part I.  The program *)
(* ================================================================== *)

(** ** Python values and exceptions *)

Module Py.

(** [bytes]: an immutable sequence of integers in [0, 255]. *)
Definition bytes := list Byte.byte.

(** The integer a byte of a [bytes] object reads as. *)
Definition byte_val (b : Byte.byte) : Z := Z.of_N (Byte.to_N b).

(** The exceptions the modelled code can meet. *)
Inductive exn : Type :=
| StructError   (* struct.error: argument out of range, wrong buffer size *)
| IndexError    (* index out of range *)
| ValueError    (* bytes([v]) with v outside range(256) *)
| OSError.      (* any failure of the stream: reset, broken pipe, ... *)

Inductive outcome (A : Type) : Type :=
| Returns (a : A)
| Raises (e : exn).
Arguments Returns {A} a.
Arguments Raises {A} e.

Definition bind {A B} (c : outcome A) (k : A -> outcome B) : outcome B :=
  match c with
  | Returns a => k a
  | Raises e => Raises e
  end.

(** [try: body / except Exception as e: handler e]. *)
Definition try_except {A} (body : outcome A) (handler : exn -> outcome A)
  : outcome A :=
  match body with
  | Returns a => Returns a
  | Raises e => handler e
  end.

Declare Scope py_scope.
Delimit Scope py_scope with py.
Notation "x <- c ;; k" := (bind c (fun x => k))
  (at level 61, c at next level, right associativity) : py_scope.

(** [len(b)] as a Python integer. *)
Definition len {A} (l : list A) : Z := Z.of_nat (length l).

(** [sum(data)]: left fold from 0. *)
Definition sum (data : bytes) : Z :=
  fold_left (fun acc b => acc + byte_val b) data 0.

(** [l[lo:hi]] for non-negative bounds: clipped to the list, never
    raises. *)
Definition slice {A} (lo hi : Z) (l : list A) : list A :=
  firstn (Z.to_nat hi - Z.to_nat lo) (skipn (Z.to_nat lo) l).

(** [l[i]] for a non-negative index: raises [IndexError] out of range. *)
Definition index (l : bytes) (i : Z) : outcome Z :=
  match nth_error l (Z.to_nat i) with
  | Some b => Returns (byte_val b)
  | None => Raises IndexError
  end.

(** [l[-n:]] for [n > 0]: the last [n] elements, the whole list when it
    is shorter. *)
Definition last_n {A} (n : nat) (l : list A) : list A :=
  skipn (length l - n) l.

(** One ['B'] field of [struct.pack]: an unsigned byte, [struct.error]
    outside [0, 255]. *)
Definition pack_B (v : Z) : outcome Byte.byte :=
  if (0 <=? v) && (v <=? 255) then
    match Byte.of_N (Z.to_N v) with
    | Some b => Returns b
    | None => Raises StructError
    end
  else Raises StructError.

(** [struct.pack('B' * n, v1, ..., vn)]. *)
Fixpoint struct_pack (vs : list Z) : outcome bytes :=
  match vs with
  | [] => Returns []
  | v :: vs' =>
      (b <- pack_B v ;;
       bs <- struct_pack vs' ;;
       Returns (b :: bs))%py
  end.

(** [struct.unpack('BBBB', buf)]: [struct.error] unless [buf] has exactly
    four bytes. *)
Definition struct_unpack_BBBB (buf : bytes) : outcome (Z * Z * Z * Z) :=
  match buf with
  | [a; b; c; d] => Returns (byte_val a, byte_val b, byte_val c, byte_val d)
  | _ => Raises StructError
  end.

(** [bytes([v])]: [ValueError] unless [v] is in [range(256)]. *)
Definition bytes_of_int (v : Z) : outcome bytes :=
  if (0 <=? v) && (v <=? 255) then
    match Byte.of_N (Z.to_N v) with
    | Some b => Returns [b]
    | None => Raises ValueError
    end
  else Raises ValueError.

End Py.

Import Py.

(** ** The command table *)

Inductive MDCCommand : Type :=
| POWER | VOLUME | MUTE | INPUT_SOURCE | PICTURE_MODE | SOUND_MODE
| SAFETY_LOCK | PICTURE_SIZE | AUTO_ADJUSTMENT | WALL_MODE | SAFETY_SCREEN
| LOGO_DISPLAY | POWER_ON_DELAY | POWER_OFF_DELAY | SOUND_SELECT
| LAMP_CONTROL | PANEL_LOCK | CONTRAST | BRIGHTNESS | SHARPNESS | COLOR
| TINT | RED_GAIN | GREEN_GAIN | BLUE_GAIN | RESET | CURRENT_TEMP
| SERIAL_NUMBER | SOFTWARE_VERSION | MODEL_NUMBER | INPUT_SOURCE_AUTO_SWITCH
| CLOCK_1 | CLOCK_2 | CLOCK_3 | HOLIDAY_APPLY | SCHEDULE_TYPE
| HOLIDAY_DELETE | TIMER_1 | TIMER_2 | TIMER_3 | CLONE_SETTINGS
| NETWORK_SETTINGS | OSD_DISPLAY | VIDEO_WALL_MODE | VIDEO_WALL_USER.

(** [command.value]. *)
Definition value (c : MDCCommand) : Z :=
  match c with
  | POWER => 0x11 | VOLUME => 0x12 | MUTE => 0x13 | INPUT_SOURCE => 0x14
  | PICTURE_MODE => 0x15 | SOUND_MODE => 0x16 | SAFETY_LOCK => 0x17
  | PICTURE_SIZE => 0x18 | AUTO_ADJUSTMENT => 0x19 | WALL_MODE => 0x1A
  | SAFETY_SCREEN => 0x1B | LOGO_DISPLAY => 0x1C | POWER_ON_DELAY => 0x1D
  | POWER_OFF_DELAY => 0x1E | SOUND_SELECT => 0x1F | LAMP_CONTROL => 0x20
  | PANEL_LOCK => 0x21 | CONTRAST => 0x22 | BRIGHTNESS => 0x23
  | SHARPNESS => 0x24 | COLOR => 0x25 | TINT => 0x26 | RED_GAIN => 0x27
  | GREEN_GAIN => 0x28 | BLUE_GAIN => 0x29 | RESET => 0x2A
  | CURRENT_TEMP => 0x2B | SERIAL_NUMBER => 0x2C | SOFTWARE_VERSION => 0x2D
  | MODEL_NUMBER => 0x2E | INPUT_SOURCE_AUTO_SWITCH => 0x2F
  | CLOCK_1 => 0x30 | CLOCK_2 => 0x31 | CLOCK_3 => 0x32
  | HOLIDAY_APPLY => 0x33 | SCHEDULE_TYPE => 0x34 | HOLIDAY_DELETE => 0x35
  | TIMER_1 => 0x36 | TIMER_2 => 0x37 | TIMER_3 => 0x38
  | CLONE_SETTINGS => 0x39 | NETWORK_SETTINGS => 0x3A | OSD_DISPLAY => 0x3B
  | VIDEO_WALL_MODE => 0x84 | VIDEO_WALL_USER => 0x89
  end.

(** ** Result dictionaries

    Every operation of the adapter answers with a dictionary carrying a
    ['success'] flag.  The three shapes the code builds are the three
    constructors; the ['error'] text is an [error]. *)

Inductive error : Type :=
| ResponseTooShort          (* 'Response too short' *)
| InvalidHeader             (* 'Invalid header' *)
| DisplayIdMismatch         (* 'Display ID mismatch' *)
| ChecksumMismatch          (* 'Checksum mismatch' *)
| ParseError (e : exn)      (* f'Parse error: {str(e)}' *)
| FailedAfter (attempts : nat)  (* f'Failed after {max_retries} attempts' *)
| VolumeRange               (* 'Volume must be between 0-100' *)
| MonitorCountRange         (* 'Monitor count must be 1-15' *)
| PositionOutsideGrid.      (* 'Position must be within monitor grid' *)

Inductive result : Type :=
| Parsed (command : Z) (data : bytes) (raw_response : bytes)
    (* {'success': True, 'command': .., 'data': .., 'raw_response': ..} *)
| Sent
    (* {'success': True, 'message': 'Command sent successfully'} *)
| Failure (err : error).
    (* {'success': False, 'error': ..} *)

(** [result['success']]. *)
Definition success (r : result) : bool :=
  match r with
  | Parsed _ _ _ | Sent => true
  | Failure _ => false
  end.

(** ** The frame codec (methods of [SamsungLHB55ECHAdapter]) *)

Module Codec.

(** [_create_mdc_packet(self, command, data)], with [self.display_id]
    passed explicitly. *)
Definition _create_mdc_packet (display_id : Z) (command : MDCCommand)
    (data : bytes) : outcome bytes :=
  let header := 0xAA in
  let cmd := value command in
  let data_length := len data in
  let checksum :=
    Z.land (header + cmd + display_id + data_length + sum data) 0xFF in
  (packet <- struct_pack [header; cmd; display_id; data_length] ;;
   tail <- struct_pack [checksum] ;;
   Returns (packet ++ data ++ tail))%py.

(** The body of the [try] block of [_parse_mdc_response]. *)
Definition parse_body (self_display_id : Z) (response : bytes)
  : outcome result :=
  (fields <- struct_unpack_BBBB (slice 0 4 response) ;;
   let '(header, cmd, display_id, data_length) := fields in
   if negb (header =? 0xAA) then Returns (Failure InvalidHeader)
   else if negb (display_id =? self_display_id)
   then Returns (Failure DisplayIdMismatch)
   else
     let data :=
       if data_length >? 0 then slice 4 (4 + data_length) response
       else [] in
     checksum <- (if len response >? 4 + data_length
                  then index response (4 + data_length)
                  else Returns 0) ;;
     let expected_checksum :=
       Z.land (header + cmd + display_id + data_length + sum data) 0xFF in
     if negb (checksum =? expected_checksum)
     then Returns (Failure ChecksumMismatch)
     else Returns (Parsed cmd data response))%py.

(** [_parse_mdc_response(self, response)]. *)
Definition _parse_mdc_response (self_display_id : Z) (response : bytes)
  : outcome result :=
  if len response <? 4 then Returns (Failure ResponseTooShort)
  else try_except (parse_body self_display_id response)
                  (fun e => Returns (Failure (ParseError e))).

End Codec.

(** ** The device session (state and I/O of [SamsungLHB55ECHAdapter]) *)

Module Session.
Import Codec.

(** The fields of the adapter the retry loop reads and writes.
    [error_count] and [max_retries] only count up from zero and are
    [nat]; [__init__] sets [max_retries] to 3. *)
Record adapter : Type := mkAdapter {
  display_id : Z;
  connected : bool;
  last_response_time : option Z;
  error_count : nat;
  max_retries : nat
}.

(** [SamsungLHB55ECHAdapter(display_id, ip, port)] right after
    [__init__]. *)
Definition new_adapter (display_id : Z) : adapter :=
  mkAdapter display_id false None 0 3.

Definition set_connected (b : bool) (st : adapter) : adapter :=
  mkAdapter (display_id st) b (last_response_time st)
            (error_count st) (max_retries st).

Definition set_error_count (n : nat) (st : adapter) : adapter :=
  mkAdapter (display_id st) (connected st) (last_response_time st)
            n (max_retries st).

Definition set_last_response_time (t : Z) (st : adapter) : adapter :=
  mkAdapter (display_id st) (connected st) (Some t)
            (error_count st) (max_retries st).

(** What the peer and the network answer during one [send_command]: the
    answer to each call of iteration [k] of the retry loop.  An iteration
    opens the connection, writes, drains and reads at most once each. *)
Inductive read_answer : Type :=
| Data (response : bytes)   (* reader.read(1024) returned these bytes *)
| TimedOut                  (* asyncio.wait_for ran into its 5 s bound *)
| ReadRaises (e : exn).     (* the stream raised *)

Record transport : Type := mkTransport {
  open_connection : nat -> bool;      (* connected within 10 s? *)
  write : nat -> option exn;          (* None: writer.write returned *)
  drain : nat -> option exn;          (* None: writer.drain returned *)
  read : nat -> read_answer;
  clock : nat -> Z                    (* time.time() after the read *)
}.

Inductive level : Type := INFO | WARNING | ERROR.

Inductive log_record : Type :=
| LogConnected                        (* "Connected to Samsung ..." *)
| LogConnectFailed                    (* "Failed to connect to display" *)
| LogCommandFailed (err : error)      (* "Command failed: {error}" *)
| LogTimeout                          (* "Timeout waiting for response" *)
| LogAttemptFailed (attempt : nat) (e : exn).
                                      (* "Command attempt {n} failed" *)

(** What an observer of the session sees, in order. *)
Inductive event : Type :=
| Attempt (k : nat)         (* iteration [k] of the retry loop begins *)
| OpenConnection            (* asyncio.open_connection(ip, port) *)
| Write (packet : bytes)    (* writer.write(packet) *)
| Drain                     (* writer.drain() *)
| Read                      (* reader.read(1024) *)
| Sleep (seconds : Z)       (* asyncio.sleep(seconds) *)
| Log (lvl : level) (r : log_record).

Definition is_sleep (e : event) : bool :=
  match e with Sleep _ => true | _ => false end.

Definition is_attempt (e : event) : bool :=
  match e with Attempt _ => true | _ => false end.

(** *** The monad of a method: adapter state, trace, exceptions *)

Definition M (A : Type) : Type :=
  adapter -> outcome A * adapter * list event.

Definition ret {A} (a : A) : M A := fun st => (Returns a, st, []).

Definition bindM {A B} (c : M A) (k : A -> M B) : M B := fun st =>
  match c st with
  | (Returns a, st1, t1) =>
      match k a st1 with (o, st2, t2) => (o, st2, t1 ++ t2) end
  | (Raises e, st1, t1) => (Raises e, st1, t1)
  end.

(** [try: body / except Exception as e: handler e]: state changes and
    calls made before the exception stay. *)
Definition catch {A} (body : M A) (handler : exn -> M A) : M A := fun st =>
  match body st with
  | (Returns a, st1, t1) => (Returns a, st1, t1)
  | (Raises e, st1, t1) =>
      match handler e st1 with (o, st2, t2) => (o, st2, t1 ++ t2) end
  end.

Definition lift {A} (o : outcome A) : M A := fun st => (o, st, []).
Definition get : M adapter := fun st => (Returns st, st, []).
Definition modify (f : adapter -> adapter) : M unit :=
  fun st => (Returns tt, f st, []).
Definition emit (e : event) : M unit := fun st => (Returns tt, st, [e]).
Definition when (b : bool) (c : M unit) : M unit :=
  if b then c else ret tt.

Declare Scope session_scope.
Delimit Scope session_scope with session.
Notation "x <- c ;; k" := (bindM c (fun x => k))
  (at level 61, c at next level, right associativity) : session_scope.
Notation "c ;; k" := (bindM c (fun _ => k))
  (at level 61, right associativity) : session_scope.
Local Open Scope session_scope.

(** *** Stream calls, answered by the script *)

Definition stream_write (tr : transport) (k : nat) (packet : bytes)
  : M unit :=
  emit (Write packet) ;;
  match write tr k with None => ret tt | Some e => lift (Raises e) end.

Definition stream_drain (tr : transport) (k : nat) : M unit :=
  emit Drain ;;
  match drain tr k with None => ret tt | Some e => lift (Raises e) end.

(** [asyncio.wait_for(self.reader.read(1024), timeout=5.0)]: the bytes,
    or [None] for [asyncio.TimeoutError], which only the inner handler
    catches. *)
Definition stream_read (tr : transport) (k : nat) : M (option bytes) :=
  emit Read ;;
  match read tr k with
  | Data response => ret (Some response)
  | TimedOut => ret None
  | ReadRaises e => lift (Raises e)
  end.

(** *** [connect] *)

(** [connect(self)], [ok] telling whether [asyncio.open_connection]
    came back within its 10 s bound. *)
Definition connect (ok : bool) : M bool :=
  emit OpenConnection ;;
  if ok then
    modify (set_connected true) ;;
    modify (set_error_count 0) ;;
    emit (Log INFO LogConnected) ;;
    ret true
  else
    emit (Log ERROR LogConnectFailed) ;;
    modify (set_connected false) ;;
    ret false.

(** *** [send_command] *)

(** How one iteration of [for attempt in range(self.max_retries)] ends. *)
Inductive flow : Type :=
| Return (r : result)   (* [return r] *)
| Next.                 (* [continue], or the end of the [except] block *)

(** The [try] block of one iteration. *)
Definition attempt_try (tr : transport) (command : MDCCommand)
    (data : bytes) (expect_response : bool) (k : nat) : M flow :=
  st <- get ;;
  ok <- (if negb (connected st) then connect (open_connection tr k)
         else ret true) ;;
  if negb ok then ret Next
  else
    packet <- lift (_create_mdc_packet (display_id st) command data) ;;
    stream_write tr k packet ;;
    stream_drain tr k ;;
    if expect_response then
      answer <- stream_read tr k ;;
      match answer with
      | None =>
          emit (Log WARNING LogTimeout) ;;
          modify (set_connected false) ;;
          ret Next
      | Some response =>
          match response with
          | [] => ret (Return Sent)
          | _ :: _ =>
              modify (set_last_response_time (clock tr k)) ;;
              parsed <- lift (_parse_mdc_response (display_id st) response) ;;
              match parsed with   (* [if result['success']: ... else:] *)
              | Failure err =>
                  emit (Log WARNING (LogCommandFailed err)) ;;
                  ret (Return Sent)
              | _ => ret (Return parsed)
              end
          end
      end
    else ret (Return Sent).

(** The [except Exception as e] block of iteration [k]. *)
Definition attempt_except (k : nat) (e : exn) : M flow :=
  emit (Log ERROR (LogAttemptFailed (k + 1) e)) ;;
  modify (set_connected false) ;;
  st <- get ;;
  modify (set_error_count (error_count st + 1)) ;;
  when (k <? max_retries st - 1)%nat (emit (Sleep 1)) ;;
  ret Next.

Definition attempt (tr : transport) (command : MDCCommand)
    (data : bytes) (expect_response : bool) (k : nat) : M flow :=
  catch (attempt_try tr command data expect_response k) (attempt_except k).

(** The [for] loop over the remaining values of [attempt]. *)
Fixpoint retry_loop (body : nat -> M flow) (ks : list nat)
  : M (option result) :=
  match ks with
  | [] => ret None
  | k :: ks' =>
      emit (Attempt k) ;;
      f <- body k ;;
      match f with
      | Return r => ret (Some r)
      | Next => retry_loop body ks'
      end
  end.

(** [send_command(self, command, data, expect_response)]. *)
Definition send_command (tr : transport) (command : MDCCommand)
    (data : bytes) (expect_response : bool) : M result :=
  st <- get ;;
  done <- retry_loop (attempt tr command data expect_response)
                     (seq 0 (max_retries st)) ;;
  match done with
  | Some r => ret r
  | None =>
      st' <- get ;;
      ret (Failure (FailedAfter (max_retries st')))
  end.

(** *** The command facade *)

(** [set_volume(self, volume)]. *)
Definition set_volume (tr : transport) (volume : Z) : M result :=
  if negb ((0 <=? volume) && (volume <=? 100))
  then ret (Failure VolumeRange)
  else
    data <- lift (bytes_of_int volume) ;;
    send_command tr VOLUME data true.

(** [set_video_wall_mode(self, enabled, h_monitors, v_monitors,
    h_position, v_position)]. *)
Definition set_video_wall_mode (tr : transport) (enabled : bool)
    (h_monitors v_monitors h_position v_position : Z) : M result :=
  if negb ((1 <=? h_monitors) && (h_monitors <=? 15))
     || negb ((1 <=? v_monitors) && (v_monitors <=? 15))
  then ret (Failure MonitorCountRange)
  else if negb ((1 <=? h_position) && (h_position <=? h_monitors))
          || negb ((1 <=? v_position) && (v_position <=? v_monitors))
  then ret (Failure PositionOutsideGrid)
  else
    let wall_mode := if enabled then 0x01 else 0x00 in
    data <- lift (struct_pack [wall_mode; h_monitors; v_monitors;
                               h_position; v_position]) ;;
    send_command tr VIDEO_WALL_MODE data true.

(** The validation failures of the facade. *)
Definition out_of_range (e : error) : bool :=
  match e with
  | VolumeRange | MonitorCountRange | PositionOutsideGrid => true
  | _ => false
  end.

End Session.

(** ** Python dictionaries *)

(** Keys of a [dict]: a type with a decidable equality. *)
Class Hashable (K : Type) : Type := {
  key_eqb : K -> K -> bool;
  key_eqb_eq : forall a b, key_eqb a b = true <-> a = b
}.

#[export] Instance string_Hashable : Hashable string :=
  {| key_eqb := String.eqb; key_eqb_eq := String.eqb_eq |}.

#[export] Instance Z_Hashable : Hashable Z :=
  {| key_eqb := Z.eqb; key_eqb_eq := Z.eqb_eq |}.

Module Dict.
Section Ops.
Context {K V : Type} `{Hashable K}.

(** A [dict] in insertion order; its keys are pairwise distinct. *)
Definition dict : Type := list (K * V).

(** [d.get(k)]. *)
Fixpoint get (d : dict) (k : K) : option V :=
  match d with
  | [] => None
  | (k', v) :: d' => if key_eqb k' k then Some v else get d' k
  end.

(** [d[k] = v]: a present key keeps its place, a new key goes last. *)
Fixpoint set (d : dict) (k : K) (v : V) : dict :=
  match d with
  | [] => [(k, v)]
  | (k', v') :: d' =>
      if key_eqb k' k then (k', v) :: d' else (k', v') :: set d' k v
  end.

(** [list(d.keys())]. *)
Definition keys (d : dict) : list K := map fst d.
End Ops.
Arguments dict : clear implicits.
End Dict.

(** ** The alert store ([MonitoringDashboard]) *)

Module MonitoringDashboard.

(** [f"{level}_{hash(message)}_{int(time.time())}"], kept as its three
    fields. *)
Record alert_id : Type := mkAlertId {
  id_level : string;
  id_hash : Z;
  id_time : Z
}.

Record alert : Type := mkAlert {
  level : string;
  message : string;
  timestamp : Z;
  id : alert_id
}.

(** [_add_alert] reads [time.time()] three times: for ['timestamp'], for
    ['id'] and for [cutoff_time].  Clock readings are in seconds. *)
Record clock_reads : Type := mkReads {
  at_timestamp : Z;
  at_id : Z;
  at_cutoff : Z
}.

(** A call whose three readings are the same instant. *)
Definition at_instant (t : Z) : clock_reads := mkReads t t t.

Section AddAlert.
(** Python's [hash] on strings. *)
Variable hash : string -> Z.

(** [_add_alert(self, level, message)] on [self.alerts]; the
    [logger.warning] of an accepted alert leaves the store alone and
    is not recorded. *)
Definition _add_alert (now : clock_reads) (level message : string)
    (alerts : list alert) : list alert :=
  let alert :=
    mkAlert level message (at_timestamp now)
            (mkAlertId level (hash message) (at_id now)) in
  let cutoff_time := at_cutoff now - 300 in
  let existing_alerts :=
    filter (fun a => (timestamp a >? cutoff_time)
                     && (MonitoringDashboard.message a =? message)%string)
           alerts in
  match existing_alerts with
  | [] =>
      let alerts := alerts ++ [alert] in
      if len alerts >? 100 then last_n 100 alerts else alerts
  | _ :: _ => alerts
  end.

(** One call of [_add_alert] with what the clock answered. *)
Record call : Type := mkCall {
  now : clock_reads;
  call_level : string;
  call_message : string
}.

(** The alert a call builds. *)
Definition alert_of (c : call) : alert :=
  mkAlert (call_level c) (call_message c) (at_timestamp (now c))
          (mkAlertId (call_level c) (hash (call_message c))
                     (at_id (now c))).

(** A sequence of calls on a store. *)
Definition add_alerts (calls : list call) (alerts : list alert)
  : list alert :=
  fold_left
    (fun store c => _add_alert (now c) (call_level c) (call_message c)
                               store)
    calls alerts.
End AddAlert.

End MonitoringDashboard.

(** ** The layout planner ([VideoWallLayoutManager]) *)

Module VideoWallLayoutManager.
Import Dict.
Local Open Scope nat_scope.

(** [str(n)] for a non-negative integer. *)
Definition str (n : nat) : string :=
  NilEmpty.string_of_uint (Nat.to_uint n).

Record position : Type := mkPosition {
  horizontal_position : nat;
  vertical_position : nat;
  grid_position : nat * nat
}.

Record layout (K : Type) : Type := mkLayout {
  horizontal : nat;
  vertical : nat;
  total_displays : nat;
  aspect_ratio : nat * nat;   (* the quotient [h / v], unevaluated *)
  display_mapping : dict K position
}.
Arguments mkLayout {K}.
Arguments horizontal {K}.
Arguments vertical {K}.
Arguments total_displays {K}.
Arguments aspect_ratio {K}.
Arguments display_mapping {K}.

(** [enumerate(l)]. *)
Definition enumerate {A} (l : list A) : list (nat * A) :=
  combine (seq 0 (length l)) l.

Section Planner.
Context {K C : Type} `{Hashable K}.

(** [self.displays]: display id to its configuration. *)
Variable displays : dict K C.

(** [_create_display_mapping(self, h_count, v_count)]. *)
Definition _create_display_mapping (h_count v_count : nat)
  : dict K position :=
  let display_ids := keys displays in
  fold_left
    (fun mapping '(i, display_id) =>
       let h_pos := (i mod h_count) + 1 in
       let v_pos := (i / h_count) + 1 in
       set mapping display_id (mkPosition h_pos v_pos (h_pos, v_pos)))
    (enumerate (firstn (h_count * v_count) display_ids))
    [].

(** [f"{h}x{v}"]. *)
Definition layout_name (h v : nat) : string :=
  (str h ++ "x" ++ str v)%string.

(** [_calculate_layouts(self)], from the empty [self.layouts]. *)
Definition _calculate_layouts : dict string (layout K) :=
  let display_count := length displays in
  fold_left
    (fun layouts h =>
       if display_count mod h =? 0 then
         let v := display_count / h in
         set layouts (layout_name h v)
             (mkLayout h v display_count (h, v)
                       (_create_display_mapping h v))
       else layouts)
    (seq 1 display_count)
    [].
End Planner.

End VideoWallLayoutManager.

(** ** Notions used in the statements *)

Module Notions.
Import Session MonitoringDashboard.

(** Attempts and delays of a trace, in order. *)
Definition timeline (trace : list event) : list event :=
  filter (fun e => is_attempt e || is_sleep e) trace.

(** What the [except] block of iteration [k] leaves behind. *)
Definition after_except (k : nat) (st : adapter) : adapter :=
  set_error_count (error_count st + 1) (set_connected false st).

Definition delay_after (k : nat) (st : adapter) : list event :=
  if (k <? max_retries st - 1)%nat then [Sleep 1] else [].

(** The session as the body of the [try] block finds it once it is
    connected, and what connecting added to the trace. *)
Definition after_connect (st : adapter) : adapter :=
  if connected st then st
  else set_error_count 0 (set_connected true st).

Definition connect_trace (st : adapter) : list event :=
  if connected st then []
  else [OpenConnection; Log INFO LogConnected].

(** Two alerts of the same message, the later in the store at least
    300 seconds after the earlier. *)
Definition apart (a b : alert) : Prop :=
  message a = message b -> 300 <= timestamp b - timestamp a.

(** [n] calls with pairwise distinct one-character messages, call [i]
    at second [i]. *)
Definition distinct_calls (n : nat) : list call :=
  map (fun i => mkCall (at_instant (Z.of_nat i)) "warning"
                       (String (ascii_of_nat i) EmptyString))
      (seq 0 n).

(** A string without the letter x. *)
Fixpoint x_free (s : string) : Prop :=
  match s with
  | EmptyString => True
  | String c s' => c <> "x"%char /\ x_free s'
  end.

(** The grid cell of the [i]-th display (from 0) in rows of [h_count]:
    column [i mod h_count + 1], row [i div h_count + 1]. *)
Definition cell (h_count i : nat) : VideoWallLayoutManager.position :=
  VideoWallLayoutManager.mkPosition
    (i mod h_count + 1)%nat (i / h_count + 1)%nat
    ((i mod h_count + 1)%nat, (i / h_count + 1)%nat).

(** The divisors of [n] from 1 to [n], in increasing order. *)
Definition divisors (n : nat) : list nat :=
  filter (fun h => (n mod h =? 0)%nat) (seq 1 n).

(** The entry of [self.layouts] for the divisor [h]. *)
Definition planned {K C : Type} `{Hashable K} (displays : Dict.dict K C)
    (h : nat) : string * VideoWallLayoutManager.layout K :=
  let n := length displays in
  (VideoWallLayoutManager.layout_name h (n / h)%nat,
   VideoWallLayoutManager.mkLayout h (n / h)%nat n (h, (n / h)%nat)
     (VideoWallLayoutManager._create_display_mapping displays h
        (n / h)%nat)).

End Notions.

(** ** Scripts of the network used in the examples *)

Module Scripts.
Import Session.

(** Nothing works: the connection cannot be opened and every call on a
    stream raises. *)
Definition dead : transport :=
  mkTransport (fun _ => false) (fun _ => Some OSError)
              (fun _ => Some OSError) (fun _ => ReadRaises OSError)
              (fun _ => 0).

(** The connection opens and every write raises. *)
Definition broken_pipe : transport :=
  mkTransport (fun _ => true) (fun _ => Some OSError)
              (fun _ => None) (fun _ => ReadRaises OSError)
              (fun _ => 0).

(** The peer answers every command with the same bytes, at time [t]. *)
Definition answering (response : bytes) (t : Z) : transport :=
  mkTransport (fun _ => true) (fun _ => None) (fun _ => None)
              (fun _ => Data response) (fun _ => t).

(** The peer never answers. *)
Definition silent : transport :=
  mkTransport (fun _ => true) (fun _ => None) (fun _ => None)
              (fun _ => TimedOut) (fun _ => 0).

(** Four displays A, B, C, D, in this order. *)
Definition four_displays : Dict.dict string unit :=
  [("A"%string, tt); ("B"%string, tt); ("C"%string, tt);
   ("D"%string, tt)].

End Scripts.

(** ** Further notions used in the statements *)

Module MoreNotions.
Import Session.

Definition is_write (e : event) : bool :=
  match e with Write _ => true | _ => false end.

Definition is_read (e : event) : bool :=
  match e with Read => true | _ => false end.

Definition is_open (e : event) : bool :=
  match e with OpenConnection => true | _ => false end.

(** A frame as [_create_mdc_packet] lays it out: header, command, device
    id, length, payload, checksum. *)
Definition frame (h c d n : Byte.byte) (data : bytes) (k : Byte.byte)
  : bytes :=
  h :: c :: d :: n :: data ++ [k].

(** The states an adapter can be in: fresh from [__init__], or after any
    number of [connect] and [send_command] calls, whatever the network
    answers. *)
Inductive reachable : adapter -> Prop :=
| reachable_new (display_id : Z) : reachable (new_adapter display_id)
| reachable_connect (st st' : adapter) (ok : bool) (o : outcome bool)
    (t : list event) :
    reachable st -> connect ok st = (o, st', t) -> reachable st'
| reachable_send (st st' : adapter) (tr : transport)
    (command : MDCCommand) (data : bytes) (expect_response : bool)
    (o : outcome result) (t : list event) :
    reachable st ->
    send_command tr command data expect_response st = (o, st', t) ->
    reachable st'.

(** The first write raises, the second attempt goes through. *)
Definition flaky : transport :=
  mkTransport (fun _ => true)
              (fun k => match k with O => Some OSError | _ => None end)
              (fun _ => None) (fun _ => TimedOut) (fun _ => 0).

End MoreNotions.

(** ** Applying a layout ([configure_video_wall], [disable_video_wall]) *)

Module WallControl.
Import Session Dict VideoWallLayoutManager.

(** One entry of [adapters]: an adapter object, with what its network
    answers to the command it is about to be sent.  Every display id has
    an adapter object of its own. *)
Record device : Type := mkDevice {
  session : adapter;
  link : transport
}.

(** One entry of [results]. *)
Inductive entry : Type :=
| Answered (r : result)   (* what [set_video_wall_mode] returned *)
| AdapterNotFound.        (* {'success': False, 'error': 'Adapter not found'} *)

(** [r.get('success', False)]. *)
Definition entry_success (e : entry) : bool :=
  match e with
  | Answered r => success r
  | AdapterNotFound => false
  end.

Section Control.
Context {K : Type} `{Hashable K}.

(** What the two methods return. *)
Inductive wall_result : Type :=
| LayoutNotFound
    (* {'success': False, 'error': 'Layout not found'} *)
| Applied (ok : bool) (layout : string) (results : dict K entry)
    (* {'success': .., 'layout': .., 'results': ..} *)
| Disabled (ok : bool) (results : dict K entry).
    (* {'success': .., 'results': ..} *)

(** The loop state: [results], the adapter objects as the calls so far
    have left them, and the calls made, display by display. *)
Record run : Type := mkRun {
  results : dict K entry;
  fleet : dict K device;
  calls : list (K * list event)
}.

(** [results[display_id] = await adapter.set_video_wall_mode(...)]: the
    adapter object is left in its new state; an exception would leave
    the method. *)
Definition record_call (display_id : K) (dev : device)
    (answer : outcome result * adapter * list event) (acc : run)
  : outcome run :=
  match answer with
  | (Returns r, st', t) =>
      Returns (mkRun (set (results acc) display_id (Answered r))
                     (set (fleet acc) display_id (mkDevice st' (link dev)))
                     (calls acc ++ [(display_id, t)]))
  | (Raises e, _, _) => Raises e
  end.

(** The body of the loop of [configure_video_wall]. *)
Definition configure_step (layout : layout K) (acc : outcome run)
    (item : K * position) : outcome run :=
  (acc <- acc ;;
   let '(display_id, position) := item in
   match get (fleet acc) display_id with
   | Some dev =>
       record_call display_id dev
         (set_video_wall_mode (link dev) true
            (Z.of_nat (horizontal layout)) (Z.of_nat (vertical layout))
            (Z.of_nat (horizontal_position position))
            (Z.of_nat (vertical_position position))
            (session dev))
         acc
   | None =>
       Returns (mkRun (set (results acc) display_id AdapterNotFound)
                      (fleet acc) (calls acc))
   end)%py.

(** [all(r.get('success', False) for r in results.values())]. *)
Definition all_success (results : dict K entry) : bool :=
  forallb entry_success (map snd results).

(** [configure_video_wall(self, layout_name, adapters)], with
    [self.layouts] passed explicitly: the result, the adapters after the
    calls, and the calls. *)
Definition configure_video_wall (layouts : dict string (layout K))
    (layout_name : string) (adapters : dict K device)
  : outcome (wall_result * dict K device * list (K * list event)) :=
  match get layouts layout_name with
  | None => Returns (LayoutNotFound, adapters, [])
  | Some layout =>
      (done <- fold_left (configure_step layout) (display_mapping layout)
                         (Returns (mkRun [] adapters [])) ;;
       Returns (Applied (all_success (results done)) layout_name
                        (results done),
                fleet done, calls done))%py
  end.

(** The body of the loop of [disable_video_wall]:
    [set_video_wall_mode(enabled=False)] with the defaults 1, 1, 1, 1. *)
Definition disable_step (acc : outcome run) (item : K * device)
  : outcome run :=
  (acc <- acc ;;
   let '(display_id, dev) := item in
   record_call display_id dev
     (set_video_wall_mode (link dev) false 1 1 1 1 (session dev)) acc)%py.

(** [disable_video_wall(self, adapters)]. *)
Definition disable_video_wall (adapters : dict K device)
  : outcome (wall_result * dict K device * list (K * list event)) :=
  (done <- fold_left disable_step adapters
                     (Returns (mkRun [] adapters [])) ;;
   Returns (Disabled (all_success (results done)) (results done),
            fleet done, calls done))%py.

End Control.

End WallControl.

Module WallNotions.
Import Session Dict VideoWallLayoutManager WallControl.

(** What [configure_video_wall] does for one display of the layout:
    [od] is the adapter registered for it, [e] the entry of [results],
    [od'] the adapter afterwards, [cs] the calls made. *)
Definition configured {K : Type} (layout : layout K) (item : K * position)
    (od : option device) (e : entry) (od' : option device)
    (cs : list (K * list event)) : Prop :=
  match od with
  | None => e = AdapterNotFound /\ od' = None /\ cs = []
  | Some dev =>
      exists r st' t,
        set_video_wall_mode (link dev) true
          (Z.of_nat (horizontal layout)) (Z.of_nat (vertical layout))
          (Z.of_nat (horizontal_position (snd item)))
          (Z.of_nat (vertical_position (snd item)))
          (session dev)
        = (Returns r, st', t)
        /\ e = Answered r
        /\ od' = Some (mkDevice st' (link dev))
        /\ cs = [(fst item, t)]
  end.

(** What [disable_video_wall] does for one adapter. *)
Definition disabled {K : Type} (item : K * device)
    (od : option device) (e : entry) (od' : option device)
    (cs : list (K * list event)) : Prop :=
  exists r st' t,
    set_video_wall_mode (link (snd item)) false 1 1 1 1
                        (session (snd item))
    = (Returns r, st', t)
    /\ e = Answered r
    /\ od' = Some (mkDevice st' (link (snd item)))
    /\ cs = [(fst item, t)].

(** Three adapters for the displays A, B and D of [four_displays]; C has
    none. *)
Definition three_devices : dict string device :=
  [("A"%string, mkDevice (new_adapter 1) (Scripts.answering [] 0));
   ("B"%string, mkDevice (new_adapter 2) Scripts.silent);
   ("D"%string, mkDevice (new_adapter 4) Scripts.dead)].

(** A layout of 16 columns, as the planner makes it for 16 displays,
    here with the one display A in it. *)
Definition wide_layouts : dict string (layout string) :=
  [("16x1"%string,
    mkLayout 16 1 16 (16%nat, 1%nat)
             [("A"%string, mkPosition 1 1 (1%nat, 1%nat))])].

End WallNotions.

(** ** The configuration wizard ([VideoWallConfigWizard.generate_config]) *)

#[export] Instance nat_Hashable : Hashable nat :=
  {| key_eqb := Nat.eqb; key_eqb_eq := Nat.eqb_eq |}.

Module VideoWallConfigWizard.
Import Dict VideoWallLayoutManager.
Local Open Scope nat_scope.
Local Open Scope string_scope.

(** What a dictionary of a discovered display holds under a key: nothing,
    [None], or a text. *)
Inductive field : Type :=
| Absent
| NoneValue
| Text (s : string).

(** A discovered display, by the three keys [generate_config] reads. *)
Record discovered : Type := mkDiscovered {
  ip : field;
  model : field;
  serial_number : field
}.

(** What [generate_config] can raise: [display['ip']] on a dictionary
    without that key. *)
Inductive answer (A : Type) : Type :=
| Done (a : A)
| KeyError (key : string).
Arguments Done {A} a.
Arguments KeyError {A} key.

(** One entry of [config['displays']]. *)
Record display_config : Type := mkDisplayConfig {
  name : string;
  config_ip : field;
  port : Z;
  protocol : string;
  config_model : string;
  config_serial_number : field;
  video_wall_position : nat * nat     (* 'horizontal', 'vertical' *)
}.

(** The computed part of the configuration; the sections 'magicinfo',
    'optisigns', 'content' and 'server' are literals of the source and
    are left out. *)
Record config : Type := mkConfig {
  displays : dict nat display_config;
  video_wall_enabled : bool;
  video_wall_layout : nat * nat       (* 'horizontal', 'vertical' *)
}.

(** [display.get("model", "Samsung")] inside the f-string. *)
Definition model_text (f : field) : string :=
  match f with
  | Absent => "Samsung"
  | NoneValue => "None"
  | Text s => s
  end.

(** [display.get('serial_number', '')]. *)
Definition serial_or_empty (f : field) : field :=
  match f with
  | Absent => Text EmptyString
  | other => other
  end.

(** The dictionary built for display number [i] (from 1). *)
Definition build_entry (h_count i : nat) (display : discovered)
  : display_config :=
  let h_pos := (i - 1) mod h_count + 1 in
  let v_pos := (i - 1) / h_count + 1 in
  mkDisplayConfig
    ("Display " ++ str i ++ " - " ++ model_text (model display))
    (ip display) 1515%Z "tcp" "LHB55ECH"
    (serial_or_empty (serial_number display))
    (h_pos, v_pos).

(** The body of the loop: [config['displays'][i] = {...}]. *)
Definition config_step (h_count : nat)
    (acc : answer (dict nat display_config)) (item : nat * discovered)
  : answer (dict nat display_config) :=
  match acc with
  | KeyError key => KeyError key
  | Done entries =>
      let '(i, display) := item in
      match ip display with
      | Absent => KeyError "ip"
      | _ => Done (set entries i (build_entry h_count i display))
      end
  end.

(** [generate_config(self, discovered_displays, video_wall_layout)], for
    a layout of two non-negative counts.  With [h_count = 0] the slice is
    empty and the loop body, with its [% h_count], is not run. *)
Definition generate_config (discovered_displays : list discovered)
    (video_wall_layout : nat * nat) : answer config :=
  let '(h_count, v_count) := video_wall_layout in
  let selected := firstn (h_count * v_count) discovered_displays in
  match fold_left (config_step h_count)
                  (combine (seq 1 (length selected)) selected)
                  (Done [])
  with
  | KeyError key => KeyError key
  | Done entries =>
      Done (mkConfig entries (1 <? length discovered_displays)%nat
                     (h_count, v_count))
  end.

(** Five discovered displays, the last without an address. *)
Definition five_found : list discovered :=
  [mkDiscovered (Text "192.168.1.101") (Text "LHB55ECH") (Text "S1");
   mkDiscovered (Text "192.168.1.102") NoneValue NoneValue;
   mkDiscovered (Text "192.168.1.103") Absent Absent;
   mkDiscovered (Text "192.168.1.104") (Text "LHB55ECH") (Text "S4");
   mkDiscovered Absent Absent Absent].

End VideoWallConfigWizard.

(** ** Queries ([get_temperature], [get_serial_number], ...) *)

Module Queries.
Import Session.
Local Open Scope session_scope.

(** [data.decode('ascii', errors='ignore')]: the bytes below 0x80, as
    characters; the others are dropped. *)
Fixpoint decode_ascii_ignore (data : bytes) : string :=
  match data with
  | [] => EmptyString
  | b :: data' =>
      if byte_val b <? 0x80
      then String (ascii_of_byte b) (decode_ascii_ignore data')
      else decode_ascii_ignore data'
  end.

(** [c.isspace()] on an ASCII character: 0x09 to 0x0D, and 0x1C to the
    space 0x20. *)
Definition isspace (c : ascii) : bool :=
  let n := Z.of_N (N_of_ascii c) in
  ((0x09 <=? n) && (n <=? 0x0D)) || ((0x1C <=? n) && (n <=? 0x20)).

(** [s.lstrip()]. *)
Fixpoint lstrip (s : string) : string :=
  match s with
  | EmptyString => EmptyString
  | String c s' => if isspace c then lstrip s' else s
  end.

(** [s[::-1]]. *)
Definition reversed (s : string) : string :=
  string_of_list_ascii (rev (list_ascii_of_string s)).

(** [s.strip()]. *)
Definition strip (s : string) : string :=
  reversed (lstrip (reversed (lstrip s))).

(** What a query returns: the dictionary of [send_command], and the
    value under the key the query adds to it, when it adds one. *)
Record reply (A : Type) : Type := mkReply {
  returned : result;
  added : option A
}.
Arguments mkReply {A}.
Arguments returned {A}.
Arguments added {A}.

(** [get_temperature(self)]; the key is ['temperature']. *)
Definition get_temperature (tr : transport) : M (reply Z) :=
  result <- send_command tr CURRENT_TEMP [] true ;;
  match result with
  | Parsed _ data _ =>
      if len data >=? 1 then
        temp <- lift (index data 0) ;;
        ret (mkReply result (Some temp))
      else ret (mkReply result None)
  | _ => ret (mkReply result None)
  end.

(** [get_serial_number(self)]; the key is ['serial_number']. *)
Definition get_serial_number (tr : transport) : M (reply string) :=
  result <- send_command tr SERIAL_NUMBER [] true ;;
  match result with
  | Parsed _ data _ =>
      ret (mkReply result (Some (strip (decode_ascii_ignore data))))
  | _ => ret (mkReply result None)
  end.

(** [get_model_number(self)]; the key is ['model_number']. *)
Definition get_model_number (tr : transport) : M (reply string) :=
  result <- send_command tr MODEL_NUMBER [] true ;;
  match result with
  | Parsed _ data _ =>
      ret (mkReply result (Some (strip (decode_ascii_ignore data))))
  | _ => ret (mkReply result None)
  end.

(** [get_software_version(self)]; the key is ['software_version']. *)
Definition get_software_version (tr : transport) : M (reply string) :=
  result <- send_command tr SOFTWARE_VERSION [] true ;;
  match result with
  | Parsed _ data _ =>
      ret (mkReply result (Some (strip (decode_ascii_ignore data))))
  | _ => ret (mkReply result None)
  end.

End Queries.

(** ** The health check ([health_check]) *)

(** The dictionary [health_data].  The key ['ip'] is a copy of [self.ip]
    and is left out; ['error'] is [None] as long as the key is absent. *)
Module Health.

Record health_data : Type := mkHealth {
  display_id : Z;
  connected : bool;
  responsive : bool;
  temperature : option Z;
  error_count : nat;
  last_response : option Z;
  model : option string;
  serial_number : option string;
  software_version : option string;
  error : option exn
}.

Definition with_connected (b : bool) (h : health_data) : health_data :=
  mkHealth (display_id h) b (responsive h) (temperature h) (error_count h)
           (last_response h) (model h) (serial_number h)
           (software_version h) (error h).

Definition with_responsive (b : bool) (h : health_data) : health_data :=
  mkHealth (display_id h) (connected h) b (temperature h) (error_count h)
           (last_response h) (model h) (serial_number h)
           (software_version h) (error h).

Definition with_temperature (t : option Z) (h : health_data)
  : health_data :=
  mkHealth (display_id h) (connected h) (responsive h) t (error_count h)
           (last_response h) (model h) (serial_number h)
           (software_version h) (error h).

Definition with_model (s : option string) (h : health_data)
  : health_data :=
  mkHealth (display_id h) (connected h) (responsive h) (temperature h)
           (error_count h) (last_response h) s (serial_number h)
           (software_version h) (error h).

Definition with_serial_number (s : option string) (h : health_data)
  : health_data :=
  mkHealth (display_id h) (connected h) (responsive h) (temperature h)
           (error_count h) (last_response h) (model h) s
           (software_version h) (error h).

Definition with_software_version (s : option string) (h : health_data)
  : health_data :=
  mkHealth (display_id h) (connected h) (responsive h) (temperature h)
           (error_count h) (last_response h) (model h) (serial_number h)
           s (error h).

Definition with_error (e : exn) (h : health_data) : health_data :=
  mkHealth (display_id h) (connected h) (responsive h) (temperature h)
           (error_count h) (last_response h) (model h) (serial_number h)
           (software_version h) (Some e).

End Health.

Module HealthCheck.
Import Session Queries.

(** What the network answers during one [health_check]: to the
    [connect] of the check itself, and to each of its four queries. *)
Record network : Type := mkNetwork {
  on_connect : bool;
  on_temperature : transport;
  on_model_number : transport;
  on_serial_number : transport;
  on_software_version : transport
}.

(** The monad of the body of [health_check]: the dictionary
    [health_data] beside the adapter; what was written to it before an
    exception stays. *)
Definition H (A : Type) : Type :=
  Health.health_data -> adapter ->
  outcome A * Health.health_data * adapter * list event.

Definition retH {A} (a : A) : H A := fun hd st => (Returns a, hd, st, []).

Definition bindH {A B} (c : H A) (k : A -> H B) : H B := fun hd st =>
  match c hd st with
  | (Returns a, hd1, st1, t1) =>
      match k a hd1 st1 with
      | (o, hd2, st2, t2) => (o, hd2, st2, t1 ++ t2)
      end
  | (Raises e, hd1, st1, t1) => (Raises e, hd1, st1, t1)
  end.

Definition catchH {A} (body : H A) (handler : exn -> H A) : H A :=
  fun hd st =>
    match body hd st with
    | (Returns a, hd1, st1, t1) => (Returns a, hd1, st1, t1)
    | (Raises e, hd1, st1, t1) =>
        match handler e hd1 st1 with
        | (o, hd2, st2, t2) => (o, hd2, st2, t1 ++ t2)
        end
    end.

(** A method of the adapter, awaited. *)
Definition call {A} (c : M A) : H A := fun hd st =>
  match c st with (o, st1, t1) => (o, hd, st1, t1) end.

(** [health_data[key] = value]. *)
Definition update (f : Health.health_data -> Health.health_data)
  : H unit :=
  fun hd st => (Returns tt, f hd, st, []).

Definition whenH (b : bool) (c : H unit) : H unit :=
  if b then c else retH tt.

Declare Scope health_scope.
Delimit Scope health_scope with health.
Notation "x <- c ;; k" := (bindH c (fun x => k))
  (at level 61, c at next level, right associativity) : health_scope.
Notation "c ;; k" := (bindH c (fun _ => k))
  (at level 61, right associativity) : health_scope.
Local Open Scope health_scope.

(** The inner [try] block: the device information. *)
Definition gather_info (net : network) : H unit :=
  model_result <- call (get_model_number (on_model_number net)) ;;
  whenH (success (returned model_result))
        (update (Health.with_model (added model_result))) ;;
  serial_result <- call (get_serial_number (on_serial_number net)) ;;
  whenH (success (returned serial_result))
        (update (Health.with_serial_number (added serial_result))) ;;
  version_result <-
    call (get_software_version (on_software_version net)) ;;
  whenH (success (returned version_result))
        (update (Health.with_software_version (added version_result))).

(** The outer [try] block. *)
Definition check_body (net : network) : H unit :=
  st <- call get ;;
  whenH (negb (connected st))
        (_ <- call (connect (on_connect net)) ;; retH tt) ;;
  st <- call get ;;
  whenH (connected st)
    (update (Health.with_connected true) ;;
     temp_result <- call (get_temperature (on_temperature net)) ;;
     whenH (success (returned temp_result))
           (update (Health.with_responsive true) ;;
            update (Health.with_temperature (added temp_result))) ;;
     catchH (gather_info net)
            (fun _ => retH tt)).   (* [logger.debug] *)

(** [health_check(self)].  Its two log lines are not recorded. *)
Definition health_check (net : network) : M Health.health_data :=
  fun st =>
    let health_data :=
      Health.mkHealth (display_id st) false false None (error_count st)
                      (last_response_time st) None None None None in
    match catchH (check_body net)
                 (fun e => update (Health.with_error e))
                 health_data st
    with
    | (Returns _, hd, st', t) => (Returns hd, st', t)
    | (Raises e, _, st', t) => (Raises e, st', t)
    end.

End HealthCheck.

(** ** Discovery ([disconnect], [_test_single_ip], [discover_displays]) *)

Module Discovery.
Import Session HealthCheck.
Local Open Scope session_scope.

(** Whether the adapter has a [writer] after the calls of a trace made
    on a new adapter: [connect] sets it when the connection opens, which
    is when it logs so. *)
Definition has_writer (t : list event) : bool :=
  existsb (fun e => match e with
                    | Log INFO LogConnected => true
                    | _ => false
                    end) t.

(** [disconnect(self)]: [writer] tells whether the adapter has a writer,
    [closing] what [close] and [wait_closed] answer.  The two calls are
    not recorded in the trace. *)
Definition disconnect (writer : bool) (closing : option exn) : M unit :=
  (if writer then
     match closing with None => ret tt | Some e => lift (Raises e) end
   else ret tt) ;;
  modify (set_connected false).

(** One address to test: the address, and what its network answers to
    the health check and to the closing of the connection. *)
Record probe : Type := mkProbe {
  address : string;
  answers : network;
  closing : option exn
}.

(** [health.get('model', 'Samsung Display')] and
    [health.get('serial_number')]: the key is there, with a text or
    [None]. *)
Definition field_of (value : option string)
  : VideoWallConfigWizard.field :=
  match value with
  | Some s => VideoWallConfigWizard.Text s
  | None => VideoWallConfigWizard.NoneValue
  end.

(** [_test_single_ip(self, ip)]: the dictionary of a responsive display,
    by its keys ['ip'], ['model'] and ['serial_number'], or [None].  The
    adapter is new, with display id 1; an exception of the health check
    or of [disconnect] is passed over. *)
Definition _test_single_ip (p : probe)
  : option VideoWallConfigWizard.discovered :=
  match health_check (answers p) (new_adapter 1) with
  | (Raises _, _, _) => None
  | (Returns health, st, t) =>
      match disconnect (has_writer t) (closing p) st with
      | (Raises _, _, _) => None
      | (Returns _, _, _) =>
          if Health.responsive health then
            Some (VideoWallConfigWizard.mkDiscovered
                    (VideoWallConfigWizard.Text (address p))
                    (field_of (Health.model health))
                    (field_of (Health.serial_number health)))
          else None
      end
  end.

(** [discover_displays(self, ip_range)] for a range, once the range is
    split into its addresses: the results that are dictionaries, in the
    order of the addresses. *)
Definition discover_displays (probes : list probe)
  : list VideoWallConfigWizard.discovered :=
  flat_map (fun p => match _test_single_ip p with
                     | Some result => [result]
                     | None => []
                     end)
           probes.

End Discovery.

(** ** Health results and the system status ([MonitoringDashboard]) *)

Module HealthMonitoring.
Import Dict MonitoringDashboard.
Local Open Scope string_scope.

(** [str(n)] for an integer. *)
Definition str (n : Z) : string := NilZero.string_of_int (Z.to_int n).

(** The degree sign of the temperature messages, in UTF-8. *)
Definition degree : string :=
  String "194"%char (String "176"%char EmptyString).

(** [self.alert_thresholds], as [__init__] sets it. *)
Definition temperature_warning : Z := 70.
Definition temperature_critical : Z := 80.
Definition response_timeout : Z := 10.
Definition error_count_warning : nat := 3.

Section Process.
(** Python's [hash] on strings, and [f"{response_age:.1f}"]. *)
Variable hash : string -> Z.
Variable one_decimal : Z -> string.

(** The four checks of [_process_health_result]: the [_add_alert] calls
    each of them makes, as level and message. *)

(** [# Check temperature]; a temperature of 0 is false. *)
Definition check_temperature (health_data : Health.health_data)
  : list (string * string) :=
  let display_id := Health.display_id health_data in
  match Health.temperature health_data with
  | None => []
  | Some temp =>
      if (temp =? 0)%Z then []
      else if (temp >=? temperature_critical)%Z then
        [("critical",
          "Display " ++ str display_id ++ " temperature critical: "
          ++ str temp ++ degree ++ "C")]
      else if (temp >=? temperature_warning)%Z then
        [("warning",
          "Display " ++ str display_id ++ " temperature high: "
          ++ str temp ++ degree ++ "C")]
      else []
  end.

(** [# Check connectivity]. *)
Definition check_connectivity (health_data : Health.health_data)
  : list (string * string) :=
  let display_id := Health.display_id health_data in
  if negb (Health.connected health_data) then
    [("error", "Display " ++ str display_id ++ " not connected")]
  else if negb (Health.responsive health_data) then
    [("warning", "Display " ++ str display_id ++ " not responding")]
  else [].

(** [# Check response time]; a last response at time 0 is false. *)
Definition check_response_time (health_data : Health.health_data)
    (current_time : Z) : list (string * string) :=
  let display_id := Health.display_id health_data in
  match Health.last_response health_data with
  | None => []
  | Some last_response =>
      if (last_response =? 0)%Z then []
      else
        let response_age := (current_time - last_response)%Z in
        if (response_age >? response_timeout)%Z then
          [("warning",
            "Display " ++ str display_id ++ " last response "
            ++ one_decimal response_age ++ "s ago")]
        else []
  end.

(** [# Check error count]. *)
Definition check_error_count (health_data : Health.health_data)
  : list (string * string) :=
  let display_id := Health.display_id health_data in
  if (error_count_warning <=? Health.error_count health_data)%nat then
    [("warning",
      "Display " ++ str display_id ++ " has "
      ++ str (Z.of_nat (Health.error_count health_data)) ++ " errors")]
  else [].

(** The [_add_alert] calls of one [_process_health_result], in order. *)
Definition health_alerts (health_data : Health.health_data)
    (current_time : Z) : list (string * string) :=
  (check_temperature health_data
   ++ check_connectivity health_data
   ++ check_response_time health_data current_time
   ++ check_error_count health_data)%list.

(** [_process_health_result(self, health_data)] on [self.alerts]:
    [current_time] is the reading of the clock at its start, [clock i]
    the readings of its [i]-th call of [_add_alert]. *)
Definition _process_health_result (current_time : Z)
    (clock : nat -> clock_reads) (health_data : Health.health_data)
    (alerts : list alert) : list alert :=
  let raised := health_alerts health_data current_time in
  add_alerts hash
    (map (fun '(i, (level, message)) => mkCall (clock i) level message)
         (combine (seq 0 (length raised)) raised))
    alerts.
End Process.

(** The computed keys of the dictionary [get_system_status] returns.
    [connection_rate] is the quotient, unevaluated: numerator and
    denominator, and [(0, 1)] for the 0 of no displays. *)
Record system_status : Type := mkStatus {
  total_displays : nat;
  connected_displays : nat;
  responsive_displays : nat;
  connection_rate : nat * nat;
  recent_alerts : nat;
  critical_alerts : nat;
  warning_alerts : nat;
  system_health : string
}.

(** [get_system_status(self)]: [clock i] is what [time.time()] reads
    when the comprehension looks at the [i]-th alert. *)
Definition get_system_status {K : Type} (clock : nat -> Z)
    (adapters : dict K Session.adapter) (alerts : list alert)
  : system_status :=
  let total_displays := length adapters in
  let responsive_displays := 0%nat in
  let recent_alerts :=
    map snd
        (filter (fun '(i, a) => (clock i - timestamp a <? 3600)%Z)
                (combine (seq 0 (length alerts)) alerts)) in
  let connected_displays :=
    fold_left
      (fun connected_displays adapter =>
         if Session.connected adapter then (connected_displays + 1)%nat
         else connected_displays)
      (map snd adapters) 0%nat in
  let critical :=
    filter (fun a => level a =? "critical") recent_alerts in
  let warning :=
    filter (fun a => level a =? "warning") recent_alerts in
  mkStatus total_displays connected_displays responsive_displays
    (if (0 <? total_displays)%nat
     then (connected_displays, total_displays) else (0%nat, 1%nat))
    (length recent_alerts) (length critical) (length warning)
    (if (length recent_alerts =? 0)%nat then "healthy"
     else if (length critical =? 0)%nat then "warning"
     else "critical").

End HealthMonitoring.

(** ** Notions used in the statements on the health check *)

Module HealthNotions.
Import Session Queries HealthCheck.

(** The temperature a result of [send_command] carries: the first byte
    of its data. *)
Definition temperature_of (r : result) : option Z :=
  match r with
  | Parsed _ (b :: _) _ => Some (byte_val b)
  | _ => None
  end.

(** The text a result of [send_command] carries: its data, decoded and
    stripped. *)
Definition text_of (r : result) : option string :=
  match r with
  | Parsed _ data _ => Some (strip (decode_ascii_ignore data))
  | _ => None
  end.

(** The health data of an adapter as the check finds it, before
    anything is tried. *)
Definition unreachable_report (st : adapter) : Health.health_data :=
  Health.mkHealth (display_id st) false false None (error_count st)
                  (last_response_time st) None None None None.

(** The health data of an adapter found as [st], connected, whose four
    queries returned [r1] to [r4]. *)
Definition report (st : adapter) (r1 r2 r3 r4 : result)
  : Health.health_data :=
  Health.mkHealth (display_id st) true (success r1) (temperature_of r1)
                  (error_count st) (last_response_time st)
                  (text_of r2) (text_of r3) (text_of r4) None.

(** Every query of the check meets the same transport. *)
Definition uniform (ok : bool) (tr : transport) : network :=
  mkNetwork ok tr tr tr tr.

End HealthNotions.

(* ================================================================== *)
(** * Part II.  Properties *)
(* ================================================================== *)

(** ** Bytes, slices and [struct] *)

Module PyFacts.

Lemma byte_val_range (b : Byte.byte) : 0 <= byte_val b <= 255.
Proof.
  unfold byte_val. pose proof (Byte.to_N_bounded b). lia.
Qed.

Lemma pack_B_returns (v : Z) :
  0 <= v <= 255 -> exists b, pack_B v = Returns b /\ byte_val b = v.
Proof.
  intros Hv. unfold pack_B.
  replace ((0 <=? v) && (v <=? 255)) with true
    by (symmetry; apply andb_true_iff; split; apply Z.leb_le; lia).
  destruct (Byte.of_N (Z.to_N v)) as [b|] eqn:E.
  - exists b. split; [reflexivity|].
    unfold byte_val. rewrite (Byte.to_of_N _ E). lia.
  - apply Byte.of_N_None_iff in E. lia.
Qed.

Lemma pack_B_raises (v : Z) :
  ~ 0 <= v <= 255 -> pack_B v = Raises StructError.
Proof.
  intros Hv. unfold pack_B.
  destruct ((0 <=? v) && (v <=? 255)) eqn:E; [|reflexivity].
  apply andb_true_iff in E. destruct E as [E1 E2].
  apply Z.leb_le in E1, E2. lia.
Qed.

Lemma bytes_of_int_returns (v : Z) :
  0 <= v <= 255 ->
  exists b, bytes_of_int v = Returns [b] /\ byte_val b = v.
Proof.
  intros Hv. unfold bytes_of_int.
  replace ((0 <=? v) && (v <=? 255)) with true
    by (symmetry; apply andb_true_iff; split; apply Z.leb_le; lia).
  destruct (Byte.of_N (Z.to_N v)) as [b|] eqn:E.
  - exists b. split; [reflexivity|].
    unfold byte_val. rewrite (Byte.to_of_N _ E). lia.
  - apply Byte.of_N_None_iff in E. lia.
Qed.

(** [x & 0xFF] is the residue modulo 256. *)
Lemma land_0xFF (x : Z) : Z.land x 0xFF = x mod 256.
Proof.
  change 0xFF with (Z.ones 8). rewrite Z.land_ones by lia. reflexivity.
Qed.

Lemma land_0xFF_range (x : Z) : 0 <= Z.land x 0xFF <= 255.
Proof.
  rewrite land_0xFF. pose proof (Z.mod_pos_bound x 256). lia.
Qed.

Lemma len_nonneg {A} (l : list A) : 0 <= len l.
Proof. unfold len. lia. Qed.

Lemma len_cons {A} (a : A) (l : list A) : len (a :: l) = 1 + len l.
Proof. unfold len. cbn [length]. lia. Qed.

Lemma len_app {A} (l1 l2 : list A) : len (l1 ++ l2) = len l1 + len l2.
Proof. unfold len. rewrite length_app. lia. Qed.

(** The first four bytes of a response that has them. *)
Lemma slice_header {A} (a b c d : A) (rest : list A) :
  slice 0 4 (a :: b :: c :: d :: rest) = [a; b; c; d].
Proof. reflexivity. Qed.

(** [response[4:4+n]] is the first [n] bytes after the header, or all of
    them when fewer are there. *)
Lemma slice_payload {A} (a b c d : A) (rest : list A) (n : Z) :
  0 <= n ->
  slice 4 (4 + n) (a :: b :: c :: d :: rest) = firstn (Z.to_nat n) rest.
Proof.
  intros Hn. unfold slice.
  replace (Z.to_nat (4 + n) - Z.to_nat 4)%nat with (Z.to_nat n) by lia.
  reflexivity.
Qed.

Lemma index_after_header (a b c d : Byte.byte) (rest : bytes) (n : Z) :
  0 <= n ->
  index (a :: b :: c :: d :: rest) (4 + n) =
  match nth_error rest (Z.to_nat n) with
  | Some x => Returns (byte_val x)
  | None => Raises IndexError
  end.
Proof.
  intros Hn. unfold index.
  replace (Z.to_nat (4 + n)) with (4 + Z.to_nat n)%nat by lia.
  reflexivity.
Qed.

Lemma last_n_length {A} (n : nat) (l : list A) :
  length (last_n n l) = Nat.min n (length l).
Proof. unfold last_n. rewrite length_skipn. lia. Qed.

Lemma last_n_all {A} (n : nat) (l : list A) :
  (length l <= n)%nat -> last_n n l = l.
Proof.
  intros Hl. unfold last_n.
  replace (length l - n)%nat with 0%nat by lia. reflexivity.
Qed.

End PyFacts.

(** ** The frame codec *)

Module CodecFacts.
Import Codec PyFacts.

Lemma value_range (c : MDCCommand) : 0 <= value c <= 255.
Proof. destruct c; cbn; lia. Qed.

(** The frame [_create_mdc_packet] builds, when every field fits a
    byte. *)
Lemma create_returns (display_id : Z) (command : MDCCommand)
    (data : bytes) :
  0 <= display_id <= 255 ->
  (length data <= 255)%nat ->
  exists h c d n k,
    _create_mdc_packet display_id command data
      = Returns (h :: c :: d :: n :: data ++ [k])
    /\ byte_val h = 0xAA /\ byte_val c = value command
    /\ byte_val d = display_id /\ byte_val n = len data
    /\ byte_val k = Z.land (0xAA + value command + display_id
                            + len data + sum data) 0xFF.
Proof.
  intros Hid Hlen. unfold _create_mdc_packet.
  destruct (pack_B_returns 0xAA) as (h & Eh & Vh); [lia|].
  destruct (pack_B_returns (value command)) as (c & Ec & Vc);
    [apply value_range|].
  destruct (pack_B_returns display_id) as (d & Ed & Vd); [lia|].
  destruct (pack_B_returns (len data)) as (n & En & Vn);
    [unfold len; lia|].
  destruct (pack_B_returns
              (Z.land (0xAA + value command + display_id
                       + len data + sum data) 0xFF))
    as (k & Ek & Vk); [apply land_0xFF_range|].
  exists h, c, d, n, k.
  cbn [struct_pack bind].
  rewrite Eh, Ec, Ed, En. cbn [bind]. rewrite Ek. cbn [bind app].
  repeat split; assumption.
Qed.

(** The outcome of [_parse_mdc_response] on a response of at least four
    bytes, field by field. *)
Lemma parse_frame (self_display_id : Z) (h c d n : Byte.byte)
    (rest : bytes) :
  let response := h :: c :: d :: n :: rest in
  let data := firstn (Z.to_nat (byte_val n)) rest in
  let checksum :=
    match nth_error rest (Z.to_nat (byte_val n)) with
    | Some k => byte_val k
    | None => 0
    end in
  let expected_checksum :=
    Z.land (byte_val h + byte_val c + byte_val d + byte_val n + sum data)
           0xFF in
  _parse_mdc_response self_display_id response =
  Returns
    (if negb (byte_val h =? 0xAA) then Failure InvalidHeader
     else if negb (byte_val d =? self_display_id)
     then Failure DisplayIdMismatch
     else if negb (checksum =? expected_checksum)
     then Failure ChecksumMismatch
     else Parsed (byte_val c) data response).
Proof.
  intros response data checksum expected_checksum.
  pose proof (byte_val_range n) as Hn.
  unfold _parse_mdc_response.
  replace (len response <? 4) with false
    by (symmetry; apply Z.ltb_ge; unfold response;
        rewrite !len_cons; pose proof (len_nonneg rest); lia).
  unfold parse_body, response. rewrite slice_header.
  cbn [struct_unpack_BBBB bind try_except].
  destruct (negb (byte_val h =? 0xAA)); [reflexivity|].
  destruct (negb (byte_val d =? self_display_id)); [reflexivity|].
  rewrite slice_payload by lia.
  assert (Hdata :
    (if byte_val n >? 0 then firstn (Z.to_nat (byte_val n)) rest else [])
    = data).
  { unfold data. destruct (byte_val n >? 0) eqn:E; [reflexivity|].
    rewrite Z.gtb_ltb in E. apply Z.ltb_ge in E.
    replace (byte_val n) with 0 by lia. reflexivity. }
  rewrite Hdata.
  assert (Hck :
    (if len (h :: c :: d :: n :: rest) >? 4 + byte_val n
     then index (h :: c :: d :: n :: rest) (4 + byte_val n)
     else Returns 0) = Returns checksum).
  { rewrite index_after_header by lia. unfold checksum.
    rewrite !len_cons. unfold len.
    destruct (nth_error rest (Z.to_nat (byte_val n))) as [k|] eqn:E.
    - assert (Z.to_nat (byte_val n) < length rest)%nat
        by (apply nth_error_Some; congruence).
      replace (1 + (1 + (1 + (1 + Z.of_nat (length rest))))
               >? 4 + byte_val n) with true
        by (symmetry; rewrite Z.gtb_ltb; apply Z.ltb_lt; lia).
      reflexivity.
    - apply nth_error_None in E.
      replace (1 + (1 + (1 + (1 + Z.of_nat (length rest))))
               >? 4 + byte_val n) with false
        by (symmetry; rewrite Z.gtb_ltb; apply Z.ltb_ge; lia).
      reflexivity. }
  rewrite Hck. cbn [bind try_except].
  fold expected_checksum.
  destruct (negb (checksum =? expected_checksum)); reflexivity.
Qed.

(** Outside the byte range of the device id or of the payload length
    [struct.pack] raises, and so does [_create_mdc_packet]. *)
Lemma create_raises (display_id : Z) (command : MDCCommand)
    (data : bytes) :
  ~ (0 <= display_id <= 255 /\ (length data <= 255)%nat) ->
  _create_mdc_packet display_id command data = Raises StructError.
Proof.
  intros Hbad. unfold _create_mdc_packet.
  destruct (pack_B_returns 0xAA) as (h & Eh & _); [lia|].
  destruct (pack_B_returns (value command)) as (c & Ec & _);
    [apply value_range|].
  cbn [struct_pack bind]. rewrite Eh, Ec. cbn [bind].
  destruct (Z_le_dec 0 display_id) as [H0|H0];
    [destruct (Z_le_dec display_id 255) as [H1|H1]|].
  - destruct (pack_B_returns display_id) as (d & Ed & _); [lia|].
    rewrite Ed. cbn [bind].
    rewrite (pack_B_raises (len data)) by (unfold len; lia).
    reflexivity.
  - rewrite (pack_B_raises display_id) by lia. reflexivity.
  - rewrite (pack_B_raises display_id) by lia. reflexivity.
Qed.

Lemma byte_val_inj (a b : Byte.byte) : byte_val a = byte_val b -> a = b.
Proof.
  unfold byte_val. intros E.
  assert (E' : Byte.to_N a = Byte.to_N b) by lia.
  pose proof (Byte.of_to_N a) as Ha. pose proof (Byte.of_to_N b) as Hb.
  rewrite E' in Ha. congruence.
Qed.

Lemma firstn_len_app {A} (l t : list A) :
  firstn (Z.to_nat (len l)) (l ++ t) = l.
Proof.
  unfold len. rewrite Nat2Z.id.
  rewrite firstn_app, Nat.sub_diag, firstn_all. cbn. apply app_nil_r.
Qed.

Lemma nth_error_len_app {A} (l : list A) (k : A) :
  nth_error (l ++ [k]) (Z.to_nat (len l)) = Some k.
Proof.
  unfold len. rewrite Nat2Z.id.
  rewrite nth_error_app2, Nat.sub_diag by lia. reflexivity.
Qed.

(** Decoding a frame [_create_mdc_packet] built, whatever its last
    byte [k'] has become. *)
Lemma parse_created (self_display_id display_id : Z)
    (command : MDCCommand) (data body : bytes) (k k' : Byte.byte) :
  _create_mdc_packet display_id command data = Returns (body ++ [k]) ->
  _parse_mdc_response self_display_id (body ++ [k']) =
  Returns
    (if negb (display_id =? self_display_id)
     then Failure DisplayIdMismatch
     else if negb (byte_val k' =? byte_val k)
     then Failure ChecksumMismatch
     else Parsed (value command) data (body ++ [k'])).
Proof.
  intros Hc.
  assert (Hok : 0 <= display_id <= 255 /\ (length data <= 255)%nat).
  { destruct (Z_le_dec 0 display_id); [destruct (Z_le_dec display_id 255);
      [destruct (le_dec (length data) 255)|]|]; try (split; [lia|assumption]);
    rewrite create_raises in Hc by lia; discriminate. }
  destruct (create_returns display_id command data)
    as (h & c & d & n & k0 & E & Vh & Vc & Vd & Vn & Vk); try tauto.
  rewrite E in Hc. injection Hc as Hc.
  change (h :: c :: d :: n :: data ++ [k0])
    with ((h :: c :: d :: n :: data) ++ [k0]) in Hc.
  apply app_inj_tail in Hc. destruct Hc as [<- <-].
  cbn [app]. rewrite parse_frame.
  rewrite Vh, Vc, Vd, Vn, firstn_len_app, nth_error_len_app, <- Vk.
  cbn [Z.eqb negb]. rewrite Pos.eqb_refl. cbn [negb].
  reflexivity.
Qed.

End CodecFacts.

Module CodecClaims.
Import Codec PyFacts CodecFacts.

(** C1.  Round trip of the frame codec: for a device id that fits a
    byte, every command of the table and every payload of 0 to 255
    bytes, [_create_mdc_packet] returns a frame, and
    [_parse_mdc_response] with the same device id succeeds on it and
    returns the command code and the payload. *)
Theorem roundtrip (display_id : Z) (command : MDCCommand) (data : bytes) :
  0 <= display_id <= 255 ->
  (length data <= 255)%nat ->
  exists packet,
    _create_mdc_packet display_id command data = Returns packet
    /\ _parse_mdc_response display_id packet
       = Returns (Parsed (value command) data packet).
Proof.
  intros Hid Hlen.
  destruct (create_returns display_id command data Hid Hlen)
    as (h & c & d & n & k & E & _).
  exists (h :: c :: d :: n :: data ++ [k]). split; [exact E|].
  change (h :: c :: d :: n :: data ++ [k])
    with ((h :: c :: d :: n :: data) ++ [k]) in *.
  rewrite (parse_created _ _ _ _ _ _ k E).
  rewrite !Z.eqb_refl. reflexivity.
Qed.

Lemma roundtrip_witness :
  0 <= 1 <= 255
  /\ (length [Byte.x01; Byte.x02] <= 255)%nat
  /\ exists packet,
       _create_mdc_packet 1 POWER [Byte.x01; Byte.x02] = Returns packet
       /\ _parse_mdc_response 1 packet
          = Returns (Parsed (value POWER) [Byte.x01; Byte.x02] packet).
Proof.
  split; [lia|]. split; [cbn; lia|].
  apply (roundtrip 1 POWER [Byte.x01; Byte.x02]); [lia | cbn; lia].
Defined.

(** C10.  [_parse_mdc_response] is total: on every byte string, short,
    truncated or arbitrary, it returns a result dictionary and raises
    nothing; whatever the [try] block could raise is turned into a
    failure by the handler. *)
Theorem parse_total (self_display_id : Z) (response : bytes) :
  exists r : result,
    _parse_mdc_response self_display_id response = Returns r.
Proof.
  unfold _parse_mdc_response.
  destruct (len response <? 4); [eexists; reflexivity|].
  unfold try_except.
  destruct (parse_body self_display_id response);
    eexists; reflexivity.
Qed.

(** C2, as the code has it.  [_parse_mdc_response] goes through its
    checks in order: fewer than four bytes is 'Response too short';
    then a first byte other than 0xAA is 'Invalid header'; then a device
    id other than the adapter's is 'Display ID mismatch'; then a stored
    checksum other than the recomputed one is 'Checksum mismatch';
    otherwise it succeeds with the command code and the payload.  The
    payload is the declared number of bytes after the header or as many
    as are there, and a checksum byte that is not there reads as 0: a
    declared length beyond the bytes received is no failure of its own.
    Replacing the checksum byte of a frame built by
    [_create_mdc_packet] gives 'Checksum mismatch', and decoding such a
    frame for another device id gives 'Display ID mismatch'. *)
Theorem parse_outcomes :
  (forall self_display_id response,
      len response < 4 ->
      _parse_mdc_response self_display_id response
      = Returns (Failure ResponseTooShort))
  /\ (forall self_display_id h c d n rest,
        let response := h :: c :: d :: n :: rest in
        let data := firstn (Z.to_nat (byte_val n)) rest in
        let stored :=
          match nth_error rest (Z.to_nat (byte_val n)) with
          | Some k => byte_val k
          | None => 0
          end in
        let recomputed :=
          (byte_val h + byte_val c + byte_val d + byte_val n + sum data)
            mod 256 in
        (byte_val h <> 0xAA ->
         _parse_mdc_response self_display_id response
         = Returns (Failure InvalidHeader))
        /\ (byte_val h = 0xAA -> byte_val d <> self_display_id ->
            _parse_mdc_response self_display_id response
            = Returns (Failure DisplayIdMismatch))
        /\ (byte_val h = 0xAA -> byte_val d = self_display_id ->
            stored <> recomputed ->
            _parse_mdc_response self_display_id response
            = Returns (Failure ChecksumMismatch))
        /\ (byte_val h = 0xAA -> byte_val d = self_display_id ->
            stored = recomputed ->
            _parse_mdc_response self_display_id response
            = Returns (Parsed (byte_val c) data response))
        /\ (len rest < byte_val n -> data = rest /\ stored = 0))
  /\ (forall display_id command data body k,
        _create_mdc_packet display_id command data
        = Returns (body ++ [k]) ->
        (forall k', k' <> k ->
           _parse_mdc_response display_id (body ++ [k'])
           = Returns (Failure ChecksumMismatch))
        /\ (forall other, other <> display_id ->
              _parse_mdc_response other (body ++ [k])
              = Returns (Failure DisplayIdMismatch))).
Proof.
  split; [|split].
  - intros self response Hshort. unfold _parse_mdc_response.
    replace (len response <? 4) with true
      by (symmetry; apply Z.ltb_lt; exact Hshort).
    reflexivity.
  - intros self h c d n rest response data stored recomputed.
    pose proof (parse_frame self h c d n rest) as P. cbv zeta in P.
    fold response data stored in P. rewrite land_0xFF in P.
    fold recomputed in P.
    split; [|split; [|split; [|split; [|intros Hlong; split]]]].
    + intros Hh. rewrite P.
      replace (byte_val h =? 0xAA) with false
        by (symmetry; apply Z.eqb_neq; exact Hh).
      reflexivity.
    + intros Hh Hd. rewrite P, Hh.
      replace (byte_val d =? self) with false
        by (symmetry; apply Z.eqb_neq; exact Hd).
      reflexivity.
    + intros Hh Hd Hk. rewrite P, Hh, Hd, !Z.eqb_refl.
      replace (stored =? recomputed) with false
        by (symmetry; apply Z.eqb_neq; exact Hk).
      reflexivity.
    + intros Hh Hd Hk. rewrite P, Hh, Hd, !Z.eqb_refl.
      replace (stored =? recomputed) with true
        by (symmetry; apply Z.eqb_eq; exact Hk).
      reflexivity.
    + unfold data. apply firstn_all2.
      unfold len in Hlong. lia.
    + unfold stored.
      replace (nth_error rest (Z.to_nat (byte_val n))) with (@None Byte.byte)
        by (symmetry; apply nth_error_None; unfold len in Hlong; lia).
      reflexivity.
  - intros display_id command data body k Hc. split.
    + intros k' Hk. rewrite (parse_created _ _ _ _ _ _ k' Hc).
      rewrite Z.eqb_refl. cbn [negb].
      replace (byte_val k' =? byte_val k) with false; [reflexivity|].
      symmetry. apply Z.eqb_neq. intros E. apply Hk.
      apply byte_val_inj. exact E.
    + intros other Ho. rewrite (parse_created _ _ _ _ _ _ k Hc).
      replace (display_id =? other) with false; [reflexivity|].
      symmetry. apply Z.eqb_neq. congruence.
Qed.

Lemma parse_outcomes_witness :
  _parse_mdc_response 1 [Byte.xaa; Byte.x11; Byte.x01]
  = Returns (Failure ResponseTooShort)
  /\ _parse_mdc_response 1 [Byte.x55; Byte.x11; Byte.x01; Byte.x00; Byte.xbc]
     = Returns (Failure InvalidHeader)
  /\ _parse_mdc_response 2 [Byte.xaa; Byte.x11; Byte.x01; Byte.x00; Byte.xbc]
     = Returns (Failure DisplayIdMismatch)
  /\ _parse_mdc_response 1 [Byte.xaa; Byte.x11; Byte.x01; Byte.x00; Byte.x43]
     = Returns (Failure ChecksumMismatch)
  /\ _parse_mdc_response 1 [Byte.xaa; Byte.x11; Byte.x01; Byte.x00; Byte.xbc]
     = Returns (Parsed 0x11 []
                  [Byte.xaa; Byte.x11; Byte.x01; Byte.x00; Byte.xbc]).
Proof.
  destruct parse_outcomes as (Hshort & Hframe & Hflip).
  split; [apply Hshort; cbn; lia|].
  split; [apply (Hframe 1 Byte.x55 Byte.x11 Byte.x01 Byte.x00 [Byte.xbc]);
          cbn; lia|].
  split; [apply (Hframe 2 Byte.xaa Byte.x11 Byte.x01 Byte.x00 [Byte.xbc]);
          cbn; lia|].
  split; [apply (Hflip 1 POWER [] [Byte.xaa; Byte.x11; Byte.x01; Byte.x00]
                       Byte.xbc);
          [reflexivity | discriminate]|].
  apply (Hframe 1 Byte.xaa Byte.x11 Byte.x01 Byte.x00 [Byte.xbc]);
    reflexivity.
Defined.

(** C2, counterexample.  A response of four bytes that
    declares a payload of 68 bytes and carries none is accepted: the
    payload reads as empty, the missing checksum as 0, and 0xAA + 0x11
    + 0x01 + 0x44 is 0 modulo 256. *)
Lemma truncated_frame_accepted :
  len (skipn 4 [Byte.xaa; Byte.x11; Byte.x01; Byte.x44]) < byte_val Byte.x44
  /\ _parse_mdc_response 1 [Byte.xaa; Byte.x11; Byte.x01; Byte.x44]
     = Returns (Parsed 0x11 [] [Byte.xaa; Byte.x11; Byte.x01; Byte.x44]).
Proof. split; [cbn; lia | reflexivity]. Qed.

(** C5, counterexample.  On a payload of 256 bytes
    [_create_mdc_packet] returns neither a frame nor an error value:
    [struct.pack] raises [struct.error] on the length field and the
    exception leaves the function. *)
Lemma oversized_payload_escapes :
  (255 < length (repeat Byte.x00 256))%nat
  /\ _create_mdc_packet 1 POWER (repeat Byte.x00 256) = Raises StructError.
Proof. split; [cbn; lia | vm_compute; reflexivity]. Qed.

End CodecClaims.

(** ** The retry loop *)

Module SessionFacts.
Import Codec Session Notions PyFacts CodecFacts.
Local Open Scope session_scope.

Lemma timeline_app (t1 t2 : list event) :
  timeline (t1 ++ t2) = timeline t1 ++ timeline t2.
Proof. apply filter_app. Qed.

Lemma flat_map_singleton {A B} (f : A -> B) (l : list A) :
  flat_map (fun a => [f a]) l = map f l.
Proof. induction l as [|a l IH]; cbn; [|rewrite IH]; reflexivity. Qed.

Lemma bindM_lift_returns {A B} (a : A) (k : A -> M B) (st : adapter) :
  bindM (lift (Returns a)) k st = k a st.
Proof.
  unfold bindM, lift. destruct (k a st) as [[o st'] t]. reflexivity.
Qed.

Lemma set_connected_same (st : adapter) :
  set_connected (connected st) st = st.
Proof. destruct st. reflexivity. Qed.

(** An iteration that finds the session disconnected and cannot open
    the connection: [continue], nothing else. *)
Lemma attempt_connect_fails tr command data expect k st :
  connected st = false ->
  open_connection tr k = false ->
  attempt tr command data expect k st
  = (Returns Next, st, [OpenConnection; Log ERROR LogConnectFailed]).
Proof.
  intros Hc Ho.
  unfold attempt, catch, attempt_try, bindM, get, connect.
  rewrite Hc, Ho. cbn.
  rewrite <- Hc at 1. rewrite set_connected_same. reflexivity.
Qed.

#[local] Arguments Nat.ltb : simpl never.
#[local] Arguments Nat.sub : simpl never.

Ltac unfold_session :=
  unfold attempt, catch, attempt_try, attempt_except, bindM, get, connect,
    stream_write, stream_drain, stream_read, when, lift, modify, emit, ret.

(** An iteration in which [_create_mdc_packet] raises. *)
Lemma attempt_create_raises tr command data expect k st e :
  (connected st = true \/ open_connection tr k = true) ->
  _create_mdc_packet (display_id st) command data = Raises e ->
  attempt tr command data expect k st
  = (Returns Next, after_except k (after_connect st),
     connect_trace st ++ Log ERROR (LogAttemptFailed (k + 1) e)
                   :: delay_after k st).
Proof.
  intros Hc He.
  unfold after_except, after_connect, connect_trace, delay_after.
  unfold_session. rewrite He.
  destruct (connected st) eqn:Ec.
  - cbn. destruct (k <? max_retries st - 1)%nat; reflexivity.
  - destruct Hc as [Hc|Hc]; [discriminate|]. rewrite Hc. cbn.
    destruct (k <? max_retries st - 1)%nat; reflexivity.
Qed.

(** An iteration in which the write raises. *)
Lemma attempt_write_raises tr command data expect k st packet e :
  (connected st = true \/ open_connection tr k = true) ->
  _create_mdc_packet (display_id st) command data = Returns packet ->
  write tr k = Some e ->
  attempt tr command data expect k st
  = (Returns Next, after_except k (after_connect st),
     connect_trace st ++ Write packet
                   :: Log ERROR (LogAttemptFailed (k + 1) e)
                   :: delay_after k st).
Proof.
  intros Hc Hp He.
  unfold after_except, after_connect, connect_trace, delay_after.
  unfold_session. rewrite Hp, He.
  destruct (connected st) eqn:Ec.
  - cbn. destruct (k <? max_retries st - 1)%nat; reflexivity.
  - destruct Hc as [Hc|Hc]; [discriminate|]. rewrite Hc. cbn.
    destruct (k <? max_retries st - 1)%nat; reflexivity.
Qed.

(** An iteration whose read runs into the 5 s bound: [continue]. *)
Lemma attempt_times_out tr command data k st packet :
  (connected st = true \/ open_connection tr k = true) ->
  _create_mdc_packet (display_id st) command data = Returns packet ->
  write tr k = None -> drain tr k = None -> read tr k = TimedOut ->
  attempt tr command data true k st
  = (Returns Next, set_connected false (after_connect st),
     connect_trace st
     ++ [Write packet; Drain; Read; Log WARNING LogTimeout]).
Proof.
  intros Hc Hp Hw Hd Hr.
  unfold after_connect, connect_trace.
  unfold_session. rewrite Hp, Hw, Hd, Hr.
  destruct (connected st) eqn:Ec.
  - cbn. reflexivity.
  - destruct Hc as [Hc|Hc]; [discriminate|]. rewrite Hc. cbn.
    reflexivity.
Qed.

(** An iteration that reads a response: a decoded one is returned; one
    that does not decode is logged and the iteration returns 'Command
    sent successfully'; so does an empty read. *)
Lemma attempt_reads tr command data k st packet response :
  (connected st = true \/ open_connection tr k = true) ->
  _create_mdc_packet (display_id st) command data = Returns packet ->
  write tr k = None -> drain tr k = None -> read tr k = Data response ->
  attempt tr command data true k st
  = match response with
    | [] =>
        (Returns (Return Sent), after_connect st,
         connect_trace st ++ [Write packet; Drain; Read])
    | _ :: _ =>
        match _parse_mdc_response (display_id st) response with
        | Returns (Failure err) =>
            (Returns (Return Sent),
             set_last_response_time (clock tr k) (after_connect st),
             connect_trace st
             ++ [Write packet; Drain; Read;
                 Log WARNING (LogCommandFailed err)])
        | Returns parsed =>
            (Returns (Return parsed),
             set_last_response_time (clock tr k) (after_connect st),
             connect_trace st ++ [Write packet; Drain; Read])
        | Raises e =>
            (Returns Next,
             after_except k
               (set_last_response_time (clock tr k) (after_connect st)),
             connect_trace st
             ++ [Write packet; Drain; Read;
                 Log ERROR (LogAttemptFailed (k + 1) e)]
             ++ delay_after k st)
        end
    end.
Proof.
  intros Hc Hp Hw Hd Hr.
  unfold after_except, after_connect, connect_trace, delay_after.
  unfold_session. rewrite Hp, Hw, Hd, Hr.
  destruct (connected st) eqn:Ec.
  - destruct response as [|b response]; [reflexivity|].
    cbn. destruct (_parse_mdc_response (display_id st) (b :: response))
      as [[| |err]|e]; cbn; try reflexivity.
    destruct (k <? max_retries st - 1)%nat; reflexivity.
  - destruct Hc as [Hc|Hc]; [discriminate|]. rewrite Hc.
    destruct response as [|b response]; [reflexivity|].
    cbn. destruct (_parse_mdc_response (display_id st) (b :: response))
      as [[| |err]|e]; cbn; try reflexivity.
    destruct (k <? max_retries st - 1)%nat; reflexivity.
Qed.

(** A loop none of whose iterations returns runs them all.  [I] is
    what the iterations keep of the session, [tl k] the delays of
    iteration [k]. *)
Lemma retry_loop_exhausts (body : nat -> M flow) (I : adapter -> Prop)
    (tl : nat -> list event) :
  (forall k st, I st ->
     exists st' t, body k st = (Returns Next, st', t)
                   /\ I st' /\ timeline t = tl k) ->
  forall ks st, I st ->
  exists st' t,
    retry_loop body ks st = (Returns None, st', t)
    /\ I st'
    /\ timeline t = flat_map (fun k => Attempt k :: tl k) ks.
Proof.
  intros Hbody. induction ks as [|k ks IH]; intros st Hst.
  - exists st, []. cbn. auto.
  - destruct (Hbody k st Hst) as (st1 & t1 & E1 & H1 & T1).
    destruct (IH st1 H1) as (st2 & t2 & E2 & H2 & T2).
    exists st2, (Attempt k :: t1 ++ t2).
    split; [|split; [exact H2|]].
    + cbn [retry_loop]. unfold bindM at 1 2. unfold emit.
      rewrite E1, E2. reflexivity.
    + change (Attempt k :: t1 ++ t2) with ([Attempt k] ++ t1 ++ t2).
      rewrite !timeline_app, T1, T2. reflexivity.
Qed.

(** The same loop, for a property of every event of the trace. *)
Lemma retry_loop_exhausts_Forall (body : nat -> M flow)
    (I : adapter -> Prop) (P : event -> Prop) :
  (forall k, P (Attempt k)) ->
  (forall k st, I st ->
     exists st' t, body k st = (Returns Next, st', t)
                   /\ I st' /\ Forall P t) ->
  forall ks st, I st ->
  exists st' t,
    retry_loop body ks st = (Returns None, st', t)
    /\ I st' /\ Forall P t.
Proof.
  intros HP Hbody. induction ks as [|k ks IH]; intros st Hst.
  - exists st, []. cbn. auto.
  - destruct (Hbody k st Hst) as (st1 & t1 & E1 & H1 & T1).
    destruct (IH st1 H1) as (st2 & t2 & E2 & H2 & T2).
    exists st2, (Attempt k :: t1 ++ t2).
    split; [|split; [exact H2|]].
    + cbn [retry_loop]. unfold bindM at 1 2. unfold emit.
      rewrite E1, E2. reflexivity.
    + constructor; [apply HP|]. apply Forall_app. split; assumption.
Qed.

(** After the loop: 'Failed after [max_retries] attempts'. *)
Lemma send_command_exhausted tr command data expect st st' t :
  retry_loop (attempt tr command data expect) (seq 0 (max_retries st)) st
  = (Returns None, st', t) ->
  send_command tr command data expect st
  = (Returns (Failure (FailedAfter (max_retries st'))), st', t).
Proof.
  intros E. unfold send_command, bindM, get, ret. rewrite E.
  cbn. rewrite app_nil_r. reflexivity.
Qed.

(** A loop whose first iteration returns. *)
Lemma send_command_first_returns tr command data expect st st' t r n :
  max_retries st = S n ->
  attempt tr command data expect 0 st = (Returns (Return r), st', t) ->
  send_command tr command data expect st = (Returns r, st', Attempt 0 :: t).
Proof.
  intros Hn E. unfold send_command. unfold bindM at 1. unfold get.
  rewrite Hn. cbn [seq retry_loop]. unfold bindM, emit, ret.
  rewrite E. cbn. rewrite !app_nil_r. reflexivity.
Qed.

(** A response that does not decode is not retried: the first
    iteration logs it and answers 'Command sent successfully'. *)
Lemma decode_failure_not_retried tr command data st packet response err n :
  max_retries st = S n ->
  (connected st = true \/ open_connection tr 0 = true) ->
  _create_mdc_packet (display_id st) command data = Returns packet ->
  write tr 0 = None -> drain tr 0 = None ->
  read tr 0 = Data response -> response <> [] ->
  _parse_mdc_response (display_id st) response = Returns (Failure err) ->
  send_command tr command data true st
  = (Returns Sent,
     set_last_response_time (clock tr 0) (after_connect st),
     Attempt 0 :: connect_trace st
     ++ [Write packet; Drain; Read; Log WARNING (LogCommandFailed err)]).
Proof.
  intros Hn Hc Hp Hw Hd Hr Hne Herr.
  apply (send_command_first_returns _ _ _ _ _ _ _ _ n Hn).
  rewrite (attempt_reads _ _ _ _ _ packet response Hc Hp Hw Hd Hr).
  destruct response as [|b response]; [contradiction|].
  rewrite Herr. reflexivity.
Qed.

(** Every iteration ends, by [return] of a success or by going on to the
    next one; it leaves [max_retries] alone; and it is followed by a
    delay, of one second, only when it went through the [except] block
    and is not the last. *)
Lemma attempt_shape tr command data expect k st :
  exists f st' t,
    attempt tr command data expect k st = (Returns f, st', t)
    /\ max_retries st' = max_retries st
    /\ match f with Return r => success r = true | Next => True end
    /\ (timeline t = []
        \/ (f = Next /\ timeline t = [Sleep 1]
            /\ (k < max_retries st - 1)%nat
            /\ exists e, In (Log ERROR (LogAttemptFailed (k + 1) e)) t)).
Proof.
  unfold_session. destruct st as [id conn lrt ec mr]. cbn.
  pose proof (proj1 (Nat.ltb_lt k (mr - 1))) as Hk.
  destruct conn; cbn;
    try destruct (open_connection tr k); cbn;
    try destruct (_create_mdc_packet id command data) as [packet|e0]; cbn;
    try destruct (write tr k); cbn;
    try destruct (drain tr k); cbn;
    try destruct expect; cbn;
    try destruct (read tr k) as [[|b response]| |e1]; cbn;
    try destruct (_parse_mdc_response id (b :: response))
      as [[cmd payload raw| |err]|e2]; cbn;
    try destruct (k <? mr - 1)%nat; cbn;
    do 3 eexists; (split; [reflexivity|]); (split; [reflexivity|]);
    (split; [exact I || reflexivity|]);
    first [ left; reflexivity
          | right; split; [reflexivity|]; split; [reflexivity|];
            split; [exact (Hk eq_refl)|]; eexists; cbn; tauto ].
Qed.

Lemma flat_map_ext_in {A B} (f g : A -> list B) (l : list A) :
  (forall a, In a l -> f a = g a) -> flat_map f l = flat_map g l.
Proof.
  induction l as [|a l IH]; intros Hfg; cbn; [reflexivity|].
  rewrite (Hfg a) by (now left). rewrite IH; [reflexivity|].
  intros b Hb. apply Hfg. now right.
Qed.

(** The loop over the iterations [a], ..., [a + n - 1]: it returns a
    success, or runs them all, each followed by a delay only as
    [attempt_shape] allows. *)
Lemma retry_loop_shape tr command data expect (m n : nat) :
  forall a st, max_retries st = m ->
  exists o st' t,
    retry_loop (attempt tr command data expect) (seq a n) st
    = (Returns o, st', t)
    /\ max_retries st' = m
    /\ match o with
       | Some r => success r = true
       | None =>
           exists delays : nat -> list event,
             timeline t = flat_map (fun k => Attempt k :: delays k) (seq a n)
             /\ forall k, delays k = []
                          \/ (delays k = [Sleep 1] /\ (k < m - 1)%nat)
       end.
Proof.
  induction n as [|n IH]; intros a st Hm.
  - exists None, st, []. split; [reflexivity|]. split; [exact Hm|].
    exists (fun _ => []). split; [reflexivity|]. intros k. now left.
  - destruct (attempt_shape tr command data expect a st)
      as (f & st1 & t1 & E1 & Hm1 & Hf & Ht1).
    cbn [seq retry_loop]. unfold bindM at 1 2. unfold emit. rewrite E1.
    destruct f as [r|].
    + exists (Some r), st1, (Attempt a :: t1 ++ []).
      split; [reflexivity|]. split; [congruence|]. exact Hf.
    + destruct (IH (S a) st1) as (o & st2 & t2 & E2 & Hm2 & Ho);
        [congruence|].
      rewrite E2. exists o, st2, (Attempt a :: t1 ++ t2).
      split; [reflexivity|]. split; [exact Hm2|].
      destruct o as [r|]; [exact Ho|].
      destruct Ho as (delays & Ht2 & Hd).
      exists (fun k => if (k =? a)%nat then timeline t1 else delays k).
      split.
      * change (Attempt a :: t1 ++ t2) with ([Attempt a] ++ t1 ++ t2).
        rewrite !timeline_app, Ht2. cbn [flat_map].
        rewrite Nat.eqb_refl. cbn. f_equal. f_equal.
        apply flat_map_ext_in. intros k Hk. apply in_seq in Hk.
        replace (k =? a)%nat with false
          by (symmetry; apply Nat.eqb_neq; lia).
        reflexivity.
      * intros k. destruct (k =? a)%nat eqn:Eka; [|apply Hd].
        apply Nat.eqb_eq in Eka. subst k.
        destruct Ht1 as [->|(_ & -> & Hlt & _)];
          [now left | right; split; [reflexivity | lia]].
Qed.

End SessionFacts.

Module SessionClaims.
Import Codec Session Notions PyFacts CodecFacts SessionFacts.
Local Open Scope session_scope.
#[local] Arguments Nat.ltb : simpl never.
#[local] Arguments Nat.sub : simpl never.

(** C3, counterexample.  The adapter is new, the
    connection cannot be opened and every stream call would raise:
    [send_command] answers 'Failed after 3 attempts' after three
    iterations, and no iteration is followed by a delay, because a
    failed [connect] leaves the iteration by [continue]. *)
Lemma dead_transport_no_delay :
  send_command Scripts.dead POWER [Byte.x01] true (new_adapter 1)
  = (Returns (Failure (FailedAfter 3)), new_adapter 1,
     [Attempt 0; OpenConnection; Log ERROR LogConnectFailed;
      Attempt 1; OpenConnection; Log ERROR LogConnectFailed;
      Attempt 2; OpenConnection; Log ERROR LogConnectFailed]).
Proof. vm_compute. reflexivity. Qed.

(** C3, as the code has it.  [send_command] always returns.  When it
    returns a failure, this is 'Failed after [max_retries] attempts',
    all [max_retries] iterations (three) have run, and an iteration is
    followed by nothing or by one delay of one second, the last
    iteration by nothing.  The delay belongs to the [except] block:
    (1) when the session is disconnected and the connection cannot be
    opened, no iteration is followed by a delay; (2) when the connection
    opens and every write raises, each iteration but the last is followed
    by one delay of one second; (3) when every read of an expected
    response times out, no iteration is followed by a delay. *)
Theorem retry_budget (tr : transport) (command : MDCCommand)
    (data : bytes) (st : adapter) :
  (forall expect,
     exists r st' trace,
       send_command tr command data expect st = (Returns r, st', trace)
       /\ (success r = false ->
           r = Failure (FailedAfter (max_retries st))
           /\ exists delays : nat -> list event,
                timeline trace
                = flat_map (fun k => Attempt k :: delays k)
                           (seq 0 (max_retries st))
                /\ forall k,
                     delays k = []
                     \/ (delays k = [Sleep 1]
                         /\ (k < max_retries st - 1)%nat)))
  /\ (forall expect,
     connected st = false ->
     (forall k, open_connection tr k = false) ->
     exists trace,
       send_command tr command data expect st
       = (Returns (Failure (FailedAfter (max_retries st))), st, trace)
       /\ timeline trace = map Attempt (seq 0 (max_retries st)))
  /\ (forall expect,
        (forall k, open_connection tr k = true) ->
        (forall k, write tr k <> None) ->
        exists st' trace,
          send_command tr command data expect st
          = (Returns (Failure (FailedAfter (max_retries st))), st', trace)
          /\ timeline trace
             = flat_map
                 (fun k => Attempt k ::
                           if (k <? max_retries st - 1)%nat
                           then [Sleep 1] else [])
                 (seq 0 (max_retries st)))
  /\ (forall packet,
        _create_mdc_packet (display_id st) command data = Returns packet ->
        (forall k, open_connection tr k = true) ->
        (forall k, write tr k = None) ->
        (forall k, drain tr k = None) ->
        (forall k, read tr k = TimedOut) ->
        exists st' trace,
          send_command tr command data true st
          = (Returns (Failure (FailedAfter (max_retries st))), st', trace)
          /\ timeline trace = map Attempt (seq 0 (max_retries st))).
Proof.
  split; [|split; [|split]].
  - intros expect.
    destruct (retry_loop_shape tr command data expect (max_retries st)
                (max_retries st) 0 st eq_refl)
      as (o & st' & t & E & Hm & Ho).
    unfold send_command, bindM, get, ret. rewrite E.
    destruct o as [r|]; cbn.
    + exists r, st', (t ++ []). split; [reflexivity|].
      intros Hr. congruence.
    + exists (Failure (FailedAfter (max_retries st'))), st', (t ++ []).
      split; [reflexivity|]. intros _. rewrite Hm.
      split; [reflexivity|]. rewrite app_nil_r. exact Ho.
  - intros expect Hc Ho.
    destruct (retry_loop_exhausts (attempt tr command data expect)
                (fun s => s = st) (fun _ => [])) with
      (ks := seq 0 (max_retries st)) (st := st)
      as (st' & t & E & -> & T); [|reflexivity|].
    + intros k s ->. exists st; eexists.
      split; [apply attempt_connect_fails; auto|]. split; reflexivity.
    + exists t. split; [apply send_command_exhausted; exact E|].
      rewrite T. apply flat_map_singleton.
  - intros expect Ho Hw.
    destruct (retry_loop_exhausts (attempt tr command data expect)
                (fun s => max_retries s = max_retries st
                          /\ display_id s = display_id st)
                (fun k => if (k <? max_retries st - 1)%nat
                          then [Sleep 1] else [])) with
      (ks := seq 0 (max_retries st)) (st := st)
      as (st' & t & E & [Hm _] & T); [|split; reflexivity|].
    + intros k s [Hm Hi].
      assert (Hinv : forall s0,
                max_retries (after_except k (after_connect s0))
                = max_retries s0
                /\ display_id (after_except k (after_connect s0))
                   = display_id s0).
      { intros s0. unfold after_except, after_connect.
        destruct (connected s0); split; reflexivity. }
      assert (Htl : forall pre,
                timeline (connect_trace s ++ pre ++ delay_after k s)
                = timeline pre
                  ++ (if (k <? max_retries st - 1)%nat
                      then [Sleep 1] else [])).
      { intros pre. rewrite !timeline_app.
        unfold connect_trace, delay_after. rewrite Hm.
        destruct (connected s);
          destruct (k <? max_retries st - 1)%nat; reflexivity. }
      destruct (_create_mdc_packet (display_id s) command data)
        as [packet|e] eqn:Ep.
      * destruct (write tr k) as [e|] eqn:Ew; [|elim (Hw k Ew)].
        exists (after_except k (after_connect s)); eexists.
        split; [apply (attempt_write_raises _ _ _ _ _ _ packet e);
                auto|].
        split; [destruct (Hinv s); split; congruence|].
        apply (Htl [Write packet; Log ERROR (LogAttemptFailed (k + 1) e)]).
      * exists (after_except k (after_connect s)); eexists.
        split; [apply (attempt_create_raises _ _ _ _ _ _ e); auto|].
        split; [destruct (Hinv s); split; congruence|].
        apply (Htl [Log ERROR (LogAttemptFailed (k + 1) e)]).
    + exists st', t. split; [|exact T].
      rewrite <- Hm. apply send_command_exhausted. exact E.
  - intros packet Hp Ho Hw Hd Hr.
    destruct (retry_loop_exhausts (attempt tr command data true)
                (fun s => max_retries s = max_retries st
                          /\ display_id s = display_id st)
                (fun _ => [])) with
      (ks := seq 0 (max_retries st)) (st := st)
      as (st' & t & E & [Hm _] & T); [|split; reflexivity|].
    + intros k s [Hm Hi].
      exists (set_connected false (after_connect s)); eexists.
      split; [apply (attempt_times_out _ _ _ _ _ packet); auto;
              rewrite Hi; exact Hp|].
      split.
      * unfold after_connect. destruct (connected s); split; assumption.
      * rewrite timeline_app. unfold connect_trace.
        destruct (connected s); reflexivity.
    + exists st', t. split.
      * rewrite <- Hm. apply send_command_exhausted. exact E.
      * rewrite T. apply flat_map_singleton.
Qed.

Lemma retry_budget_witness :
  (exists trace,
      send_command Scripts.dead POWER [Byte.x01] true (new_adapter 1)
      = (Returns (Failure (FailedAfter 3)), new_adapter 1, trace)
      /\ timeline trace = [Attempt 0; Attempt 1; Attempt 2])
  /\ (exists st' trace,
        send_command Scripts.broken_pipe POWER [Byte.x01] true
                     (new_adapter 1)
        = (Returns (Failure (FailedAfter 3)), st', trace)
        /\ timeline trace
           = [Attempt 0; Sleep 1; Attempt 1; Sleep 1; Attempt 2])
  /\ (exists st' trace,
        send_command Scripts.silent POWER [Byte.x01] true (new_adapter 1)
        = (Returns (Failure (FailedAfter 3)), st', trace)
        /\ timeline trace = [Attempt 0; Attempt 1; Attempt 2]).
Proof.
  split; [|split].
  - apply (proj1 (proj2 (retry_budget Scripts.dead POWER [Byte.x01]
                                      (new_adapter 1))) true);
      [reflexivity | intros k; reflexivity].
  - apply (proj1 (proj2 (proj2 (retry_budget Scripts.broken_pipe POWER
                                             [Byte.x01] (new_adapter 1))))
                 true);
      [intros k; reflexivity | intros k; discriminate].
  - apply (proj2 (proj2 (proj2 (retry_budget Scripts.silent POWER
                                             [Byte.x01] (new_adapter 1))))
                 [Byte.xaa; Byte.x11; Byte.x01; Byte.x01; Byte.x01;
                  Byte.xbe]);
      [reflexivity | intros k; reflexivity ..].
Defined.

(** C4, on the code.  The peer answers a POWER command with a frame
    whose checksum byte is wrong.  [send_command], expecting a response,
    reads it, logs 'Command failed: Checksum mismatch' and then
    returns 'Command sent successfully' from the first iteration: the
    failure is neither retried nor reported. *)
Theorem undecodable_response_reported_sent :
  send_command
    (Scripts.answering [Byte.xaa; Byte.x11; Byte.x01; Byte.x00; Byte.x00] 7)
    POWER [Byte.x01] true (new_adapter 1)
  = (Returns Sent,
     mkAdapter 1 true (Some 7) 0 3,
     [Attempt 0; OpenConnection; Log INFO LogConnected;
      Write [Byte.xaa; Byte.x11; Byte.x01; Byte.x01; Byte.x01; Byte.xbe];
      Drain; Read; Log WARNING (LogCommandFailed ChecksumMismatch)]).
Proof. vm_compute. reflexivity. Qed.

(** C5, as the code has it.  For a payload of more than 255 bytes
    [_create_mdc_packet] builds no frame: packing the length field
    raises [struct.error], which leaves the function.  [send_command]
    catches it in every iteration, writes nothing to the connection and
    answers 'Failed after [max_retries] attempts'. *)
Theorem oversized_payload_fails (display_id : Z) (command : MDCCommand)
    (data : bytes) :
  (255 < length data)%nat ->
  _create_mdc_packet display_id command data = Raises StructError
  /\ forall tr expect st,
       exists st' trace,
         send_command tr command data expect st
         = (Returns (Failure (FailedAfter (max_retries st))), st', trace)
         /\ forall packet, ~ In (Write packet) trace.
Proof.
  intros Hlen.
  assert (Hraise : forall id,
            _create_mdc_packet id command data = Raises StructError)
    by (intros id; apply create_raises; lia).
  split; [apply Hraise|].
  intros tr expect st.
  destruct (retry_loop_exhausts_Forall (attempt tr command data expect)
              (fun s => max_retries s = max_retries st)
              (fun e => forall packet, e <> Write packet)) with
    (ks := seq 0 (max_retries st)) (st := st)
    as (st' & t & E & Hm & T); [discriminate| |reflexivity|].
  - intros k s Hm.
    destruct (connected s) eqn:Ec;
      [|destruct (open_connection tr k) eqn:Eo].
    + exists (after_except k (after_connect s)); eexists.
      split; [apply (attempt_create_raises _ _ _ _ _ _ StructError);
              auto|].
      split; [unfold after_except, after_connect; rewrite Ec; exact Hm|].
      unfold connect_trace, delay_after. rewrite Ec.
      destruct (k <? max_retries s - 1)%nat;
        repeat constructor; discriminate.
    + exists (after_except k (after_connect s)); eexists.
      split; [apply (attempt_create_raises _ _ _ _ _ _ StructError);
              auto|].
      split; [unfold after_except, after_connect; rewrite Ec; exact Hm|].
      unfold connect_trace, delay_after. rewrite Ec.
      destruct (k <? max_retries s - 1)%nat;
        repeat constructor; discriminate.
    + exists s; eexists.
      split; [apply attempt_connect_fails; assumption|].
      split; [exact Hm|]. repeat constructor; discriminate.
  - exists st', t. split.
    + rewrite <- Hm. apply send_command_exhausted. exact E.
    + intros packet Hin. rewrite Forall_forall in T.
      exact (T _ Hin packet eq_refl).
Qed.

Lemma oversized_payload_fails_witness :
  (255 < length (repeat Byte.x00 256))%nat
  /\ _create_mdc_packet 1 POWER (repeat Byte.x00 256) = Raises StructError
  /\ exists st' trace,
       send_command (Scripts.answering [] 0) POWER (repeat Byte.x00 256)
                    true (new_adapter 1)
       = (Returns (Failure (FailedAfter 3)), st', trace)
       /\ forall packet, ~ In (Write packet) trace.
Proof.
  assert (Hlen : (255 < length (repeat Byte.x00 256))%nat)
    by (rewrite repeat_length; lia).
  split; [exact Hlen|].
  destruct (oversized_payload_fails 1 POWER (repeat Byte.x00 256) Hlen)
    as [Hc Hs].
  split; [exact Hc|].
  exact (Hs (Scripts.answering [] 0) true (new_adapter 1)).
Defined.

(** C6.  Validation comes before any I/O.  [set_volume] with a volume
    outside 0..100 answers 'Volume must be between 0-100', leaves the
    adapter as it was and makes no call at all; with a volume in
    0..100, 0 and 100 included, it is [send_command] of VOLUME with
    that one byte.  [set_video_wall_mode] with a monitor count outside
    1..15 or a position outside the grid answers with a range error,
    leaves the adapter as it was and makes no call at all; otherwise it
    is [send_command] of VIDEO_WALL_MODE with its five bytes. *)
Theorem validation_short_circuit (tr : transport) (st : adapter) :
  (forall volume,
      ~ 0 <= volume <= 100 ->
      set_volume tr volume st = (Returns (Failure VolumeRange), st, []))
  /\ (forall volume,
        0 <= volume <= 100 ->
        exists b,
          byte_val b = volume
          /\ set_volume tr volume st = send_command tr VOLUME [b] true st)
  /\ (forall enabled h_monitors v_monitors h_position v_position,
        ~ (1 <= h_monitors <= 15 /\ 1 <= v_monitors <= 15
           /\ 1 <= h_position <= h_monitors
           /\ 1 <= v_position <= v_monitors) ->
        exists err,
          out_of_range err = true
          /\ set_video_wall_mode tr enabled h_monitors v_monitors
                                 h_position v_position st
             = (Returns (Failure err), st, []))
  /\ (forall enabled h_monitors v_monitors h_position v_position,
        1 <= h_monitors <= 15 -> 1 <= v_monitors <= 15 ->
        1 <= h_position <= h_monitors ->
        1 <= v_position <= v_monitors ->
        exists data,
          map byte_val data
          = [if enabled : bool then 1 else 0; h_monitors; v_monitors;
             h_position; v_position]
          /\ set_video_wall_mode tr enabled h_monitors v_monitors
                                 h_position v_position st
             = send_command tr VIDEO_WALL_MODE data true st).
Proof.
  split; [|split; [|split]].
  - intros volume Hv. unfold set_volume.
    replace ((0 <=? volume) && (volume <=? 100)) with false;
      [reflexivity|].
    symmetry. apply andb_false_iff.
    destruct (Z_le_dec 0 volume);
      [right; apply Z.leb_gt; lia | left; apply Z.leb_gt; lia].
  - intros volume Hv. unfold set_volume.
    replace ((0 <=? volume) && (volume <=? 100)) with true
      by (symmetry; apply andb_true_iff; split; apply Z.leb_le; lia).
    destruct (bytes_of_int_returns volume) as (b & E & Vb); [lia|].
    exists b. split; [exact Vb|].
    cbn [negb]. rewrite E.
    exact (bindM_lift_returns [b]
             (fun data => send_command tr VOLUME data true) st).
  - intros enabled h v hp vp Hbad. unfold set_video_wall_mode.
    destruct (negb ((1 <=? h) && (h <=? 15))
              || negb ((1 <=? v) && (v <=? 15))) eqn:E1.
    + exists MonitorCountRange. repeat split.
    + destruct (negb ((1 <=? hp) && (hp <=? h))
                || negb ((1 <=? vp) && (vp <=? v))) eqn:E2.
      * exists PositionOutsideGrid. repeat split.
      * exfalso. apply Hbad.
        apply orb_false_iff in E1, E2.
        destruct E1 as [A B], E2 as [C D].
        apply negb_false_iff, andb_true_iff in A, B, C, D.
        rewrite !Z.leb_le in A, B, C, D. lia.
  - intros enabled h v hp vp Hh Hv Hhp Hvp. unfold set_video_wall_mode.
    replace (negb ((1 <=? h) && (h <=? 15))
             || negb ((1 <=? v) && (v <=? 15))) with false.
    2:{ symmetry. apply orb_false_iff.
        split; apply negb_false_iff, andb_true_iff;
          split; apply Z.leb_le; lia. }
    replace (negb ((1 <=? hp) && (hp <=? h))
             || negb ((1 <=? vp) && (vp <=? v))) with false.
    2:{ symmetry. apply orb_false_iff.
        split; apply negb_false_iff, andb_true_iff;
          split; apply Z.leb_le; lia. }
    destruct (pack_B_returns (if enabled then 1 else 0))
      as (b0 & E0 & V0); [destruct enabled; lia|].
    destruct (pack_B_returns h) as (b1 & E1 & V1); [lia|].
    destruct (pack_B_returns v) as (b2 & E2 & V2); [lia|].
    destruct (pack_B_returns hp) as (b3 & E3 & V3); [lia|].
    destruct (pack_B_returns vp) as (b4 & E4 & V4); [lia|].
    exists [b0; b1; b2; b3; b4]. split.
    + cbn [map]. rewrite V0, V1, V2, V3, V4. reflexivity.
    + cbn [struct_pack]. rewrite E0, E1, E2, E3, E4. cbn [bind].
      exact (bindM_lift_returns [b0; b1; b2; b3; b4]
               (fun data => send_command tr VIDEO_WALL_MODE data true) st).
Qed.

Lemma validation_short_circuit_witness :
  set_volume Scripts.dead (-1) (new_adapter 1)
  = (Returns (Failure VolumeRange), new_adapter 1, [])
  /\ set_volume Scripts.dead 101 (new_adapter 1)
     = (Returns (Failure VolumeRange), new_adapter 1, [])
  /\ (exists b, byte_val b = 0
                /\ set_volume Scripts.dead 0 (new_adapter 1)
                   = send_command Scripts.dead VOLUME [b] true
                                  (new_adapter 1))
  /\ (exists b, byte_val b = 100
                /\ set_volume Scripts.dead 100 (new_adapter 1)
                   = send_command Scripts.dead VOLUME [b] true
                                  (new_adapter 1))
  /\ (exists err,
        out_of_range err = true
        /\ set_video_wall_mode Scripts.dead true 16 1 1 1 (new_adapter 1)
           = (Returns (Failure err), new_adapter 1, []))
  /\ (exists err,
        out_of_range err = true
        /\ set_video_wall_mode Scripts.dead true 2 2 3 1 (new_adapter 1)
           = (Returns (Failure err), new_adapter 1, [])).
Proof.
  destruct (validation_short_circuit Scripts.dead (new_adapter 1))
    as (Hlow & Hin & Hwall & _).
  split; [apply Hlow; lia|].
  split; [apply Hlow; lia|].
  split; [apply Hin; lia|].
  split; [apply Hin; lia|].
  split; [apply Hwall; lia|].
  apply Hwall; lia.
Defined.

End SessionClaims.

(** ** The alert store *)

Module AlertFacts.
Import MonitoringDashboard Notions PyFacts.

Lemma last_n_app_single {A} (n : nat) (l : list A) (x : A) :
  last_n (S n) (l ++ [x]) = last_n n l ++ [x].
Proof.
  unfold last_n. rewrite length_app. cbn [length].
  replace (length l + 1 - S n)%nat with (length l - n)%nat by lia.
  rewrite skipn_app.
  replace (length l - n - length l)%nat with 0%nat by lia.
  reflexivity.
Qed.

Lemma last_n_last_n {A} (m n : nat) (l : list A) :
  (m <= n)%nat -> last_n m (last_n n l) = last_n m l.
Proof.
  intros Hmn. unfold last_n. rewrite skipn_skipn, length_skipn.
  f_equal. lia.
Qed.

Lemma In_last_n {A} (n : nat) (l : list A) (x : A) :
  In x (last_n n l) -> In x l.
Proof.
  unfold last_n. intros Hin.
  rewrite <- (firstn_skipn (length l - n) l). apply in_or_app. now right.
Qed.

(** [alerts[-100:]] when the store has grown past 100, the store itself
    otherwise: in both cases its last 100 entries. *)
Lemma cap_last_n (alerts : list alert) :
  (if len alerts >? 100 then last_n 100 alerts else alerts)
  = last_n 100 alerts.
Proof.
  destruct (len alerts >? 100) eqn:E; [reflexivity|].
  rewrite Z.gtb_ltb in E. apply Z.ltb_ge in E.
  symmetry. apply last_n_all. unfold len in E. lia.
Qed.

Lemma ForallOrdPairs_snoc {A} (R : A -> A -> Prop) (l : list A) (x : A) :
  ForallOrdPairs R l -> Forall (fun a => R a x) l ->
  ForallOrdPairs R (l ++ [x]).
Proof.
  induction 1 as [|a l Ha Hl IH]; intros Hx; cbn.
  - repeat constructor.
  - inversion Hx; subst. constructor.
    + apply Forall_app. split; [assumption|]. now constructor.
    + now apply IH.
Qed.

Lemma ForallOrdPairs_skipn {A} (R : A -> A -> Prop) (n : nat)
    (l : list A) :
  ForallOrdPairs R l -> ForallOrdPairs R (skipn n l).
Proof.
  revert l. induction n as [|n IH]; intros l Hl; [exact Hl|].
  destruct Hl; cbn; [constructor|]. now apply IH.
Qed.

Section WithHash.
Variable hash : string -> Z.

(** One call: the store is left alone, or the alert goes last and the
    last 100 entries are kept. *)
Lemma add_alert_cases (now : clock_reads) (level message : string)
    (alerts : list alert) :
  let alert :=
    mkAlert level message (at_timestamp now)
            (mkAlertId level (hash message) (at_id now)) in
  (_add_alert hash now level message alerts = alerts
   /\ exists a, In a alerts
                /\ MonitoringDashboard.message a = message
                /\ at_cutoff now - 300 < timestamp a)
  \/ (_add_alert hash now level message alerts
      = last_n 100 (alerts ++ [alert])
      /\ forall a, In a alerts ->
                   MonitoringDashboard.message a = message ->
                   timestamp a <= at_cutoff now - 300).
Proof.
  intros alert. unfold _add_alert.
  destruct (filter _ alerts) as [|a rest] eqn:E.
  - right. split; [apply cap_last_n|].
    intros a Hin Hmsg.
    destruct (Z_le_dec (timestamp a) (at_cutoff now - 300)) as [|Hgt];
      [assumption|].
    assert (Hf : In a []).
    { rewrite <- E. apply filter_In. split; [exact Hin|].
      apply andb_true_iff. split.
      - rewrite Z.gtb_ltb. apply Z.ltb_lt. lia.
      - apply String.eqb_eq. exact Hmsg. }
    destruct Hf.
  - left. split; [reflexivity|]. exists a.
    assert (Hf : In a (a :: rest)) by now left.
    rewrite <- E in Hf. apply filter_In in Hf.
    destruct Hf as [Hin Hc]. apply andb_true_iff in Hc.
    destruct Hc as [Ht Hm]. rewrite Z.gtb_ltb in Ht.
    apply Z.ltb_lt in Ht. apply String.eqb_eq in Hm. auto.
Qed.

Lemma add_alerts_snoc (calls : list call) (c : call)
    (alerts : list alert) :
  add_alerts hash (calls ++ [c]) alerts
  = _add_alert hash (now c) (call_level c) (call_message c)
               (add_alerts hash calls alerts).
Proof. unfold add_alerts. rewrite fold_left_app. reflexivity. Qed.

(** The store never holds more than 100 alerts, if it did not
    before. *)
Lemma add_alert_length (now : clock_reads) (level message : string)
    (alerts : list alert) :
  (length alerts <= 100)%nat ->
  (length (_add_alert hash now level message alerts) <= 100)%nat.
Proof.
  intros Hl.
  destruct (add_alert_cases now level message alerts)
    as [[-> _]|[-> _]]; [exact Hl|].
  rewrite last_n_length. lia.
Qed.

(** When the cutoff of every call is read no later than its
    timestamp, in particular when a call reads the clock as one
    instant, alerts of the same message are stored at least 300
    seconds apart. *)
Lemma dedup_invariant (calls : list call) (alerts : list alert) :
  Forall (fun c => at_cutoff (now c) <= at_timestamp (now c)) calls ->
  ForallOrdPairs apart alerts ->
  ForallOrdPairs apart (add_alerts hash calls alerts).
Proof.
  induction calls as [|c calls IH] using rev_ind; intros Hc Ha;
    [exact Ha|].
  apply Forall_app in Hc. destruct Hc as [Hcs Hc].
  inversion Hc as [|? ? Hsteady _]; subst.
  rewrite add_alerts_snoc.
  specialize (IH Hcs Ha).
  destruct (add_alert_cases (now c) (call_level c) (call_message c)
                            (add_alerts hash calls alerts))
    as [[-> _]|[-> Hold]]; [exact IH|].
  apply ForallOrdPairs_skipn. apply ForallOrdPairs_snoc; [exact IH|].
  apply Forall_forall. intros a Hin Hmsg. cbn in *.
  specialize (Hold a Hin Hmsg). lia.
Qed.

(** Two calls with the same message less than 300 seconds apart leave
    one alert; a third call 300 seconds or more after the first adds a
    second one. *)
Lemma dedup_window (level message : string) (t1 t2 t3 : Z) :
  t1 <= t2 < t1 + 300 -> t1 + 300 <= t3 ->
  let first := mkAlert level message t1
                       (mkAlertId level (hash message) t1) in
  let third := mkAlert level message t3
                       (mkAlertId level (hash message) t3) in
  add_alerts hash [mkCall (at_instant t1) level message;
                   mkCall (at_instant t2) level message] []
  = [first]
  /\ add_alerts hash [mkCall (at_instant t1) level message;
                      mkCall (at_instant t2) level message;
                      mkCall (at_instant t3) level message] []
     = [first; third].
Proof.
  intros H12 H13 first third.
  assert (E2 : add_alerts hash [mkCall (at_instant t1) level message;
                                mkCall (at_instant t2) level message] []
               = [first]).
  { cbn. unfold _add_alert at 1. cbn. rewrite String.eqb_refl.
    replace (t1 >? t2 - 300) with true
      by (symmetry; rewrite Z.gtb_ltb; apply Z.ltb_lt; lia).
    reflexivity. }
  split; [exact E2|].
  change [mkCall (at_instant t1) level message;
          mkCall (at_instant t2) level message;
          mkCall (at_instant t3) level message]
    with ([mkCall (at_instant t1) level message;
           mkCall (at_instant t2) level message]
          ++ [mkCall (at_instant t3) level message]).
  rewrite add_alerts_snoc, E2. unfold _add_alert. cbn.
  rewrite String.eqb_refl.
  replace (t1 >? t3 - 300) with false
    by (symmetry; rewrite Z.gtb_ltb; apply Z.ltb_ge; lia).
  reflexivity.
Qed.

End WithHash.

End AlertFacts.

Module AlertClaims.
Import MonitoringDashboard Notions PyFacts AlertFacts.

(** C7, on the code.  [_add_alert] stamps the alert with one reading of
    the clock and takes the cutoff from a later one.  A first alert is
    stored at second 0; a second call with the same message reads 299
    for the timestamp and 300 for the cutoff: the stored alert is no
    longer newer than the cutoff, and the store ends with two alerts of
    the same message 299 seconds apart. *)
Theorem duplicate_stored_across_readings (hash : string -> Z) :
  let store :=
    add_alerts hash
      [mkCall (at_instant 0) "warning" "X";
       mkCall (mkReads 299 299 300) "warning" "X"] [] in
  store
  = [mkAlert "warning" "X" 0 (mkAlertId "warning" (hash "X"%string) 0);
     mkAlert "warning" "X" 299
             (mkAlertId "warning" (hash "X"%string) 299)]
  /\ ~ ForallOrdPairs apart store.
Proof.
  intros store.
  assert (E : store
              = [mkAlert "warning" "X" 0
                         (mkAlertId "warning" (hash "X"%string) 0);
                 mkAlert "warning" "X" 299
                         (mkAlertId "warning" (hash "X"%string) 299)])
    by reflexivity.
  split; [exact E|].
  rewrite E. intros Hpairs.
  inversion Hpairs as [|a l Hfirst _]; subst.
  inversion Hfirst as [|b l' Hab _]; subst.
  unfold apart in Hab. cbn in Hab. specialize (Hab eq_refl). lia.
Qed.

(** C8.  From an empty store, after any sequence of [_add_alert] calls
    the store holds at most 100 alerts.  A call either leaves the store
    as it is or puts its alert last and keeps the last 100 entries:
    what goes is the front of the list, whatever the levels.  When the
    messages of the calls are pairwise distinct the store is the last
    100 alerts of the sequence in call order; after 150 such calls it
    has exactly 100 entries, the alerts of calls 51 to 150. *)
Theorem alert_cap (hash : string -> Z) (calls : list call) :
  let store := add_alerts hash calls [] in
  (length store <= 100)%nat
  /\ (forall now level message alerts,
        _add_alert hash now level message alerts = alerts
        \/ _add_alert hash now level message alerts
           = last_n 100
               (alerts ++ [mkAlert level message (at_timestamp now)
                             (mkAlertId level (hash message) (at_id now))]))
  /\ (NoDup (map call_message calls) ->
      store = last_n 100 (map (alert_of hash) calls))
  /\ (NoDup (map call_message calls) -> length calls = 150%nat ->
      length store = 100%nat
      /\ store = skipn 50 (map (alert_of hash) calls)).
Proof.
  intros store.
  assert (Hlen : (length store <= 100)%nat).
  { unfold store. induction calls as [|c calls IH] using rev_ind;
      [cbn; lia|].
    rewrite add_alerts_snoc. apply add_alert_length. exact IH. }
  assert (Hstep : forall now level message alerts,
    _add_alert hash now level message alerts = alerts
    \/ _add_alert hash now level message alerts
       = last_n 100
           (alerts ++ [mkAlert level message (at_timestamp now)
                         (mkAlertId level (hash message) (at_id now))])).
  { intros now level message alerts.
    destruct (add_alert_cases hash now level message alerts)
      as [[E _]|[E _]]; [left|right]; exact E. }
  assert (Hdistinct : NoDup (map call_message calls) ->
                      store = last_n 100 (map (alert_of hash) calls)).
  { unfold store. clear store Hlen.
    induction calls as [|c calls IH] using rev_ind; intros Hnd;
      [reflexivity|].
    rewrite map_app in Hnd. cbn [map] in Hnd.
    apply NoDup_remove in Hnd. rewrite app_nil_r in Hnd.
    destruct Hnd as [Hnd Hnew].
    rewrite add_alerts_snoc, (IH Hnd), map_app. cbn [map].
    destruct (add_alert_cases hash (now c) (call_level c) (call_message c)
                (last_n 100 (map (alert_of hash) calls)))
      as [[_ (a & Hin & Hmsg & _)]|[-> _]].
    - exfalso. apply Hnew. apply In_last_n in Hin.
      apply in_map_iff in Hin. destruct Hin as (c' & <- & Hc').
      rewrite <- Hmsg. cbn. apply in_map. exact Hc'.
    - fold (alert_of hash c).
      rewrite !(last_n_app_single 99), last_n_last_n by lia.
      reflexivity. }
  split; [exact Hlen|]. split; [exact Hstep|].
  split; [exact Hdistinct|].
  intros Hnd H150. rewrite (Hdistinct Hnd). split.
  - rewrite last_n_length, length_map. lia.
  - unfold last_n. rewrite length_map, H150. reflexivity.
Qed.

Lemma alert_cap_witness :
  NoDup (map call_message (distinct_calls 150))
  /\ length (distinct_calls 150) = 150%nat
  /\ length (add_alerts (fun _ => 0) (distinct_calls 150) []) = 100%nat
  /\ add_alerts (fun _ => 0) (distinct_calls 150) []
     = skipn 50 (map (alert_of (fun _ => 0)) (distinct_calls 150)).
Proof.
  assert (Hnd : NoDup (map call_message (distinct_calls 150))).
  { unfold distinct_calls. rewrite map_map. cbn [call_message].
    apply NoDup_map_NoDup_ForallPairs; [|apply seq_NoDup].
    intros a b Ha Hb E. apply in_seq in Ha, Hb.
    injection E as E.
    rewrite <- (nat_ascii_embedding a), <- (nat_ascii_embedding b)
      by (unfold lt; lia).
    rewrite E. reflexivity. }
  assert (Hl : length (distinct_calls 150) = 150%nat)
    by (unfold distinct_calls; rewrite length_map, length_seq;
        reflexivity).
  split; [exact Hnd|]. split; [exact Hl|].
  exact (proj2 (proj2 (proj2 (alert_cap (fun _ => 0) (distinct_calls 150))))
               Hnd Hl).
Defined.

End AlertClaims.

(** ** Dictionaries *)

Module DictFacts.
Import Dict.

Section Facts.
Context {K V : Type} `{Hashable K}.

Lemma key_eqb_refl (k : K) : key_eqb k k = true.
Proof. apply key_eqb_eq. reflexivity. Qed.

Lemma key_eqb_neq (a b : K) : a <> b -> key_eqb a b = false.
Proof.
  intros Hab. destruct (key_eqb a b) eqn:E; [|reflexivity].
  apply key_eqb_eq in E. contradiction.
Qed.

(** A new key goes last. *)
Lemma set_fresh (d : dict K V) (k : K) (v : V) :
  ~ In k (keys d) -> set d k v = d ++ [(k, v)].
Proof.
  induction d as [|[k' v'] d IH]; intros Hk; [reflexivity|].
  cbn in *. rewrite key_eqb_neq by tauto. rewrite IH by tauto.
  reflexivity.
Qed.

(** With distinct keys, the entry at any place is the one [get]
    finds. *)
Lemma get_nth (d : dict K V) (i : nat) (k : K) (v : V) :
  NoDup (keys d) -> nth_error d i = Some (k, v) -> get d k = Some v.
Proof.
  revert i. induction d as [|[k' v'] d IH]; intros i Hnd Hi.
  - destruct i; discriminate.
  - cbn in Hnd. inversion Hnd as [|? ? Hnotin Hnd']; subst.
    destruct i as [|i]; cbn in Hi.
    + injection Hi as -> ->. cbn. rewrite key_eqb_refl. reflexivity.
    + cbn. rewrite key_eqb_neq; [exact (IH i Hnd' Hi)|].
      intros ->. apply Hnotin.
      apply nth_error_In in Hi. apply (in_map fst) in Hi. exact Hi.
Qed.

Lemma get_In (d : dict K V) (k : K) (v : V) :
  get d k = Some v -> In (k, v) d.
Proof.
  induction d as [|[k' v'] d IH]; [discriminate|]. cbn.
  destruct (key_eqb k' k) eqn:E.
  - apply key_eqb_eq in E. intros [= ->]. left. congruence.
  - intros Hg. right. exact (IH Hg).
Qed.

(** A loop that sets one entry for each element of [l] that passes
    [p], all under new and distinct keys, appends them in order. *)
Lemma fold_set_fresh {X} (key : X -> K) (val : X -> V) (p : X -> bool)
    (l : list X) (acc : dict K V) :
  NoDup (keys acc ++ map key (filter p l)) ->
  fold_left (fun d x => if p x then set d (key x) (val x) else d) l acc
  = acc ++ map (fun x => (key x, val x)) (filter p l).
Proof.
  revert acc. induction l as [|x l IH]; intros acc Hnd;
    cbn [fold_left filter] in *.
  - symmetry. apply app_nil_r.
  - destruct (p x) eqn:Ep.
    + cbn [map] in *. pose proof (NoDup_remove_2 _ _ _ Hnd) as Hx.
      rewrite set_fresh by (intros Hin; apply Hx, in_or_app; now left).
      rewrite IH.
      * rewrite <- app_assoc. reflexivity.
      * unfold keys. rewrite map_app. cbn. rewrite <- app_assoc.
        exact Hnd.
    + apply IH. exact Hnd.
Qed.

End Facts.

Lemma fold_left_ext {A B} (f g : A -> B -> A) (l : list B) (a : A) :
  (forall a b, f a b = g a b) -> fold_left f l a = fold_left g l a.
Proof.
  intros Hfg. revert a. induction l as [|b l IH]; intros a; cbn;
    [reflexivity|].
  rewrite Hfg. apply IH.
Qed.

End DictFacts.

(** ** The layout planner *)

Module LayoutFacts.
Import Dict VideoWallLayoutManager Notions DictFacts.
Local Open Scope nat_scope.

Lemma str_x_free (n : nat) : x_free (str n).
Proof.
  unfold str. induction (Nat.to_uint n); cbn; auto;
    split; try assumption; discriminate.
Qed.

Lemma str_inj (n m : nat) : str n = str m -> n = m.
Proof.
  unfold str. intros E. apply Unsigned.to_uint_inj.
  pose proof (NilEmpty.usu (Nat.to_uint n)) as Hn.
  pose proof (NilEmpty.usu (Nat.to_uint m)) as Hm.
  rewrite E in Hn. congruence.
Qed.

(** The part before the first x determines a name. *)
Lemma app_x_inj (s1 s2 t1 t2 : string) :
  x_free s1 -> x_free s2 ->
  (s1 ++ "x" ++ t1 = s2 ++ "x" ++ t2)%string -> s1 = s2.
Proof.
  revert s2. induction s1 as [|c s1 IH]; intros [|c2 s2] H1 H2 E; cbn in *.
  - reflexivity.
  - injection E as E _. destruct H2 as [H2 _]. congruence.
  - injection E as E _. destruct H1 as [H1 _]. congruence.
  - injection E as -> E. f_equal. apply (IH s2); tauto.
Qed.

Lemma layout_name_inj (h v h' v' : nat) :
  layout_name h v = layout_name h' v' -> h = h'.
Proof.
  unfold layout_name. intros E. apply str_inj.
  apply (app_x_inj _ _ _ _ (str_x_free h) (str_x_free h') E).
Qed.

Lemma enumerate_nth {A} (l : list A) (i : nat) (a : A) :
  nth_error l i = Some a -> nth_error (enumerate l) i = Some (i, a).
Proof.
  intros Hi. unfold enumerate.
  assert (Hlt : i < length l) by (apply nth_error_Some; congruence).
  rewrite (nth_error_nth' _ (0, a)) by (rewrite length_combine, length_seq; lia).
  rewrite (combine_nth _ _ i 0 a) by apply length_seq.
  rewrite seq_nth by lia. f_equal. f_equal.
  apply nth_error_nth. exact Hi.
Qed.

Lemma map_snd_enumerate {A} (l : list A) : map snd (enumerate l) = l.
Proof.
  unfold enumerate. generalize 0.
  induction l as [|a l IH]; intros s; cbn; [reflexivity|].
  rewrite IH. reflexivity.
Qed.

Section Planner.
Context {K C : Type} `{Hashable K}.
Variable displays : dict K C.
Hypothesis displays_keys : NoDup (keys displays).

(** The mapping is the enumeration of the first [h * v] display ids,
    each with its cell. *)
Lemma mapping_entries (h_count v_count : nat) :
  _create_display_mapping displays h_count v_count
  = map (fun x => (snd x, cell h_count (fst x)))
        (enumerate (firstn (h_count * v_count) (keys displays))).
Proof.
  unfold _create_display_mapping.
  rewrite (fold_left_ext _
             (fun d x => if (fun _ => true) x
                         then set d (snd x) (cell h_count (fst x))
                         else d))
    by (intros a [i k]; reflexivity).
  rewrite (fold_set_fresh snd (fun x => cell h_count (fst x))
                          (fun _ => true)).
  - cbn [app]. f_equal. clear. induction (enumerate _); cbn; congruence.
  - cbn [keys map app].
    replace (filter (fun _ => true) (enumerate _))
      with (enumerate (firstn (h_count * v_count) (keys displays)))
      by (clear; induction (enumerate _); cbn; congruence).
    rewrite map_snd_enumerate.
    rewrite <- (firstn_skipn (h_count * v_count) (keys displays))
      in displays_keys.
    apply NoDup_app_remove_r in displays_keys. exact displays_keys.
Qed.

Lemma mapping_keys (h_count v_count : nat) :
  keys (_create_display_mapping displays h_count v_count)
  = firstn (h_count * v_count) (keys displays).
Proof.
  rewrite mapping_entries. unfold keys. rewrite map_map. cbn [fst].
  apply map_snd_enumerate.
Qed.

(** The [i]-th display of a full grid. *)
Lemma mapping_get (h_count v_count i : nat) (k : K) :
  h_count * v_count = length displays ->
  nth_error (keys displays) i = Some k ->
  get (_create_display_mapping displays h_count v_count) k
  = Some (cell h_count i).
Proof.
  intros Hfull Hi.
  apply (get_nth _ i).
  - rewrite mapping_keys, Hfull.
    unfold keys at 1. rewrite firstn_all2 by (unfold keys; rewrite length_map; lia).
    exact displays_keys.
  - rewrite mapping_entries, Hfull.
    rewrite firstn_all2 by (unfold keys; rewrite length_map; lia).
    rewrite nth_error_map, (enumerate_nth _ _ _ Hi). reflexivity.
Qed.

(** One entry for each divisor, in increasing order of [h]. *)
Lemma layouts_entries :
  _calculate_layouts displays
  = map (planned displays) (divisors (length displays)).
Proof.
  unfold _calculate_layouts.
  rewrite (fold_set_fresh
             (fun h => layout_name h (length displays / h))
             (fun h => mkLayout h (length displays / h) (length displays)
                         (h, length displays / h)
                         (_create_display_mapping displays h
                            (length displays / h)))
             (fun h => length displays mod h =? 0)); [reflexivity|].
  cbn [keys map app]. fold (divisors (length displays)).
  apply NoDup_map_NoDup_ForallPairs.
  - intros a b _ _ E. exact (layout_name_inj _ _ _ _ E).
  - apply NoDup_filter, seq_NoDup.
Qed.

End Planner.

End LayoutFacts.

Module LayoutClaims.
Import Dict VideoWallLayoutManager Notions DictFacts LayoutFacts.
Local Open Scope nat_scope.

(** C9.  For a collection of [n] displays with distinct ids,
    [_calculate_layouts] stores exactly one layout for each divisor [h]
    of [n], named [h]x[n / h], in increasing order of [h].  The layout
    of [h] has [horizontal = h], [vertical = n / h], [total_displays =
    n], so that horizontal times vertical is the number of displays, and
    maps the [i]-th display id (from 0, in the order of the collection)
    to column [i mod h + 1] and row [i div h + 1]; every stored layout
    is one of these.  For the four displays A, B, C, D the layouts are
    1x4, 2x2 and 4x1, and 2x2 maps A to (1,1), B to (2,1), C to (1,2),
    D to (2,2). *)
Theorem layouts_enumerated {K C : Type} `{Hashable K}
    (displays : dict K C) :
  NoDup (keys displays) ->
  let n := length displays in
  let layouts := _calculate_layouts displays in
  keys layouts = map (fun h => layout_name h (n / h)) (divisors n)
  /\ NoDup (keys layouts)
  /\ (forall h, 1 <= h <= n -> n mod h = 0 ->
        exists l,
          get layouts (layout_name h (n / h)) = Some l
          /\ horizontal l = h /\ vertical l = n / h
          /\ total_displays l = n
          /\ horizontal l * vertical l = total_displays l
          /\ forall i k, nth_error (keys displays) i = Some k ->
               get (display_mapping l) k
               = Some (mkPosition (i mod h + 1) (i / h + 1)
                                  (i mod h + 1, i / h + 1)))
  /\ (forall name l,
        get layouts name = Some l ->
        1 <= horizontal l <= n /\ n mod horizontal l = 0
        /\ horizontal l * vertical l = total_displays l
        /\ total_displays l = n
        /\ name = layout_name (horizontal l) (vertical l))
  /\ keys (_calculate_layouts Scripts.four_displays)
     = ["1x4"; "2x2"; "4x1"]%string
  /\ option_map display_mapping
       (get (_calculate_layouts Scripts.four_displays) "2x2"%string)
     = Some [("A"%string, mkPosition 1 1 (1, 1));
             ("B"%string, mkPosition 2 1 (2, 1));
             ("C"%string, mkPosition 1 2 (1, 2));
             ("D"%string, mkPosition 2 2 (2, 2))].
Proof.
  intros Hnd n layouts.
  assert (Hexact : forall h, n mod h = 0 -> h * (n / h) = n).
  { intros h Hh. pose proof (Nat.div_mod_eq n h). lia. }
  assert (Hentries : layouts = map (planned displays) (divisors n))
    by (apply layouts_entries).
  assert (Hkeys : keys layouts
                  = map (fun h => layout_name h (n / h)) (divisors n)).
  { rewrite Hentries. unfold keys. rewrite map_map. reflexivity. }
  assert (Hdistinct : NoDup (keys layouts)).
  { rewrite Hkeys. apply NoDup_map_NoDup_ForallPairs.
    - intros a b _ _ E. exact (layout_name_inj _ _ _ _ E).
    - apply NoDup_filter, seq_NoDup. }
  split; [exact Hkeys|]. split; [exact Hdistinct|].
  split; [|split; [|split; reflexivity]].
  - intros h Hh Hdiv.
    assert (Hin : In h (divisors n)).
    { apply filter_In. split; [apply in_seq; lia|].
      apply Nat.eqb_eq. exact Hdiv. }
    destruct (In_nth_error _ _ Hin) as [j Hj].
    exists (snd (planned displays h)). split.
    + apply (get_nth _ j); [exact Hdistinct|].
      rewrite Hentries, nth_error_map, Hj. reflexivity.
    + cbn. fold n. repeat split; try reflexivity.
      * apply Hexact. exact Hdiv.
      * intros i k Hi.
        apply (mapping_get displays Hnd); [apply Hexact, Hdiv | exact Hi].
  - intros name l Hget. apply get_In in Hget.
    rewrite Hentries in Hget. apply in_map_iff in Hget.
    destruct Hget as (h & E & Hin). apply filter_In in Hin.
    destruct Hin as [Hseq Hdiv]. apply in_seq in Hseq.
    apply Nat.eqb_eq in Hdiv. unfold planned in E.
    injection E as <- <-. cbn. fold n.
    repeat split; try lia; try assumption.
    apply Hexact. exact Hdiv.
Qed.

Lemma layouts_enumerated_witness :
  NoDup (keys Scripts.four_displays)
  /\ keys (_calculate_layouts Scripts.four_displays)
     = ["1x4"; "2x2"; "4x1"]%string
  /\ exists l,
       get (_calculate_layouts Scripts.four_displays) "2x2"%string = Some l
       /\ horizontal l * vertical l = total_displays l
       /\ get (display_mapping l) "C"%string
          = Some (mkPosition 1 2 (1, 2)).
Proof.
  assert (Hnd : NoDup (keys Scripts.four_displays)).
  { cbn. repeat constructor; cbn; intuition discriminate. }
  split; [exact Hnd|].
  destruct (layouts_enumerated Scripts.four_displays Hnd)
    as (Hk & _ & Hh & _).
  split; [exact Hk|].
  destruct (Hh 2) as (l & Hget & _ & _ & _ & Hmul & Hpos);
    [cbn; lia | reflexivity |].
  exists l. split; [exact Hget|]. split; [exact Hmul|].
  exact (Hpos 2 "C"%string eq_refl).
Defined.

End LayoutClaims.

(** ** More on the frame codec *)

Module CodecExtras.
Import Codec MoreNotions PyFacts CodecFacts.

Lemma sum_from (data : bytes) (acc : Z) :
  fold_left (fun a b => a + byte_val b) data acc = acc + sum data.
Proof.
  unfold sum. revert acc.
  induction data as [|b data IH]; intros acc; cbn [fold_left]; [lia|].
  rewrite IH, (IH (0 + byte_val b)). lia.
Qed.

Lemma sum_cons (b : Byte.byte) (data : bytes) :
  sum (b :: data) = byte_val b + sum data.
Proof. unfold sum at 1. cbn [fold_left]. rewrite sum_from. lia. Qed.


Lemma sum_Permutation (l1 l2 : bytes) :
  Permutation l1 l2 -> sum l1 = sum l2.
Proof.
  induction 1; rewrite ?sum_cons in *; lia.
Qed.

(** What [_create_mdc_packet] returned, read back field by field. *)
Lemma create_inv (display_id : Z) (command : MDCCommand) (data packet : bytes) :
  _create_mdc_packet display_id command data = Returns packet ->
  exists h c d n k,
    packet = frame h c d n data k
    /\ byte_val h = 0xAA /\ byte_val c = value command
    /\ byte_val d = display_id /\ byte_val n = len data
    /\ byte_val k = Z.land (0xAA + value command + display_id
                            + len data + sum data) 0xFF.
Proof.
  intros Hc.
  assert (Hok : 0 <= display_id <= 255 /\ (length data <= 255)%nat).
  { destruct (Z_le_dec 0 display_id); [destruct (Z_le_dec display_id 255);
      [destruct (le_dec (length data) 255)|]|]; try (split; [lia|assumption]);
    rewrite create_raises in Hc by lia; discriminate. }
  destruct (create_returns display_id command data)
    as (h & c & d & n & k & E & Hrest); try tauto.
  rewrite E in Hc. injection Hc as <-.
  exists h, c, d, n, k. split; [reflexivity|exact Hrest].
Qed.

(** Decoding a built frame followed by anything. *)
Lemma parse_appended (display_id : Z) (command : MDCCommand)
    (data packet junk : bytes) :
  _create_mdc_packet display_id command data = Returns packet ->
  _parse_mdc_response display_id (packet ++ junk)
  = Returns (Parsed (value command) data (packet ++ junk)).
Proof.
  intros Hc.
  destruct (create_inv _ _ _ _ Hc)
    as (h & c & d & n & k & -> & Vh & Vc & Vd & Vn & Vk).
  unfold frame. cbn [app]. rewrite parse_frame.
  rewrite Vh, Vc, Vd, Vn, <- app_assoc, firstn_len_app.
  replace (nth_error (data ++ [k] ++ junk) (Z.to_nat (len data)))
    with (Some k).
  2:{ unfold len. rewrite Nat2Z.id, nth_error_app2, Nat.sub_diag by lia.
      reflexivity. }
  rewrite <- Vk, !Z.eqb_refl. reflexivity.
Qed.

(** X1.  Bytes that follow the checksum are ignored: a frame built by
    [_create_mdc_packet] with anything appended decodes, for the same
    device id, to the same command and payload. *)
Theorem trailing_bytes_ignored (display_id : Z) (command : MDCCommand)
    (data packet junk : bytes) :
  _create_mdc_packet display_id command data = Returns packet ->
  _parse_mdc_response display_id (packet ++ junk)
  = Returns (Parsed (value command) data (packet ++ junk)).
Proof. apply parse_appended. Qed.

Lemma trailing_bytes_ignored_witness :
  _create_mdc_packet 1 POWER [Byte.x01]
  = Returns [Byte.xaa; Byte.x11; Byte.x01; Byte.x01; Byte.x01; Byte.xbe]
  /\ _parse_mdc_response 1
       ([Byte.xaa; Byte.x11; Byte.x01; Byte.x01; Byte.x01; Byte.xbe]
        ++ [Byte.xff; Byte.x00])
     = Returns (Parsed (value POWER) [Byte.x01]
                  ([Byte.xaa; Byte.x11; Byte.x01; Byte.x01; Byte.x01;
                    Byte.xbe] ++ [Byte.xff; Byte.x00])).
Proof.
  split; [reflexivity|].
  apply (trailing_bytes_ignored 1 POWER [Byte.x01]). reflexivity.
Defined.



(** X3.  The checksum does not see the order of the payload: a frame
    built by [_create_mdc_packet] whose payload bytes have been permuted
    is accepted, and the permuted payload is returned as the data. *)
Theorem permuted_payload_accepted (display_id : Z) (command : MDCCommand)
    (data data' : bytes) (h c d n k : Byte.byte) :
  _create_mdc_packet display_id command data
  = Returns (frame h c d n data k) ->
  Permutation data data' ->
  _parse_mdc_response display_id (frame h c d n data' k)
  = Returns (Parsed (value command) data' (frame h c d n data' k)).
Proof.
  intros Hc Hp.
  destruct (create_inv _ _ _ _ Hc)
    as (h0 & c0 & d0 & n0 & k0 & E & Vh & Vc & Vd & Vn & Vk).
  unfold frame in E. injection E as <- <- <- <- E.
  apply app_inj_tail in E. destruct E as [_ <-].
  assert (Hlen : len data' = len data)
    by (unfold len; rewrite (Permutation_length Hp); reflexivity).
  unfold frame. rewrite parse_frame.
  rewrite Vh, Vc, Vd, Vn, <- Hlen, firstn_len_app, nth_error_len_app.
  rewrite Vk, Hlen, (sum_Permutation _ _ Hp), !Z.eqb_refl. reflexivity.
Qed.

Lemma permuted_payload_accepted_witness :
  _create_mdc_packet 1 VIDEO_WALL_MODE [Byte.x01; Byte.x02]
  = Returns (frame Byte.xaa Byte.x84 Byte.x01 Byte.x02
                   [Byte.x01; Byte.x02] Byte.x34)
  /\ Permutation [Byte.x01; Byte.x02] [Byte.x02; Byte.x01]
  /\ _parse_mdc_response 1
       (frame Byte.xaa Byte.x84 Byte.x01 Byte.x02 [Byte.x02; Byte.x01]
              Byte.x34)
     = Returns (Parsed (value VIDEO_WALL_MODE) [Byte.x02; Byte.x01]
                  (frame Byte.xaa Byte.x84 Byte.x01 Byte.x02
                         [Byte.x02; Byte.x01] Byte.x34)).
Proof.
  assert (E : _create_mdc_packet 1 VIDEO_WALL_MODE [Byte.x01; Byte.x02]
              = Returns (frame Byte.xaa Byte.x84 Byte.x01 Byte.x02
                               [Byte.x01; Byte.x02] Byte.x34))
    by reflexivity.
  assert (P : Permutation [Byte.x01; Byte.x02] [Byte.x02; Byte.x01])
    by apply perm_swap.
  split; [exact E|]. split; [exact P|].
  exact (permuted_payload_accepted 1 VIDEO_WALL_MODE _ _ _ _ _ _ _ E P).
Defined.

End CodecExtras.

(** ** More on the session *)

Module SessionExtras.
Import Codec Session Notions MoreNotions PyFacts CodecFacts SessionFacts.
Import CodecExtras.
Local Open Scope session_scope.
#[local] Arguments Nat.ltb : simpl never.
#[local] Arguments Nat.sub : simpl never.

(** An iteration that sends without expecting a response. *)
Lemma attempt_sends tr command data k st packet :
  (connected st = true \/ open_connection tr k = true) ->
  _create_mdc_packet (display_id st) command data = Returns packet ->
  write tr k = None -> drain tr k = None ->
  attempt tr command data false k st
  = (Returns (Return Sent), after_connect st,
     connect_trace st ++ [Write packet; Drain]).
Proof.
  intros Hc Hp Hw Hd. unfold after_connect, connect_trace.
  unfold_session. rewrite Hp, Hw, Hd.
  destruct (connected st) eqn:Ec; [reflexivity|].
  destruct Hc as [Hc|Hc]; [discriminate|]. rewrite Hc. reflexivity.
Qed.

(** X4.  A command that expects no response, on a link that is up or
    comes up: [send_command] makes one attempt, writes the frame of
    [_create_mdc_packet] and drains, reads nothing, and answers 'Command
    sent successfully'. *)
Theorem fire_and_forget tr command data st packet n :
  max_retries st = S n ->
  (connected st = true \/ open_connection tr 0 = true) ->
  _create_mdc_packet (display_id st) command data = Returns packet ->
  write tr 0 = None -> drain tr 0 = None ->
  send_command tr command data false st
  = (Returns Sent, after_connect st,
     Attempt 0 :: connect_trace st ++ [Write packet; Drain]).
Proof.
  intros Hn Hc Hp Hw Hd.
  apply (send_command_first_returns _ _ _ _ _ _ _ _ n Hn).
  apply attempt_sends; assumption.
Qed.

Lemma fire_and_forget_witness :
  send_command (Scripts.answering [] 0) POWER [Byte.x00] false
               (new_adapter 1)
  = (Returns Sent, mkAdapter 1 true None 0 3,
     [Attempt 0; OpenConnection; Log INFO LogConnected;
      Write [Byte.xaa; Byte.x11; Byte.x01; Byte.x01; Byte.x00; Byte.xbd];
      Drain]).
Proof.
  apply (fire_and_forget (Scripts.answering [] 0) POWER [Byte.x00]
           (new_adapter 1)
           [Byte.xaa; Byte.x11; Byte.x01; Byte.x01; Byte.x00; Byte.xbd] 2);
    [reflexivity | right; reflexivity | reflexivity ..].
Defined.

(** X5.  A response that is a well-formed frame for the adapter's device
    id is returned as the result of the first attempt, with its command
    code and payload, whatever command was sent: the response is not
    matched against the request.  [last_response_time] is set to the
    clock reading. *)
Theorem framed_response_returned tr command data st packet n
    (command' : MDCCommand) (data' response : bytes) :
  max_retries st = S n ->
  (connected st = true \/ open_connection tr 0 = true) ->
  _create_mdc_packet (display_id st) command data = Returns packet ->
  write tr 0 = None -> drain tr 0 = None ->
  read tr 0 = Data response ->
  _create_mdc_packet (display_id st) command' data' = Returns response ->
  send_command tr command data true st
  = (Returns (Parsed (value command') data' response),
     set_last_response_time (clock tr 0) (after_connect st),
     Attempt 0 :: connect_trace st ++ [Write packet; Drain; Read]).
Proof.
  intros Hn Hc Hp Hw Hd Hr Hresp.
  apply (send_command_first_returns _ _ _ _ _ _ _ _ n Hn).
  rewrite (attempt_reads _ _ _ _ _ packet response Hc Hp Hw Hd Hr).
  pose proof (parse_appended _ _ _ _ [] Hresp) as Hparse.
  rewrite app_nil_r in Hparse. rewrite Hparse.
  destruct (create_inv _ _ _ _ Hresp) as (h & c & d & m & k & -> & _).
  reflexivity.
Qed.

Lemma framed_response_returned_witness :
  send_command
    (Scripts.answering
       [Byte.xaa; Byte.x2b; Byte.x01; Byte.x01; Byte.x2d; Byte.x04] 9)
    POWER [Byte.x01] true (new_adapter 1)
  = (Returns (Parsed (value CURRENT_TEMP) [Byte.x2d]
                [Byte.xaa; Byte.x2b; Byte.x01; Byte.x01; Byte.x2d;
                 Byte.x04]),
     mkAdapter 1 true (Some 9) 0 3,
     [Attempt 0; OpenConnection; Log INFO LogConnected;
      Write [Byte.xaa; Byte.x11; Byte.x01; Byte.x01; Byte.x01; Byte.xbe];
      Drain; Read]).
Proof.
  apply (framed_response_returned
           (Scripts.answering
              [Byte.xaa; Byte.x2b; Byte.x01; Byte.x01; Byte.x2d; Byte.x04]
              9)
           POWER [Byte.x01] (new_adapter 1)
           [Byte.xaa; Byte.x11; Byte.x01; Byte.x01; Byte.x01; Byte.xbe] 2
           CURRENT_TEMP [Byte.x2d]);
    [reflexivity | right; reflexivity | reflexivity ..].
Defined.

(** What one iteration does on the network, whatever it is answered. *)
Lemma attempt_discipline tr command data expect k st :
  exists f st' t,
    attempt tr command data expect k st = (Returns f, st', t)
    /\ display_id st' = display_id st
    /\ max_retries st' = max_retries st
    /\ (forall p, In (Write p) t ->
          _create_mdc_packet (display_id st) command data = Returns p)
    /\ (length (filter is_write t) <= 1)%nat
    /\ (length (filter is_open t) <= 1)%nat
    /\ (length (filter is_read t) <= length (filter is_write t))%nat
    /\ (expect = false -> filter is_read t = []).
Proof.
  unfold_session. destruct st as [id conn lrt ec mr]. cbn.
  destruct conn; cbn;
    try destruct (open_connection tr k); cbn;
    try destruct (_create_mdc_packet id command data) as [packet|e0]; cbn;
    try destruct (write tr k); cbn;
    try destruct (drain tr k); cbn;
    try destruct expect; cbn;
    try destruct (read tr k) as [[|b response]| |e1]; cbn;
    try destruct (_parse_mdc_response id (b :: response))
      as [[cmd payload raw| |err]|e2]; cbn;
    try destruct (k <? mr - 1)%nat; cbn;
    do 3 eexists; (split; [reflexivity|]);
    repeat split; cbn; try lia; try discriminate;
    intros p Hin; cbn in Hin;
    repeat (destruct Hin as [Hin|Hin]; try discriminate);
    try contradiction; congruence.
Qed.

(** The same for the loop. *)
Lemma retry_loop_discipline tr command data expect (id : Z) (m : nat) :
  forall ks st, display_id st = id -> max_retries st = m ->
  exists o st' t,
    retry_loop (attempt tr command data expect) ks st = (Returns o, st', t)
    /\ display_id st' = id /\ max_retries st' = m
    /\ (forall p, In (Write p) t ->
          _create_mdc_packet id command data = Returns p)
    /\ (length (filter is_write t) <= length ks)%nat
    /\ (length (filter is_open t) <= length ks)%nat
    /\ (length (filter is_read t) <= length (filter is_write t))%nat
    /\ (expect = false -> filter is_read t = []).
Proof.
  induction ks as [|k ks IH]; intros st Hid Hm.
  - exists None, st, []. cbn. repeat split; auto; try lia; contradiction.
  - destruct (attempt_discipline tr command data expect k st)
      as (f & st1 & t1 & E1 & Hid1 & Hm1 & Hw1 & Hnw1 & Hno1 & Hnr1 & Hr1).
    cbn [retry_loop]. unfold bindM at 1 2. unfold emit. rewrite E1.
    destruct f as [r|].
    + exists (Some r), st1, (Attempt k :: t1).
      cbn [filter is_write is_open is_read length].
      split; [cbn; rewrite app_nil_r; reflexivity|].
      split; [congruence|]. split; [congruence|].
      split; [intros p [Hp|Hp]; [discriminate|]; rewrite <- Hid; auto|].
      repeat split; try lia. exact Hr1.
    + destruct (IH st1) as (o & st2 & t2 & E2 & Hid2 & Hm2 & Hw2 & Hnw2
                             & Hno2 & Hnr2 & Hr2); [congruence..|].
      rewrite E2. exists o, st2, (Attempt k :: t1 ++ t2).
      cbn [filter is_write is_open is_read]. rewrite !filter_app, !length_app.
      split; [reflexivity|]. split; [exact Hid2|]. split; [exact Hm2|].
      split.
      { intros p [Hp|Hp]; [discriminate|]. apply in_app_or in Hp.
        destruct Hp as [Hp|Hp]; [rewrite <- Hid; auto | auto]. }
      cbn [length]. repeat split; try lia.
      intros He. rewrite (Hr1 He), (Hr2 He). reflexivity.
Qed.

(** X6.  Whatever the network answers, [send_command] returns a result
    and keeps to this discipline: every write carries the frame that
    [_create_mdc_packet] builds for the command and payload; there are
    at most [max_retries] writes and at most [max_retries] connection
    attempts; no more reads than writes; and no read at all when no
    response is expected.  The device id and [max_retries] are left as
    they were. *)
Theorem send_command_discipline tr command data expect st :
  exists r st' t,
    send_command tr command data expect st = (Returns r, st', t)
    /\ display_id st' = display_id st
    /\ max_retries st' = max_retries st
    /\ (forall p, In (Write p) t ->
          _create_mdc_packet (display_id st) command data = Returns p)
    /\ (length (filter is_write t) <= max_retries st)%nat
    /\ (length (filter is_open t) <= max_retries st)%nat
    /\ (length (filter is_read t) <= length (filter is_write t))%nat
    /\ (expect = false -> filter is_read t = []).
Proof.
  destruct (retry_loop_discipline tr command data expect (display_id st)
              (max_retries st) (seq 0 (max_retries st)) st eq_refl eq_refl)
    as (o & st' & t & E & Hid & Hm & Hw & Hnw & Hno & Hnr & Hr).
  rewrite length_seq in Hnw, Hno.
  unfold send_command, bindM, get, ret. rewrite E.
  destruct o as [r|]; cbn; rewrite app_nil_r;
    do 3 eexists; (split; [reflexivity|]);
    repeat split; assumption.
Qed.

Lemma send_command_discipline_witness :
  exists r st' t,
    send_command Scripts.silent POWER [Byte.x01] false (new_adapter 1)
    = (Returns r, st', t)
    /\ filter is_read t = [].
Proof.
  destruct (send_command_discipline Scripts.silent POWER [Byte.x01] false
              (new_adapter 1))
    as (r & st' & t & E & _ & _ & _ & _ & _ & _ & Hr).
  exists r, st', t. split; [exact E | exact (Hr eq_refl)].
Defined.

(** One iteration keeps the error count at 0 while connected and at most
    1 otherwise. *)
Lemma attempt_error_count tr command data expect k st :
  (error_count st <= 1)%nat ->
  (connected st = true -> error_count st = 0%nat) ->
  exists f st' t,
    attempt tr command data expect k st = (Returns f, st', t)
    /\ (error_count st' <= 1)%nat
    /\ (connected st' = true -> error_count st' = 0%nat).
Proof.
  unfold_session. destruct st as [id conn lrt ec mr]. cbn.
  intros Hle Hconn.
  destruct conn; cbn;
    [rewrite (Hconn eq_refl)|];
    try destruct (open_connection tr k); cbn;
    try destruct (_create_mdc_packet id command data) as [packet|e0]; cbn;
    try destruct (write tr k); cbn;
    try destruct (drain tr k); cbn;
    try destruct expect; cbn;
    try destruct (read tr k) as [[|b response]| |e1]; cbn;
    try destruct (_parse_mdc_response id (b :: response))
      as [[cmd payload raw| |err]|e2]; cbn;
    try destruct (k <? mr - 1)%nat; cbn;
    do 3 eexists; (split; [reflexivity|]);
    split; cbn; try lia; try discriminate; try (intros _; reflexivity);
    auto.
Qed.

Lemma retry_loop_error_count tr command data expect :
  forall ks st,
  (error_count st <= 1)%nat ->
  (connected st = true -> error_count st = 0%nat) ->
  exists o st' t,
    retry_loop (attempt tr command data expect) ks st = (Returns o, st', t)
    /\ (error_count st' <= 1)%nat
    /\ (connected st' = true -> error_count st' = 0%nat).
Proof.
  induction ks as [|k ks IH]; intros st Hle Hc.
  - exists None, st, []. auto.
  - destruct (attempt_error_count tr command data expect k st Hle Hc)
      as (f & st1 & t1 & E1 & Hle1 & Hc1).
    cbn [retry_loop]. unfold bindM at 1 2. unfold emit. rewrite E1.
    destruct f as [r|].
    + do 3 eexists. split; [reflexivity|]. auto.
    + destruct (IH st1 Hle1 Hc1) as (o & st2 & t2 & E2 & Hle2 & Hc2).
      rewrite E2. do 3 eexists. split; [reflexivity|]. auto.
Qed.

(** The invariant of the error count, for the states of
    [MoreNotions.reachable]. *)
Lemma reachable_error_count (st : adapter) :
  reachable st ->
  (error_count st <= 1)%nat
  /\ (connected st = true -> error_count st = 0%nat).
Proof.
  induction 1 as [id | st st' ok o t _ [Hle Hc] E
                 | st st' tr command data expect o t _ [Hle Hc] E].
  - cbn. split; [lia | discriminate].
  - revert E. unfold connect, bindM, emit, modify, ret.
    destruct st as [id conn lrt ec mr]. destruct ok; cbn;
      intros [= <- <- <-]; cbn in *; split; auto; try lia; discriminate.
  - destruct (retry_loop_error_count tr command data expect
                (seq 0 (max_retries st)) st Hle Hc)
      as (r & st2 & t2 & E2 & Hle2 & Hc2).
    revert E. unfold send_command, bindM, get, ret. rewrite E2.
    destruct r; cbn; intros [= <- <- <-]; auto.
Qed.

(** X7.  The error count of an adapter never exceeds 1, and is 0 while
    the adapter is connected: [connect] resets it on success, and an
    attempt that raises disconnects, so that the next one reconnects
    first.  This holds in every state reached from a new adapter by
    [connect] and [send_command] calls, whatever the network answers. *)
Theorem error_count_bounded (st : adapter) :
  reachable st ->
  (error_count st <= 1)%nat
  /\ (connected st = true -> error_count st = 0%nat).
Proof. exact (reachable_error_count st). Qed.

Lemma error_count_bounded_witness :
  reachable (after_except 2 (set_error_count 0
               (set_connected true (new_adapter 1))))
  /\ (error_count (after_except 2 (set_error_count 0
                     (set_connected true (new_adapter 1)))) <= 1)%nat.
Proof.
  assert (R : reachable (after_except 2 (set_error_count 0
                           (set_connected true (new_adapter 1))))).
  { apply (reachable_send (new_adapter 1) _ Scripts.broken_pipe POWER
             [Byte.x01] true (Returns (Failure (FailedAfter 3)))
             [Attempt 0; OpenConnection; Log INFO LogConnected;
              Write [Byte.xaa; Byte.x11; Byte.x01; Byte.x01; Byte.x01;
                     Byte.xbe];
              Log ERROR (LogAttemptFailed 1 OSError); Sleep 1;
              Attempt 1; OpenConnection; Log INFO LogConnected;
              Write [Byte.xaa; Byte.x11; Byte.x01; Byte.x01; Byte.x01;
                     Byte.xbe];
              Log ERROR (LogAttemptFailed 2 OSError); Sleep 1;
              Attempt 2; OpenConnection; Log INFO LogConnected;
              Write [Byte.xaa; Byte.x11; Byte.x01; Byte.x01; Byte.x01;
                     Byte.xbe];
              Log ERROR (LogAttemptFailed 3 OSError)]);
      [apply reachable_new | vm_compute; reflexivity]. }
  split; [exact R|]. exact (proj1 (error_count_bounded _ R)).
Defined.

(** X8.  Recovery from a failed write: when the first write raises and
    the link comes up again, [send_command] waits one second, reconnects
    and sends the same frame a second time; the command, which expects
    no response, is reported sent, and the adapter ends connected with an
    error count of 0. *)
Theorem recovers_after_failed_write tr command data st packet e n :
  max_retries st = S (S n) ->
  (connected st = true \/ open_connection tr 0 = true) ->
  _create_mdc_packet (display_id st) command data = Returns packet ->
  write tr 0 = Some e ->
  open_connection tr 1 = true -> write tr 1 = None -> drain tr 1 = None ->
  exists st' t,
    send_command tr command data false st = (Returns Sent, st', t)
    /\ timeline t = [Attempt 0; Sleep 1; Attempt 1]
    /\ filter is_write t = [Write packet; Write packet]
    /\ connected st' = true /\ error_count st' = 0%nat.
Proof.
  intros Hn Hc Hp Hw0 Ho1 Hw1 Hd1.
  pose (st1 := after_except 0 (after_connect st)).
  assert (Hid1 : display_id st1 = display_id st)
    by (unfold st1, after_except, after_connect;
        destruct (connected st); reflexivity).
  assert (E0 := attempt_write_raises tr command data false 0 st packet e
                  Hc Hp Hw0).
  assert (E1 : attempt tr command data false 1 st1
               = (Returns (Return Sent), after_connect st1,
                  connect_trace st1 ++ [Write packet; Drain]))
    by (apply attempt_sends; auto; rewrite Hid1; exact Hp).
  exists (after_connect st1).
  eexists. split.
  - unfold send_command. unfold bindM at 1. unfold get. rewrite Hn.
    cbn [seq retry_loop]. unfold bindM, emit, ret.
    rewrite E0. fold st1. rewrite E1. cbn. reflexivity.
  - unfold delay_after. rewrite Hn.
    replace (0 <? S (S n) - 1)%nat with true
      by (symmetry; apply Nat.ltb_lt; lia).
    unfold connect_trace, after_connect, st1, after_except, after_connect.
    destruct (connected st); cbn; repeat split; reflexivity.
Qed.

Lemma recovers_after_failed_write_witness :
  exists st' t,
    send_command flaky POWER [Byte.x01] false (new_adapter 1)
    = (Returns Sent, st', t)
    /\ timeline t = [Attempt 0; Sleep 1; Attempt 1]
    /\ filter is_write t
       = [Write [Byte.xaa; Byte.x11; Byte.x01; Byte.x01; Byte.x01;
                 Byte.xbe];
          Write [Byte.xaa; Byte.x11; Byte.x01; Byte.x01; Byte.x01;
                 Byte.xbe]]
    /\ connected st' = true /\ error_count st' = 0%nat.
Proof.
  apply (recovers_after_failed_write flaky POWER [Byte.x01] (new_adapter 1)
           [Byte.xaa; Byte.x11; Byte.x01; Byte.x01; Byte.x01; Byte.xbe]
           OSError 1);
    [reflexivity | right; reflexivity | reflexivity ..].
Defined.

End SessionExtras.

(** ** The connected flag *)

Module ConnectionExtras.
Import Codec Session Notions MoreNotions.
Import PyFacts SessionFacts.
#[local] Arguments Nat.ltb : simpl never.
#[local] Arguments Nat.sub : simpl never.

(** An iteration that returns leaves the adapter connected; one that
    goes on to the next leaves it disconnected. *)
Lemma attempt_connected tr command data expect k st :
  exists f st' t,
    attempt tr command data expect k st = (Returns f, st', t)
    /\ match f with
       | Return r => success r = true /\ connected st' = true
       | Next => connected st' = false
       end.
Proof.
  unfold_session. destruct st as [id conn lrt ec mr]. cbn.
  destruct conn; cbn;
    try destruct (open_connection tr k); cbn;
    try destruct (_create_mdc_packet id command data) as [packet|e0]; cbn;
    try destruct (write tr k); cbn;
    try destruct (drain tr k); cbn;
    try destruct expect; cbn;
    try destruct (read tr k) as [[|b response]| |e1]; cbn;
    try destruct (_parse_mdc_response id (b :: response))
      as [[cmd payload raw| |err]|e2]; cbn;
    try destruct (k <? mr - 1)%nat; cbn;
    do 3 eexists; (split; [reflexivity|]); cbn; auto.
Qed.

(** The same for the loop, when it has an iteration to run. *)
Lemma retry_loop_connected tr command data expect :
  forall ks st, ks <> [] ->
  exists o st' t,
    retry_loop (attempt tr command data expect) ks st = (Returns o, st', t)
    /\ match o with
       | Some r => success r = true /\ connected st' = true
       | None => connected st' = false
       end.
Proof.
  induction ks as [|k ks IH]; intros st Hne; [contradiction|].
  destruct (attempt_connected tr command data expect k st)
    as (f & st1 & t1 & E1 & Hf).
  cbn [retry_loop]. unfold bindM at 1 2. unfold emit. rewrite E1.
  destruct f as [r|].
  - exists (Some r), st1. eexists. split; [reflexivity | exact Hf].
  - destruct ks as [|k' ks].
    + exists None, st1. eexists. split; [reflexivity | exact Hf].
    + destruct (IH st1) as (o & st2 & t2 & E2 & Ho); [discriminate|].
      rewrite E2. exists o, st2. eexists. split; [reflexivity | exact Ho].
Qed.

(** X24.  After [send_command] the connected flag tells how the command
    went: with at least one attempt allowed, the adapter is left
    connected exactly when the result is a success, and a failure is
    always 'Failed after [max_retries] attempts'. *)
Theorem connected_tracks_success tr command data expect st n :
  max_retries st = S n ->
  exists r st' t,
    send_command tr command data expect st = (Returns r, st', t)
    /\ connected st' = success r
    /\ (success r = false -> r = Failure (FailedAfter (S n))).
Proof.
  intros Hn.
  destruct (retry_loop_connected tr command data expect
              (seq 0 (max_retries st)) st)
    as (o & st' & t & E & Ho); [rewrite Hn; discriminate|].
  destruct (retry_loop_shape tr command data expect (max_retries st)
              (max_retries st) 0 st eq_refl)
    as (o' & st'' & t' & E' & Hm & _).
  rewrite E in E'. injection E' as <- <- <-.
  unfold send_command, bindM, Session.get, ret. rewrite E.
  destruct o as [r|]; cbn; rewrite ?app_nil_r; do 3 eexists;
    (split; [reflexivity|]).
  - destruct Ho as [Hs Hc]. split; [congruence|].
    intros Hf. congruence.
  - split; [exact Ho|]. intros _. congruence.
Qed.

Lemma connected_tracks_success_witness :
  exists r st' t,
    send_command Scripts.silent POWER [Byte.x01] true (new_adapter 1)
    = (Returns r, st', t)
    /\ connected st' = success r.
Proof.
  destruct (connected_tracks_success Scripts.silent POWER [Byte.x01] true
              (new_adapter 1) 2 eq_refl)
    as (r & st' & t & E & Hc & _).
  exists r, st', t. split; [exact E | exact Hc].
Defined.

End ConnectionExtras.

(** ** More on the layout planner *)

Module LayoutExtras.
Import Dict VideoWallLayoutManager Notions DictFacts LayoutFacts.
Local Open Scope nat_scope.

Lemma in_combine_seq {A} (l : list A) (s i : nat) (a : A) :
  In (i, a) (combine (seq s (length l)) l) ->
  s <= i /\ nth_error l (i - s) = Some a.
Proof.
  revert s. induction l as [|x l IH]; intros s Hin; [destruct Hin|].
  cbn in Hin. destruct Hin as [[= <- <-]|Hin].
  - rewrite Nat.sub_diag. split; [lia | reflexivity].
  - destruct (IH (S s) Hin) as [Hle Hn]. split; [lia|].
    replace (i - s) with (S (i - S s)) by lia. exact Hn.
Qed.

Lemma in_enumerate {A} (l : list A) (i : nat) (a : A) :
  In (i, a) (enumerate l) -> nth_error l i = Some a.
Proof.
  intros Hin. apply in_combine_seq in Hin. rewrite Nat.sub_0_r in Hin.
  apply Hin.
Qed.

(** A cell of a grid with rows of [h] names its index. *)
Lemma cell_inj (h i j : nat) : cell h i = cell h j -> i = j.
Proof.
  unfold cell. intros [= Hm Hd _ _].
  rewrite (Nat.div_mod_eq i h), (Nat.div_mod_eq j h).
  assert (i mod h = j mod h) by lia. assert (i / h = j / h) by lia.
  congruence.
Qed.

Lemma cell_in_grid (h v i : nat) :
  1 <= h -> i < h * v ->
  1 <= i mod h + 1 <= h /\ 1 <= i / h + 1 <= v.
Proof.
  intros Hh Hi.
  pose proof (Nat.mod_upper_bound i h ltac:(lia)).
  assert (i / h < v) by (apply Nat.Div0.div_lt_upper_bound; lia).
  lia.
Qed.

Lemma cell_of_coordinates (h a b : nat) :
  1 <= a <= h -> 1 <= b ->
  cell h ((b - 1) * h + (a - 1)) = mkPosition a b (a, b).
Proof.
  intros Ha Hb. unfold cell.
  replace ((b - 1) * h + (a - 1)) with ((a - 1) + (b - 1) * h) by lia.
  rewrite Nat.Div0.mod_add, Nat.div_add by lia.
  rewrite Nat.mod_small, Nat.div_small by lia.
  replace (a - 1 + 1) with a by lia.
  replace (0 + (b - 1) + 1) with b by lia. reflexivity.
Qed.

(** X9.  A grid of [h] by [v] for exactly [h * v] displays with distinct
    ids is filled one display per cell: [_create_display_mapping] maps
    every display, every position lies in columns 1..[h] and rows
    1..[v], two displays never share a position, and every cell of the
    grid is the position of some display. *)
Theorem positions_fill_grid {K C : Type} `{Hashable K} (displays : dict K C)
    (h v : nat) :
  NoDup (keys displays) ->
  1 <= h ->
  h * v = length displays ->
  let mapping := _create_display_mapping displays h v in
  keys mapping = keys displays
  /\ (forall k p,
        get mapping k = Some p ->
        1 <= horizontal_position p <= h
        /\ 1 <= vertical_position p <= v
        /\ grid_position p = (horizontal_position p, vertical_position p))
  /\ (forall k k' p,
        get mapping k = Some p -> get mapping k' = Some p -> k = k')
  /\ (forall a b,
        1 <= a <= h -> 1 <= b <= v ->
        exists k, get mapping k = Some (mkPosition a b (a, b))).
Proof.
  intros Hnd Hh Hfull mapping.
  assert (Hlen : length (keys displays) = h * v)
    by (unfold keys; rewrite length_map; lia).
  assert (Hentries :
    mapping = map (fun x => (snd x, cell h (fst x)))
                  (enumerate (keys displays))).
  { unfold mapping. rewrite (mapping_entries displays Hnd).
    rewrite firstn_all2 by lia. reflexivity. }
  assert (Hfind : forall k p, get mapping k = Some p ->
            exists i, nth_error (keys displays) i = Some k
                      /\ p = cell h i /\ i < h * v).
  { intros k p Hg. apply get_In in Hg. rewrite Hentries in Hg.
    apply in_map_iff in Hg. destruct Hg as ([i k0] & [= <- <-] & Hin).
    apply in_enumerate in Hin. exists i. split; [exact Hin|].
    split; [reflexivity|]. rewrite <- Hlen. apply nth_error_Some.
    congruence. }
  split; [|split; [|split]].
  - unfold mapping. rewrite (mapping_keys displays Hnd).
    apply firstn_all2. lia.
  - intros k p Hg. destruct (Hfind k p Hg) as (i & _ & -> & Hi).
    destruct (cell_in_grid h v i Hh Hi) as [Hcol Hrow]. unfold cell.
    cbn [horizontal_position vertical_position grid_position].
    split; [exact Hcol|]. split; [exact Hrow | reflexivity].
  - intros k k' p Hg Hg'.
    destruct (Hfind k p Hg) as (i & Hi & Hp & _).
    destruct (Hfind k' p Hg') as (j & Hj & Hp' & _).
    assert (i = j) by (apply (cell_inj h); congruence). subst j.
    congruence.
  - intros a b Ha Hb.
    assert (Hi : (b - 1) * h + (a - 1) < length (keys displays)) by nia.
    destruct (nth_error (keys displays) ((b - 1) * h + (a - 1)))
      as [k|] eqn:Ek; [|apply nth_error_None in Ek; lia].
    exists k. unfold mapping.
    rewrite (mapping_get displays Hnd h v _ k Hfull Ek).
    f_equal. apply cell_of_coordinates; lia.
Qed.

Lemma positions_fill_grid_witness :
  NoDup (keys Scripts.four_displays)
  /\ 2 * 2 = length Scripts.four_displays
  /\ exists k,
       get (_create_display_mapping Scripts.four_displays 2 2) k
       = Some (mkPosition 2 2 (2, 2)).
Proof.
  assert (Hnd : NoDup (keys Scripts.four_displays)).
  { cbn. repeat constructor; cbn; intuition discriminate. }
  split; [exact Hnd|]. split; [reflexivity|].
  destruct (positions_fill_grid Scripts.four_displays 2 2 Hnd)
    as (_ & _ & _ & Hcover); [lia | reflexivity |].
  apply Hcover; lia.
Defined.

End LayoutExtras.

(** ** More on dictionaries *)

Module DictExtras.
Import Dict DictFacts.

Section Facts.
Context {K V : Type} `{Hashable K}.

Lemma get_set_same (d : dict K V) (k : K) (v : V) :
  get (set d k v) k = Some v.
Proof.
  induction d as [|[k' v'] d IH]; cbn.
  - rewrite key_eqb_refl. reflexivity.
  - destruct (key_eqb k' k) eqn:E; cbn; rewrite E; [reflexivity | exact IH].
Qed.

Lemma get_set_other (d : dict K V) (k k' : K) (v : V) :
  k <> k' -> get (set d k v) k' = get d k'.
Proof.
  intros Hk. induction d as [|[k0 v0] d IH]; cbn.
  - rewrite key_eqb_neq by exact Hk. reflexivity.
  - destruct (key_eqb k0 k) eqn:E; cbn.
    + apply key_eqb_eq in E. subst k0.
      rewrite key_eqb_neq by exact Hk. reflexivity.
    + rewrite IH. reflexivity.
Qed.

Lemma get_None (d : dict K V) (k : K) :
  get d k = None <-> ~ In k (keys d).
Proof.
  induction d as [|[k' v'] d IH]; cbn; [tauto|].
  destruct (key_eqb k' k) eqn:E.
  - apply key_eqb_eq in E. subst. split; [discriminate | tauto].
  - rewrite IH. split; [|tauto]. intros Hn [Hk|Hk]; [|tauto].
    subst. rewrite key_eqb_refl in E. discriminate.
Qed.

Lemma get_Some_keys (d : dict K V) (k : K) (v : V) :
  get d k = Some v -> In k (keys d).
Proof.
  induction d as [|[k' v'] d IH]; cbn; [discriminate|].
  destruct (key_eqb k' k) eqn:E.
  - apply key_eqb_eq in E. intros _. now left.
  - intros Hg. right. exact (IH Hg).
Qed.

Lemma keys_set_present (d : dict K V) (k : K) (v : V) :
  In k (keys d) -> keys (set d k v) = keys d.
Proof.
  induction d as [|[k' v'] d IH]; cbn; [tauto|].
  intros Hin. destruct (key_eqb k' k) eqn:E; cbn; [reflexivity|].
  f_equal. apply IH. destruct Hin as [Hin|Hin]; [|exact Hin].
  subst. rewrite key_eqb_refl in E. discriminate.
Qed.

Lemma keys_set_fresh (d : dict K V) (k : K) (v : V) :
  ~ In k (keys d) -> keys (set d k v) = keys d ++ [k].
Proof.
  intros Hk. rewrite set_fresh by exact Hk.
  unfold keys. rewrite map_app. reflexivity.
Qed.

(** Storing again what is stored changes nothing. *)
Lemma set_same (d : dict K V) (k : K) (v : V) :
  get d k = Some v -> set d k v = d.
Proof.
  induction d as [|[k' v'] d IH]; cbn; [discriminate|].
  destruct (key_eqb k' k) eqn:E.
  - intros [= ->]. reflexivity.
  - intros Hg. rewrite IH by exact Hg. reflexivity.
Qed.

End Facts.

End DictExtras.

(** ** Applying a layout *)

Module WallFacts.
Import Codec Session Dict VideoWallLayoutManager WallControl Notions.
Import PyFacts SessionFacts DictFacts DictExtras LayoutFacts.

Lemma send_command_returns tr command data expect st :
  exists r st' t,
    send_command tr command data expect st = (Returns r, st', t).
Proof.
  destruct (retry_loop_shape tr command data expect (max_retries st)
              (max_retries st) 0 st eq_refl)
    as (o & st' & t & E & _ & _).
  unfold send_command, bindM, Session.get, ret. rewrite E.
  destruct o; cbn; do 3 eexists; reflexivity.
Qed.

(** The three ways [set_video_wall_mode] goes. *)
Lemma wall_mode_cases tr enabled h v hp vp st :
  (~ (1 <= h <= 15 /\ 1 <= v <= 15)
   /\ set_video_wall_mode tr enabled h v hp vp st
      = (Returns (Failure MonitorCountRange), st, []))
  \/ ((1 <= h <= 15 /\ 1 <= v <= 15)
      /\ ~ (1 <= hp <= h /\ 1 <= vp <= v)
      /\ set_video_wall_mode tr enabled h v hp vp st
         = (Returns (Failure PositionOutsideGrid), st, []))
  \/ ((1 <= h <= 15 /\ 1 <= v <= 15)
      /\ (1 <= hp <= h /\ 1 <= vp <= v)
      /\ exists data,
           map byte_val data
           = [if enabled : bool then 1 else 0; h; v; hp; vp]
           /\ set_video_wall_mode tr enabled h v hp vp st
              = send_command tr VIDEO_WALL_MODE data true st).
Proof.
  unfold set_video_wall_mode.
  destruct (negb ((1 <=? h) && (h <=? 15))
            || negb ((1 <=? v) && (v <=? 15))) eqn:E1.
  - left. split; [|reflexivity]. intros [Hh Hv].
    apply orb_true_iff in E1.
    destruct E1 as [E|E]; apply negb_true_iff, andb_false_iff in E;
      destruct E as [E|E]; apply Z.leb_gt in E; lia.
  - apply orb_false_iff in E1. destruct E1 as [A B].
    apply negb_false_iff, andb_true_iff in A, B.
    rewrite !Z.leb_le in A, B.
    destruct (negb ((1 <=? hp) && (hp <=? h))
              || negb ((1 <=? vp) && (vp <=? v))) eqn:E2.
    + right; left. split; [lia|]. split; [|reflexivity]. intros [Hh Hv].
      apply orb_true_iff in E2.
      destruct E2 as [E|E]; apply negb_true_iff, andb_false_iff in E;
        destruct E as [E|E]; apply Z.leb_gt in E; lia.
    + right; right. apply orb_false_iff in E2. destruct E2 as [C D].
      apply negb_false_iff, andb_true_iff in C, D.
      rewrite !Z.leb_le in C, D.
      split; [lia|]. split; [lia|].
      destruct (pack_B_returns (if enabled then 1 else 0))
        as (b0 & E0 & V0); [destruct enabled; lia|].
      destruct (pack_B_returns h) as (b1 & Eb1 & V1); [lia|].
      destruct (pack_B_returns v) as (b2 & Eb2 & V2); [lia|].
      destruct (pack_B_returns hp) as (b3 & Eb3 & V3); [lia|].
      destruct (pack_B_returns vp) as (b4 & Eb4 & V4); [lia|].
      exists [b0; b1; b2; b3; b4]. split.
      * cbn [map]. rewrite V0, V1, V2, V3, V4. reflexivity.
      * cbn [struct_pack]. rewrite E0, Eb1, Eb2, Eb3, Eb4. cbn [bind].
        exact (bindM_lift_returns [b0; b1; b2; b3; b4]
                 (fun data => send_command tr VIDEO_WALL_MODE data true)
                 st).
Qed.

Lemma wall_mode_returns tr enabled h v hp vp st :
  exists r st' t,
    set_video_wall_mode tr enabled h v hp vp st = (Returns r, st', t).
Proof.
  destruct (wall_mode_cases tr enabled h v hp vp st)
    as [[_ E]|[(_ & _ & E)|(_ & _ & data & _ & E)]]; rewrite E.
  - do 3 eexists; reflexivity.
  - do 3 eexists; reflexivity.
  - apply send_command_returns.
Qed.

Section Fold.
Context {K X : Type} `{Hashable K}.
Variable key : X -> K.
Variable step : outcome (@run K) -> X -> outcome (@run K).
Variable Q : X -> option device -> entry -> option device
             -> list (K * list event) -> Prop.
Variable F : list K.
Variable items : list X.

Hypothesis Hstep : forall acc x,
  In x items -> keys (fleet acc) = F ->
  exists e fl cs,
    step (Returns acc) x
    = Returns (mkRun (set (results acc) (key x) e) fl (calls acc ++ cs))
    /\ keys fl = F
    /\ (forall k, k <> key x -> Dict.get fl k = Dict.get (fleet acc) k)
    /\ Q x (Dict.get (fleet acc) (key x)) e (Dict.get fl (key x)) cs.

(** A loop over displays with distinct ids treats each display on its
    own. *)
Lemma wall_fold :
  forall l acc,
  incl l items ->
  NoDup (keys (results acc) ++ map key l) ->
  keys (fleet acc) = F ->
  exists done,
    fold_left step l (Returns acc) = Returns done
    /\ keys (results done) = keys (results acc) ++ map key l
    /\ keys (fleet done) = F
    /\ incl (calls acc) (calls done)
    /\ (forall k, ~ In k (map key l) ->
          Dict.get (results done) k = Dict.get (results acc) k
          /\ Dict.get (fleet done) k = Dict.get (fleet acc) k)
    /\ (forall x, In x l ->
          exists e cs,
            Q x (Dict.get (fleet acc) (key x)) e
              (Dict.get (fleet done) (key x)) cs
            /\ Dict.get (results done) (key x) = Some e
            /\ incl cs (calls done))
    /\ (forall c, In c (calls done) ->
          In c (calls acc)
          \/ exists x e od' cs,
               In x l /\ Q x (Dict.get (fleet acc) (key x)) e od' cs
               /\ In c cs).
Proof.
  induction l as [|x l IH]; intros acc Hincl Hnd HF.
  - exists acc. cbn. rewrite app_nil_r.
    repeat split; auto using incl_refl; contradiction.
  - cbn [map] in Hnd.
    assert (Hx : ~ In (key x) (keys (results acc)) /\ ~ In (key x) (map key l)).
    { pose proof (NoDup_remove_2 _ _ _ Hnd) as Hn. split; intros Hin;
        apply Hn, in_or_app; [left|right]; exact Hin. }
    destruct Hx as [Hfresh Hlater].
    destruct (Hstep acc x (Hincl x (or_introl eq_refl)) HF)
      as (e & fl & cs & E & Hfl & Hother & HQ).
    set (acc1 := mkRun (set (results acc) (key x) e) fl (calls acc ++ cs))
      in *.
    destruct (IH acc1) as (done & Ed & Hk & Hf & Hc & Hun & Hin & Hcalls).
    { intros y Hy. apply Hincl. now right. }
    { unfold acc1. cbn [results]. rewrite keys_set_fresh by exact Hfresh.
      rewrite <- app_assoc. exact Hnd. }
    { exact Hfl. }
    assert (Hkeep : forall y, In y l ->
              Dict.get (fleet acc1) (key y) = Dict.get (fleet acc) (key y)).
    { intros y Hy. unfold acc1. cbn [fleet]. apply Hother.
      intros Heq. apply Hlater. rewrite <- Heq. apply in_map. exact Hy. }
    exists done. cbn [fold_left]. rewrite E. fold acc1.
    split; [exact Ed|]. split.
    { rewrite Hk. unfold acc1. cbn [results].
      rewrite keys_set_fresh by exact Hfresh. rewrite <- app_assoc.
      reflexivity. }
    split; [exact Hf|]. split.
    { intros c Hc0. apply Hc. unfold acc1. cbn [calls].
      apply in_or_app. now left. }
    split; [|split].
    + intros k Hk0. cbn [map] in Hk0.
      destruct (Hun k) as [Hr Hfleet];
        [intros Hin0; apply Hk0; right; exact Hin0|].
      rewrite Hr, Hfleet. unfold acc1. cbn [results fleet].
      rewrite get_set_other by (intros Heq; apply Hk0; now left).
      split; [reflexivity|]. apply Hother. intros Heq. apply Hk0. now left.
    + intros y [<-|Hy].
      * destruct (Hun (key x) Hlater) as [Hr Hfleet].
        exists e, cs. unfold acc1 in Hr, Hfleet. cbn [results fleet] in *.
        rewrite Hfleet, Hr, get_set_same.
        split; [exact HQ|]. split; [reflexivity|].
        intros c Hc0. apply Hc. unfold acc1. cbn [calls].
        apply in_or_app. now right.
      * destruct (Hin y Hy) as (e' & cs' & HQ' & Hr' & Hi').
        exists e', cs'. rewrite <- (Hkeep y Hy). auto.
    + intros c Hc0. destruct (Hcalls c Hc0) as [Hc1|Hc1].
      * unfold acc1 in Hc1. cbn [calls] in Hc1. apply in_app_or in Hc1.
        destruct Hc1 as [Hc1|Hc1]; [now left|].
        right. exists x, e, (Dict.get fl (key x)), cs. auto with datatypes.
      * right. destruct Hc1 as (y & e' & od' & cs' & Hy & HQ' & Hc1).
        exists y, e', od', cs'. rewrite <- (Hkeep y Hy).
        auto with datatypes.
Qed.

End Fold.

End WallFacts.

Module WallRuns.
Import Codec Session Dict VideoWallLayoutManager WallControl Notions.
Import WallNotions.
Import PyFacts SessionFacts DictFacts DictExtras LayoutFacts WallFacts.

Section Runs.
Context {K : Type} `{Hashable K}.

Lemma configure_step_spec (layout : layout K) (adapters : dict K device) :
  forall acc x,
  In x (display_mapping layout) -> keys (fleet acc) = keys adapters ->
  exists e fl cs,
    configure_step layout (Returns acc) x
    = Returns (mkRun (set (results acc) (fst x) e) fl (calls acc ++ cs))
    /\ keys fl = keys adapters
    /\ (forall k, k <> fst x -> Dict.get fl k = Dict.get (fleet acc) k)
    /\ configured layout x (Dict.get (fleet acc) (fst x)) e
                  (Dict.get fl (fst x)) cs.
Proof.
  intros acc [k pos] _ HF. unfold configure_step, configured.
  cbn [bind fst snd].
  destruct (Dict.get (fleet acc) k) as [dev|] eqn:Eg.
  - destruct (wall_mode_returns (link dev) true
                (Z.of_nat (horizontal layout)) (Z.of_nat (vertical layout))
                (Z.of_nat (horizontal_position pos))
                (Z.of_nat (vertical_position pos)) (session dev))
      as (r & st' & t & E).
    rewrite E. cbn [record_call].
    exists (Answered r), (set (fleet acc) k (mkDevice st' (link dev))),
           [(k, t)].
    split; [reflexivity|]. split.
    { rewrite keys_set_present; [exact HF|].
      exact (get_Some_keys _ _ _ Eg). }
    split; [intros k' Hk'; apply get_set_other; congruence|].
    exists r, st', t. rewrite get_set_same. auto.
  - exists AdapterNotFound, (fleet acc), []. rewrite app_nil_r.
    split; [reflexivity|]. split; [exact HF|]. split; [reflexivity|].
    rewrite Eg. auto.
Qed.

Lemma disable_step_spec (adapters : dict K device) :
  forall acc x,
  In x adapters -> keys (fleet acc) = keys adapters ->
  exists e fl cs,
    disable_step (Returns acc) x
    = Returns (mkRun (set (results acc) (fst x) e) fl (calls acc ++ cs))
    /\ keys fl = keys adapters
    /\ (forall k, k <> fst x -> Dict.get fl k = Dict.get (fleet acc) k)
    /\ disabled x (Dict.get (fleet acc) (fst x)) e (Dict.get fl (fst x)) cs.
Proof.
  intros acc [k dev] Hin HF. unfold disable_step, disabled.
  cbn [bind fst snd].
  destruct (wall_mode_returns (link dev) false 1 1 1 1 (session dev))
    as (r & st' & t & E).
  rewrite E. cbn [record_call].
  exists (Answered r), (set (fleet acc) k (mkDevice st' (link dev))),
         [(k, t)].
  split; [reflexivity|]. split.
  { rewrite keys_set_present; [exact HF|]. rewrite HF.
    apply (in_map fst) in Hin. exact Hin. }
  split; [intros k' Hk'; apply get_set_other; congruence|].
  exists r, st', t. rewrite get_set_same. auto.
Qed.

End Runs.

End WallRuns.

Module WallExtras.
Import Codec Session Dict VideoWallLayoutManager WallControl Notions.
Import WallNotions.
Import PyFacts SessionFacts DictFacts DictExtras LayoutFacts LayoutExtras.
Import WallFacts WallRuns.

Lemma all_success_false {K : Type} (results : dict K entry) (k : K)
    (e : entry) :
  In (k, e) results -> entry_success e = false ->
  all_success results = false.
Proof.
  intros Hin He. unfold all_success.
  destruct (forallb entry_success (map snd results)) eqn:E; [|reflexivity].
  rewrite forallb_forall in E. rewrite <- He. symmetry. apply E.
  apply (in_map snd) in Hin. exact Hin.
Qed.

(** The loop of [configure_video_wall] from its initial state. *)
Lemma configure_run {K : Type} `{Hashable K} (layout : layout K)
    (adapters : dict K device) :
  NoDup (keys (display_mapping layout)) ->
  exists done,
    fold_left (configure_step layout) (display_mapping layout)
              (Returns (mkRun [] adapters []))
    = Returns done
    /\ keys (results done) = keys (display_mapping layout)
    /\ keys (fleet done) = keys adapters
    /\ (forall k, ~ In k (keys (display_mapping layout)) ->
          Dict.get (fleet done) k = Dict.get adapters k)
    /\ (forall x, In x (display_mapping layout) ->
          exists e cs,
            configured layout x (Dict.get adapters (fst x)) e
                       (Dict.get (fleet done) (fst x)) cs
            /\ Dict.get (results done) (fst x) = Some e
            /\ incl cs (calls done))
    /\ (forall c, In c (calls done) ->
          exists x e od' cs,
            In x (display_mapping layout)
            /\ configured layout x (Dict.get adapters (fst x)) e od' cs
            /\ In c cs).
Proof.
  intros Hnd.
  destruct (wall_fold fst (configure_step layout) (configured layout)
              (keys adapters) (display_mapping layout)
              (configure_step_spec layout adapters)
              (display_mapping layout) (mkRun [] adapters []))
    as (done & E & Hk & Hf & _ & Hun & Hin & Hcalls);
    [apply incl_refl | exact Hnd | reflexivity |].
  exists done. split; [exact E|]. split; [exact Hk|]. split; [exact Hf|].
  split; [intros k Hk0; apply (Hun k Hk0)|]. split; [exact Hin|].
  intros c Hc. destruct (Hcalls c Hc) as [[]|Hx]. exact Hx.
Qed.

(** X10.  [configure_video_wall] answers for every display of the
    layout.  A layout name that is not known gives 'Layout not found'
    and touches no adapter.  Otherwise [results] has one entry per
    display of the layout, in the layout's order; a display without an
    adapter gets 'Adapter not found', which does not stop the others but
    makes the overall success false; the overall success is the
    conjunction of the entries; adapters of displays outside the layout
    are left alone, and calls are made only to adapters of the layout. *)
Theorem configure_reports_every_display {K : Type} `{Hashable K}
    (layouts : dict string (layout K)) (layout_name : string)
    (adapters : dict K device) :
  (Dict.get layouts layout_name = None ->
   configure_video_wall layouts layout_name adapters
   = Returns (LayoutNotFound, adapters, []))
  /\ (forall layout,
        Dict.get layouts layout_name = Some layout ->
        NoDup (keys (display_mapping layout)) ->
        exists ok results fleet' calls,
          configure_video_wall layouts layout_name adapters
          = Returns (Applied ok layout_name results, fleet', calls)
          /\ keys results = keys (display_mapping layout)
          /\ keys fleet' = keys adapters
          /\ ok = forallb entry_success (map snd results)
          /\ (forall k,
                In k (keys (display_mapping layout)) ->
                Dict.get adapters k = None ->
                Dict.get results k = Some AdapterNotFound /\ ok = false)
          /\ (forall k,
                ~ In k (keys (display_mapping layout)) ->
                Dict.get fleet' k = Dict.get adapters k)
          /\ (forall k t,
                In (k, t) calls ->
                In k (keys (display_mapping layout))
                /\ Dict.get adapters k <> None)).
Proof.
  split.
  - intros Hnone. unfold configure_video_wall. rewrite Hnone. reflexivity.
  - intros layout Hsome Hnd. unfold configure_video_wall. rewrite Hsome.
    destruct (configure_run layout adapters Hnd)
      as (done & E & Hk & Hf & Hun & Hin & Hcalls).
    rewrite E. cbn [bind].
    exists (all_success (results done)), (results done), (fleet done),
           (calls done).
    split; [reflexivity|]. split; [exact Hk|]. split; [exact Hf|].
    split; [reflexivity|]. split; [|split; [exact Hun|]].
    + intros k Hkin Hnone. unfold keys in Hkin. apply in_map_iff in Hkin.
      destruct Hkin as ([k0 pos] & <- & Hx).
      destruct (Hin _ Hx) as (e & cs & HQ & Hr & _).
      cbn [fst] in *. unfold configured in HQ. rewrite Hnone in HQ.
      destruct HQ as (-> & _ & _). split; [exact Hr|].
      apply (all_success_false _ k0 AdapterNotFound);
        [apply get_In; exact Hr | reflexivity].
    + intros k t Hc.
      destruct (Hcalls _ Hc) as ([k0 pos] & e & od' & cs & Hx & HQ & Hcs).
      unfold configured in HQ. cbn [fst snd] in HQ.
      destruct (Dict.get adapters k0) as [dev|] eqn:Eg.
      * destruct HQ as (r & st' & t0 & _ & _ & _ & ->).
        destruct Hcs as [[= <- <-]|[]].
        split; [apply (in_map fst) in Hx; exact Hx | congruence].
      * destruct HQ as (_ & _ & ->). destruct Hcs.
Qed.

Lemma configure_reports_every_display_witness :
  configure_video_wall (_calculate_layouts Scripts.four_displays)
                       "3x3" three_devices
  = Returns (LayoutNotFound, three_devices, [])
  /\ exists ok results fleet' calls,
       configure_video_wall (_calculate_layouts Scripts.four_displays)
                            "2x2" three_devices
       = Returns (Applied ok "2x2" results, fleet', calls)
       /\ keys results = ["A"; "B"; "C"; "D"]%string
       /\ Dict.get results "C"%string = Some AdapterNotFound
       /\ ok = false.
Proof.
  split.
  - apply (proj1 (configure_reports_every_display
                    (_calculate_layouts Scripts.four_displays) "3x3"
                    three_devices)).
    reflexivity.
  - edestruct (proj2 (configure_reports_every_display
                        (_calculate_layouts Scripts.four_displays) "2x2"
                        three_devices))
      as (ok & results & fleet' & calls & E & Hk & _ & _ & Hmiss & _);
      [reflexivity | cbn; repeat constructor; cbn; intuition discriminate |].
    exists ok, results, fleet', calls. split; [exact E|].
    split; [exact Hk|]. apply Hmiss; [cbn; tauto | reflexivity].
Defined.

(** The layout the planner stores for the divisor [h]. *)
Lemma planned_get {K C : Type} `{Hashable K} (displays : dict K C)
    (h : nat) :
  NoDup (keys displays) ->
  (1 <= h <= length displays)%nat ->
  (length displays mod h = 0)%nat ->
  Dict.get (_calculate_layouts displays)
           (layout_name h (length displays / h))
  = Some (snd (planned displays h)).
Proof.
  intros Hnd Hh Hdiv.
  assert (Hin : In h (divisors (length displays))).
  { apply filter_In. split; [apply in_seq; lia|].
    apply Nat.eqb_eq. exact Hdiv. }
  destruct (In_nth_error _ _ Hin) as [j Hj].
  apply (get_nth _ j).
  - rewrite (layouts_entries displays). unfold keys. rewrite map_map.
    apply NoDup_map_NoDup_ForallPairs.
    + intros a b _ _ E. exact (layout_name_inj _ _ _ _ E).
    + apply NoDup_filter, seq_NoDup.
  - rewrite (layouts_entries displays), nth_error_map, Hj. reflexivity.
Qed.

(** X11.  The planner and the validation of [set_video_wall_mode] agree:
    for a layout computed by [_calculate_layouts] with at most 15
    columns and 15 rows, [configure_video_wall] gets past the validation
    for every display that has an adapter.  The [i]-th display is sent
    VIDEO_WALL_MODE with the five bytes 1, [h], [v], [i mod h + 1],
    [i div h + 1], and its entry of [results] is what [send_command]
    returned. *)
Theorem planned_layout_is_sent {K C : Type} `{Hashable K}
    (displays : dict K C) (adapters : dict K device) (h : nat) :
  NoDup (keys displays) ->
  (1 <= h <= length displays)%nat ->
  (length displays mod h = 0)%nat ->
  (h <= 15)%nat -> (length displays / h <= 15)%nat ->
  let v := (length displays / h)%nat in
  exists ok results fleet' calls,
    configure_video_wall (_calculate_layouts displays) (layout_name h v)
                         adapters
    = Returns (Applied ok (layout_name h v) results, fleet', calls)
    /\ forall i k dev,
         nth_error (keys displays) i = Some k ->
         Dict.get adapters k = Some dev ->
         exists data r st' t,
           map byte_val data
           = [1; Z.of_nat h; Z.of_nat v; Z.of_nat (i mod h + 1);
              Z.of_nat (i / h + 1)]
           /\ send_command (link dev) VIDEO_WALL_MODE data true (session dev)
              = (Returns r, st', t)
           /\ Dict.get results k = Some (Answered r)
           /\ Dict.get fleet' k = Some (mkDevice st' (link dev))
           /\ In (k, t) calls.
Proof.
  intros Hnd Hh Hdiv Hh15 Hv15 v.
  assert (Hfull : (h * v = length displays)%nat).
  { unfold v. pose proof (Nat.div_mod_eq (length displays) h). lia. }
  unfold configure_video_wall.
  rewrite (planned_get displays h Hnd Hh Hdiv).
  set (layout := snd (planned displays h)).
  assert (Hmk : keys (display_mapping layout) = keys displays).
  { unfold layout, planned. cbn [snd display_mapping]. fold v.
    rewrite (mapping_keys displays Hnd). apply firstn_all2.
    unfold keys. rewrite length_map. lia. }
  destruct (configure_run layout adapters)
    as (done & E & Hk & Hf & Hun & Hin & Hcalls);
    [rewrite Hmk; exact Hnd|].
  rewrite E. cbn [bind].
  exists (all_success (results done)), (results done), (fleet done),
         (calls done).
  split; [reflexivity|].
  intros i k dev Hi Hdev.
  assert (Hlt : (i < h * v)%nat).
  { rewrite Hfull. replace (length displays) with (length (keys displays))
      by (unfold keys; apply length_map).
    apply nth_error_Some. congruence. }
  assert (Hx : In (k, cell h i) (display_mapping layout)).
  { apply get_In. unfold layout, planned. cbn [snd display_mapping]. fold v.
    apply (mapping_get displays Hnd); assumption. }
  destruct (Hin _ Hx) as (e & cs & HQ & Hr & Hcs).
  unfold configured in HQ. cbn [fst snd] in HQ. rewrite Hdev in HQ.
  destruct HQ as (r & st' & t & Ecall & -> & Hfleet & ->).
  unfold layout, planned in Ecall.
  cbn [snd horizontal vertical horizontal_position vertical_position cell]
    in Ecall.
  fold v in Ecall.
  destruct (cell_in_grid h v i ltac:(lia) Hlt) as [Hcol Hrow].
  destruct (wall_mode_cases (link dev) true (Z.of_nat h) (Z.of_nat v)
              (Z.of_nat (i mod h + 1)) (Z.of_nat (i / h + 1)) (session dev))
    as [[Hbad _]|[(_ & Hbad & _)|(_ & _ & data & Hdata & Esend)]];
    [exfalso; apply Hbad; unfold v; lia
    |exfalso; apply Hbad; lia|].
  exists data, r, st', t. split; [exact Hdata|].
  split; [rewrite <- Esend; exact Ecall|]. split; [exact Hr|].
  split; [exact Hfleet|]. apply Hcs. now left.
Qed.

Lemma planned_layout_is_sent_witness :
  exists ok results fleet' calls,
    configure_video_wall (_calculate_layouts Scripts.four_displays)
                         (layout_name 2 (4 / 2)) three_devices
    = Returns (Applied ok (layout_name 2 (4 / 2)) results, fleet', calls)
    /\ exists data r st' t,
         map byte_val data = [1; 2; 2; 2; 1]
         /\ send_command Scripts.silent VIDEO_WALL_MODE data true
                         (new_adapter 2)
            = (Returns r, st', t)
         /\ Dict.get results "B"%string = Some (Answered r).
Proof.
  destruct (planned_layout_is_sent Scripts.four_displays three_devices 2)
    as (ok & results & fleet' & calls & E & Hsent);
    [cbn; repeat constructor; cbn; intuition discriminate
    | cbn; lia | reflexivity | lia | cbn; lia |].
  exists ok, results, fleet', calls. split; [exact E|].
  destruct (Hsent 1%nat "B"%string (mkDevice (new_adapter 2) Scripts.silent)
              eq_refl eq_refl)
    as (data & r & st' & t & Hd & Es & Hr & _).
  exists data, r, st', t. auto.
Defined.

(** X12.  A layout with more than 15 columns or more than 15 rows cannot
    be applied: [configure_video_wall] makes no call on the network for
    it, every display with an adapter is answered 'Monitor count must be
    1-15', the adapters are left as they were, and the overall success
    is false as soon as the layout has a display. *)
Theorem oversized_layout_rejected {K : Type} `{Hashable K}
    (layouts : dict string (layout K)) (layout_name : string)
    (layout : layout K) (adapters : dict K device) :
  Dict.get layouts layout_name = Some layout ->
  NoDup (keys (display_mapping layout)) ->
  (15 < horizontal layout \/ 15 < vertical layout)%nat ->
  exists ok results fleet' calls,
    configure_video_wall layouts layout_name adapters
    = Returns (Applied ok layout_name results, fleet', calls)
    /\ (forall k,
          In k (keys (display_mapping layout)) ->
          Dict.get adapters k <> None ->
          Dict.get results k = Some (Answered (Failure MonitorCountRange)))
    /\ (forall k, Dict.get fleet' k = Dict.get adapters k)
    /\ (forall k t, In (k, t) calls -> t = [])
    /\ (display_mapping layout <> [] -> ok = false).
Proof.
  intros Hsome Hnd Hbig. unfold configure_video_wall. rewrite Hsome.
  destruct (configure_run layout adapters Hnd)
    as (done & E & Hk & Hf & Hun & Hin & Hcalls).
  rewrite E. cbn [bind].
  exists (all_success (results done)), (results done), (fleet done),
         (calls done).
  split; [reflexivity|].
  assert (Hrej : forall pos dev r st' t,
    set_video_wall_mode (link dev) true
      (Z.of_nat (horizontal layout)) (Z.of_nat (vertical layout))
      (Z.of_nat (horizontal_position pos))
      (Z.of_nat (vertical_position pos)) (session dev)
    = (Returns r, st', t) ->
    r = Failure MonitorCountRange /\ st' = session dev /\ t = []).
  { intros pos dev r st' t Ecall.
    destruct (wall_mode_cases (link dev) true
                (Z.of_nat (horizontal layout)) (Z.of_nat (vertical layout))
                (Z.of_nat (horizontal_position pos))
                (Z.of_nat (vertical_position pos)) (session dev))
      as [[_ Erej]|[(Hok & _)|(Hok & _)]]; [|exfalso; lia..].
    rewrite Erej in Ecall. injection Ecall as <- <- <-. auto. }
  assert (Hentry : forall x, In x (display_mapping layout) ->
    exists e, Dict.get (results done) (fst x) = Some e
              /\ entry_success e = false
              /\ (Dict.get adapters (fst x) <> None ->
                  e = Answered (Failure MonitorCountRange))
              /\ Dict.get (fleet done) (fst x) = Dict.get adapters (fst x)).
  { intros [k pos] Hx. destruct (Hin _ Hx) as (e & cs & HQ & Hr & _).
    exists e. split; [exact Hr|].
    unfold configured in HQ. cbn [fst snd] in *.
    destruct (Dict.get adapters k) as [dev|] eqn:Eg.
    - destruct HQ as (r & st' & t & Ecall & -> & -> & _).
      destruct (Hrej _ _ _ _ _ Ecall) as (-> & -> & _).
      split; [reflexivity|]. split; [reflexivity|].
      destruct dev; reflexivity.
    - destruct HQ as (-> & -> & _).
      split; [reflexivity|]. split; [congruence | reflexivity]. }
  split; [|split; [|split]].
  - intros k Hkin Hdev. unfold keys in Hkin. apply in_map_iff in Hkin.
    destruct Hkin as (x & <- & Hx).
    destruct (Hentry x Hx) as (e & Hr & _ & He & _).
    rewrite Hr, (He Hdev). reflexivity.
  - intros k.
    destruct (in_dec (fun a b : K =>
                match key_eqb a b as c
                      return (key_eqb a b = c -> {a = b} + {a <> b}) with
                | true => fun E0 => left (proj1 (key_eqb_eq a b) E0)
                | false => fun E0 => right (fun Heq =>
                    Bool.diff_true_false
                      (eq_trans (eq_sym (proj2 (key_eqb_eq a b) Heq)) E0))
                end eq_refl) k (keys (display_mapping layout)))
      as [Hkin|Hkout]; [|exact (Hun k Hkout)].
    unfold keys in Hkin. apply in_map_iff in Hkin.
    destruct Hkin as (x & <- & Hx).
    destruct (Hentry x Hx) as (_ & _ & _ & _ & Hfl). exact Hfl.
  - intros k t Hc.
    destruct (Hcalls _ Hc) as ([k0 pos] & e & od' & cs & Hx & HQ & Hcs).
    unfold configured in HQ. cbn [fst snd] in HQ.
    destruct (Dict.get adapters k0) as [dev|].
    + destruct HQ as (r & st' & t0 & Ecall & _ & _ & ->).
      destruct Hcs as [[= <- <-]|[]].
      exact (proj2 (proj2 (Hrej _ _ _ _ _ Ecall))).
    + destruct HQ as (_ & _ & ->). destruct Hcs.
  - intros Hne. destruct (display_mapping layout) as [|x rest] eqn:Em;
      [congruence|].
    destruct (Hentry x (or_introl eq_refl)) as (e & Hr & He & _).
    apply (all_success_false _ (fst x) e); [apply get_In; exact Hr|exact He].
Qed.

Lemma oversized_layout_rejected_witness :
  exists ok results fleet' calls,
    configure_video_wall wide_layouts "16x1" three_devices
    = Returns (Applied ok "16x1" results, fleet', calls)
    /\ Dict.get results "A"%string
       = Some (Answered (Failure MonitorCountRange))
    /\ ok = false.
Proof.
  destruct (oversized_layout_rejected wide_layouts "16x1"
              (mkLayout 16 1 16 (16%nat, 1%nat)
                        [("A"%string, mkPosition 1 1 (1%nat, 1%nat))])
              three_devices)
    as (ok & results & fleet' & calls & E & Hrej & _ & _ & Hok);
    [reflexivity
    | cbn; repeat constructor; cbn; intuition discriminate
    | left; cbn; lia |].
  exists ok, results, fleet', calls. split; [exact E|]. split.
  - apply Hrej; [cbn; tauto | discriminate].
  - apply Hok. discriminate.
Defined.

(** X13.  [disable_video_wall] reaches every adapter, whatever layout
    was applied before: with [enabled=False] and the defaults 1, 1, 1, 1
    the validation always passes, every adapter is sent VIDEO_WALL_MODE
    with the five bytes 0, 1, 1, 1, 1, and [results] has one entry per
    adapter, in the order of [adapters], holding what [send_command]
    returned. *)
Theorem disable_reaches_every_adapter {K : Type} `{Hashable K}
    (adapters : dict K device) :
  NoDup (keys adapters) ->
  exists ok results fleet' calls,
    disable_video_wall adapters
    = Returns (Disabled ok results, fleet', calls)
    /\ keys results = keys adapters
    /\ keys fleet' = keys adapters
    /\ ok = forallb entry_success (map snd results)
    /\ forall k dev,
         Dict.get adapters k = Some dev ->
         exists data r st' t,
           map byte_val data = [0; 1; 1; 1; 1]
           /\ send_command (link dev) VIDEO_WALL_MODE data true (session dev)
              = (Returns r, st', t)
           /\ Dict.get results k = Some (Answered r)
           /\ Dict.get fleet' k = Some (mkDevice st' (link dev))
           /\ In (k, t) calls.
Proof.
  intros Hnd. unfold disable_video_wall.
  destruct (wall_fold fst disable_step disabled (keys adapters) adapters
              (disable_step_spec adapters) adapters (mkRun [] adapters []))
    as (done & E & Hk & Hf & _ & _ & Hin & _);
    [apply incl_refl | exact Hnd | reflexivity |].
  rewrite E. cbn [bind].
  exists (all_success (results done)), (results done), (fleet done),
         (calls done).
  split; [reflexivity|]. split; [exact Hk|]. split; [exact Hf|].
  split; [reflexivity|].
  intros k dev Hdev. apply get_In in Hdev as Hx.
  assert (Hsame : forall dev', In (k, dev') adapters -> dev' = dev).
  { intros dev' Hx'. destruct (In_nth_error _ _ Hx') as [j Hj].
    pose proof (get_nth _ _ _ _ Hnd Hj). congruence. }
  destruct (Hin _ Hx) as (e & cs & HQ & Hr & Hcs).
  unfold disabled in HQ. cbn [fst snd] in *.
  destruct HQ as (r & st' & t & Ecall & -> & Hfleet & ->).
  destruct (wall_mode_cases (link dev) false 1 1 1 1 (session dev))
    as [[Hbad _]|[(_ & Hbad & _)|(_ & _ & data & Hdata & Esend)]];
    [exfalso; apply Hbad; lia | exfalso; apply Hbad; lia|].
  exists data, r, st', t. split; [exact Hdata|].
  split; [rewrite <- Esend; exact Ecall|]. split; [exact Hr|].
  split; [exact Hfleet|]. apply Hcs. now left.
Qed.

Lemma disable_reaches_every_adapter_witness :
  NoDup (keys three_devices)
  /\ exists ok results fleet' calls,
       disable_video_wall three_devices
       = Returns (Disabled ok results, fleet', calls)
       /\ keys results = ["A"; "B"; "D"]%string
       /\ exists data r st' t,
            map byte_val data = [0; 1; 1; 1; 1]
            /\ send_command Scripts.dead VIDEO_WALL_MODE data true
                            (new_adapter 4)
               = (Returns r, st', t)
            /\ Dict.get results "D"%string = Some (Answered r).
Proof.
  assert (Hnd : NoDup (keys three_devices))
    by (cbn; repeat constructor; cbn; intuition discriminate).
  split; [exact Hnd|].
  destruct (disable_reaches_every_adapter three_devices Hnd)
    as (ok & results & fleet' & calls & E & Hk & _ & _ & Hevery).
  exists ok, results, fleet', calls. split; [exact E|].
  split; [exact Hk|].
  destruct (Hevery "D"%string (mkDevice (new_adapter 4) Scripts.dead)
              eq_refl)
    as (data & r & st' & t & Hd & Es & Hr & _).
  exists data, r, st', t. auto.
Defined.

End WallExtras.

(** ** The configuration wizard *)

Module WizardExtras.
Import Dict VideoWallConfigWizard DictFacts DictExtras.
Local Open Scope nat_scope.

Lemma keys_numbered {A B} (f : nat -> A -> B) (l : list A) (s : nat) :
  keys (map (fun x => (fst x, f (fst x) (snd x)))
            (combine (seq s (length l)) l))
  = seq s (length l).
Proof.
  unfold keys. rewrite map_map. cbn [fst].
  revert s. induction l as [|a l IH]; intros s; cbn; [reflexivity|].
  rewrite IH. reflexivity.
Qed.

Lemma nth_error_numbered {A} (l : list A) (s i : nat) (a : A) :
  nth_error l i = Some a ->
  nth_error (combine (seq s (length l)) l) i = Some (s + i, a).
Proof.
  revert s i. induction l as [|x l IH]; intros s [|i] Hi; try discriminate.
  - cbn in *. injection Hi as ->. rewrite Nat.add_0_r. reflexivity.
  - cbn in *. rewrite (IH (S s) i Hi). f_equal. f_equal. lia.
Qed.

Lemma in_numbered {A} (l : list A) (s i : nat) (a : A) :
  In (i, a) (combine (seq s (length l)) l) ->
  s <= i /\ nth_error l (i - s) = Some a.
Proof.
  revert s. induction l as [|x l IH]; intros s Hin; [destruct Hin|].
  cbn in Hin. destruct Hin as [[= <- <-]|Hin].
  - rewrite Nat.sub_diag. split; [lia | reflexivity].
  - destruct (IH (S s) Hin) as [Hle Hn]. split; [lia|].
    replace (i - s) with (S (i - S s)) by lia. exact Hn.
Qed.

(** The loop when every selected display has an address. *)
Lemma config_fold (h : nat) :
  forall sel s acc,
  Forall (fun d => ip d <> Absent) sel ->
  (forall k, In k (keys acc) -> k < s) ->
  fold_left (config_step h) (combine (seq s (length sel)) sel) (Done acc)
  = Done (acc ++ map (fun x => (fst x, build_entry h (fst x) (snd x)))
                     (combine (seq s (length sel)) sel)).
Proof.
  induction sel as [|d sel IH]; intros s acc Hall Hacc; cbn.
  - rewrite app_nil_r. reflexivity.
  - inversion Hall as [|? ? Hd Hrest]; subst.
    assert (Hfresh : ~ In s (keys acc))
      by (intros Hin; apply Hacc in Hin; lia).
    assert (Estep : match ip d with
                    | Absent => KeyError "ip"
                    | _ => Done (set acc s (build_entry h s d))
                    end = Done (acc ++ [(s, build_entry h s d)])).
    { rewrite set_fresh by exact Hfresh.
      destruct (ip d) eqn:Ed;
        [exfalso; exact (Hd eq_refl) | reflexivity | reflexivity]. }
    rewrite Estep, IH; [rewrite <- app_assoc; reflexivity | exact Hrest |].
    intros k Hk. unfold keys in Hk. rewrite map_app in Hk.
    apply in_app_or in Hk. destruct Hk as [Hk|[<-|[]]]; [|cbn; lia].
    apply Hacc in Hk. lia.
Qed.

Lemma config_fold_raised (h : nat) (items : list (nat * discovered))
    (key : string) :
  fold_left (config_step h) items (KeyError key) = KeyError key.
Proof. induction items as [|x items IH]; cbn; [reflexivity | exact IH]. Qed.

(** The loop when a selected display has none. *)
Lemma config_fold_missing (h : nat) :
  forall sel s acc,
  Exists (fun d => ip d = Absent) sel ->
  fold_left (config_step h) (combine (seq s (length sel)) sel) (Done acc)
  = KeyError "ip".
Proof.
  induction sel as [|d sel IH]; intros s acc Hex; [inversion Hex|].
  cbn. destruct (ip d) eqn:Ed.
  - apply config_fold_raised.
  - apply IH. inversion Hex; subst; [congruence | assumption].
  - apply IH. inversion Hex; subst; [congruence | assumption].
Qed.

Lemma address_missing_or_not (sel : list discovered) :
  Forall (fun d => ip d <> Absent) sel
  \/ Exists (fun d => ip d = Absent) sel.
Proof.
  induction sel as [|d sel [IH|IH]].
  - left. constructor.
  - destruct (ip d) eqn:Ed;
      [right; now constructor | left; constructor; [congruence|exact IH]..].
  - right. now apply Exists_cons_tl.
Qed.

(** X14.  [generate_config] on discovered displays that all have an
    address: the first [h * v] of them are configured, numbered from 1
    in the order of discovery; display number [i + 1] keeps the address
    of the [i]-th discovered display and is placed in column
    [i mod h + 1], row [i div h + 1], the cell the layout planner gives
    the [i]-th display; the positions lie in the grid and no two
    displays share one.  The video wall is enabled when more than one
    display was discovered. *)
Theorem generate_config_positions (found : list discovered) (h v : nat) :
  Forall (fun d => ip d <> Absent) (firstn (h * v) found) ->
  exists cfg,
    generate_config found (h, v) = Done cfg
    /\ keys (displays cfg) = seq 1 (Nat.min (h * v) (length found))
    /\ video_wall_enabled cfg = (1 <? length found)
    /\ video_wall_layout cfg = (h, v)
    /\ (forall i d,
          nth_error found i = Some d -> i < h * v ->
          exists e,
            get (displays cfg) (i + 1) = Some e
            /\ config_ip e = ip d
            /\ video_wall_position e = (i mod h + 1, i / h + 1)
            /\ video_wall_position e
               = (VideoWallLayoutManager.horizontal_position
                    (Notions.cell h i),
                  VideoWallLayoutManager.vertical_position
                    (Notions.cell h i))
            /\ (1 <= i mod h + 1 <= h /\ 1 <= i / h + 1 <= v))
    /\ (forall i j e e',
          get (displays cfg) i = Some e ->
          get (displays cfg) j = Some e' ->
          video_wall_position e = video_wall_position e' -> i = j).
Proof.
  intros Hall. unfold generate_config. cbv beta iota zeta.
  set (sel := firstn (h * v) found) in *.
  assert (Hlen : length sel = Nat.min (h * v) (length found))
    by (unfold sel; apply length_firstn).
  pose proof (config_fold h sel 1 [] Hall) as Hfold.
  unfold dict in Hfold |- *. rewrite Hfold by (intros k []).
  cbn [app].
  set (entries := map (fun x => (fst x, build_entry h (fst x) (snd x)))
                      (combine (seq 1 (length sel)) sel)).
  assert (Hkeys : keys entries = seq 1 (length sel))
    by (apply keys_numbered).
  assert (Hnd : NoDup (keys entries))
    by (rewrite Hkeys; apply seq_NoDup).
  eexists. split; [reflexivity|]. cbn [displays video_wall_enabled
                                       video_wall_layout].
  split; [rewrite Hkeys, Hlen; reflexivity|].
  split; [reflexivity|]. split; [reflexivity|]. split.
  - intros i d Hi Hlt.
    assert (Hh : 1 <= h) by (destruct h; [cbn in Hlt|]; lia).
    assert (Hsel : nth_error sel i = Some d).
    { unfold sel. rewrite nth_error_firstn.
      replace (i <? h * v) with true
        by (symmetry; apply Nat.ltb_lt; exact Hlt).
      exact Hi. }
    exists (build_entry h (i + 1) d). split.
    + apply (get_nth _ i); [exact Hnd|].
      unfold entries. rewrite nth_error_map.
      rewrite (nth_error_numbered sel 1 i d Hsel). cbn [option_map fst snd].
      replace (1 + i) with (i + 1) by lia. reflexivity.
    + unfold build_entry. cbn [config_ip video_wall_position].
      replace (i + 1 - 1) with i by lia.
      split; [reflexivity|]. split; [reflexivity|]. split; [reflexivity|].
      pose proof (Nat.mod_upper_bound i h ltac:(lia)).
      assert (i / h < v) by (apply Nat.Div0.div_lt_upper_bound; lia).
      lia.
  - intros i j e e' Hgi Hgj Hpos.
    assert (Hfind : forall k x, get entries k = Some x ->
              1 <= k /\ k - 1 < h * v
              /\ video_wall_position x = ((k - 1) mod h + 1, (k - 1) / h + 1)).
    { intros k x Hg. apply get_In in Hg. unfold entries in Hg.
      apply in_map_iff in Hg. destruct Hg as ([k0 d] & [= <- <-] & Hin).
      apply in_numbered in Hin. destruct Hin as [Hle Hn]. cbn [fst snd].
      split; [lia|]. split; [|reflexivity].
      assert (k0 - 1 < length sel) by (apply nth_error_Some; congruence).
      lia. }
    destruct (Hfind i e Hgi) as (Hi1 & Hilt & Pi).
    destruct (Hfind j e' Hgj) as (Hj1 & _ & Pj).
    rewrite Pi, Pj in Hpos. injection Hpos as Hm Hd.
    assert (i - 1 = j - 1).
    { rewrite (Nat.div_mod_eq (i - 1) h), (Nat.div_mod_eq (j - 1) h).
      assert ((i - 1) mod h = (j - 1) mod h) by lia.
      assert ((i - 1) / h = (j - 1) / h) by lia. congruence. }
    lia.
Qed.

Lemma generate_config_positions_witness :
  Forall (fun d => ip d <> Absent) (firstn (2 * 2) five_found)
  /\ exists cfg,
       generate_config five_found (2, 2) = Done cfg
       /\ keys (displays cfg) = [1; 2; 3; 4]
       /\ exists e,
            get (displays cfg) (2 + 1) = Some e
            /\ config_ip e = Text "192.168.1.103"
            /\ video_wall_position e = (1, 2).
Proof.
  assert (Hall : Forall (fun d => ip d <> Absent)
                        (firstn (2 * 2) five_found))
    by (cbn; repeat constructor; cbn; discriminate).
  split; [exact Hall|].
  destruct (generate_config_positions five_found 2 2 Hall)
    as (cfg & E & Hk & _ & _ & Hpos & _).
  exists cfg. split; [exact E|]. split; [exact Hk|].
  destruct (Hpos 2 (mkDiscovered (Text "192.168.1.103") Absent Absent)
              eq_refl ltac:(lia))
    as (e & Hg & Hip & Hp & _).
  exists e. auto.
Defined.

(** X15.  [generate_config] raises [KeyError('ip')] exactly when one of
    the first [h * v] discovered displays has no 'ip' key, and returns a
    configuration otherwise; displays beyond the first [h * v] are never
    read, so that a missing address there goes unnoticed. *)
Theorem generate_config_key_error (found : list discovered) (h v : nat) :
  (generate_config found (h, v) = KeyError "ip"
   <-> Exists (fun d => ip d = Absent) (firstn (h * v) found))
  /\ ((exists cfg, generate_config found (h, v) = Done cfg)
      <-> Forall (fun d => ip d <> Absent) (firstn (h * v) found)).
Proof.
  assert (Hyes : Forall (fun d => ip d <> Absent) (firstn (h * v) found) ->
                 exists cfg, generate_config found (h, v) = Done cfg).
  { intros Hall. unfold generate_config. cbv beta iota zeta.
    pose proof (config_fold h _ 1 [] Hall) as Hfold.
    unfold dict in Hfold |- *. rewrite Hfold by (intros k []).
    eexists. reflexivity. }
  assert (Hno : Exists (fun d => ip d = Absent) (firstn (h * v) found) ->
                generate_config found (h, v) = KeyError "ip").
  { intros Hex. unfold generate_config. cbv beta iota zeta.
    pose proof (config_fold_missing h _ 1 [] Hex) as Hfold.
    unfold dict in Hfold |- *. rewrite Hfold. reflexivity. }
  split; split.
  - intros E. destruct (address_missing_or_not (firstn (h * v) found))
      as [Hall|Hex]; [|exact Hex].
    destruct (Hyes Hall) as [cfg Ecfg]. congruence.
  - exact Hno.
  - intros [cfg E]. destruct (address_missing_or_not (firstn (h * v) found))
      as [Hall|Hex]; [exact Hall|].
    rewrite (Hno Hex) in E. discriminate.
  - exact Hyes.
Qed.

Lemma generate_config_key_error_witness :
  generate_config five_found (5, 1) = KeyError "ip"
  /\ exists cfg, generate_config five_found (2, 2) = Done cfg.
Proof.
  split.
  - apply (proj1 (generate_config_key_error five_found 5 1)).
    cbn. do 4 apply Exists_cons_tl. apply Exists_cons_hd. reflexivity.
  - apply (proj2 (generate_config_key_error five_found 2 2)).
    cbn. repeat constructor; cbn; discriminate.
Defined.

End WizardExtras.

(** ** The health check *)

Module HealthFacts.
Import Codec Session Queries HealthCheck Notions MoreNotions HealthNotions.
Import PyFacts SessionFacts SessionExtras.

(** [send_command] returns; it answers a success, or the failure of the
    exhausted loop. *)
Lemma send_command_summary tr command data expect st :
  exists r st' t,
    send_command tr command data expect st = (Returns r, st', t)
    /\ display_id st' = display_id st
    /\ max_retries st' = max_retries st
    /\ (length (filter is_write t) <= max_retries st)%nat
    /\ (success r = true
        \/ r = Failure (FailedAfter (max_retries st))).
Proof.
  destruct (retry_loop_discipline tr command data expect (display_id st)
              (max_retries st) (seq 0 (max_retries st)) st eq_refl eq_refl)
    as (o & st' & t & E & Hid & Hm & _ & Hnw & _).
  destruct (retry_loop_shape tr command data expect (max_retries st)
              (max_retries st) 0 st eq_refl)
    as (o' & st'' & t' & E' & _ & Ho).
  rewrite E in E'. injection E' as <- <- <-.
  rewrite length_seq in Hnw.
  unfold send_command, bindM, Session.get, ret. rewrite E.
  destruct o as [r|]; cbn; rewrite app_nil_r;
    do 3 eexists; (split; [reflexivity|]);
    repeat split; try assumption; [left; exact Ho | right; congruence].
Qed.

(** The queries: what [send_command] returned, with the key added. *)
Lemma get_temperature_reply tr st r st' t :
  send_command tr CURRENT_TEMP [] true st = (Returns r, st', t) ->
  get_temperature tr st
  = (Returns (mkReply r (temperature_of r)), st', t).
Proof.
  intros E. unfold get_temperature, bindM. rewrite E.
  destruct r as [cmd data raw| |err];
    try (cbn; rewrite ?app_nil_r; reflexivity).
  destruct data as [|b data]; [cbn; rewrite ?app_nil_r; reflexivity|].
  assert (Hlen : (len (b :: data) >=? 1) = true)
    by (unfold len; cbn [length]; rewrite Z.geb_leb; apply Z.leb_le; lia).
  rewrite Hlen. cbn. rewrite ?app_nil_r. reflexivity.
Qed.

Lemma get_model_number_reply tr st r st' t :
  send_command tr MODEL_NUMBER [] true st = (Returns r, st', t) ->
  get_model_number tr st = (Returns (mkReply r (text_of r)), st', t).
Proof.
  intros E. unfold get_model_number, bindM. rewrite E.
  destruct r; cbn; rewrite ?app_nil_r; reflexivity.
Qed.

Lemma get_serial_number_reply tr st r st' t :
  send_command tr SERIAL_NUMBER [] true st = (Returns r, st', t) ->
  get_serial_number tr st = (Returns (mkReply r (text_of r)), st', t).
Proof.
  intros E. unfold get_serial_number, bindM. rewrite E.
  destruct r; cbn; rewrite ?app_nil_r; reflexivity.
Qed.

Lemma get_software_version_reply tr st r st' t :
  send_command tr SOFTWARE_VERSION [] true st = (Returns r, st', t) ->
  get_software_version tr st = (Returns (mkReply r (text_of r)), st', t).
Proof.
  intros E. unfold get_software_version, bindM. rewrite E.
  destruct r; cbn; rewrite ?app_nil_r; reflexivity.
Qed.

(** A temperature is one byte. *)
Lemma temperature_of_range (r : result) (v : Z) :
  temperature_of r = Some v -> success r = true /\ 0 <= v <= 255.
Proof.
  destruct r as [cmd [|b data] raw| |err]; cbn; try discriminate.
  intros [= <-]. split; [reflexivity|]. apply byte_val_range.
Qed.

(** The inner [try] block never reaches its handler: the three queries
    are made in order, whatever they return. *)
Lemma gather_info_run net hd st1 r2 st2 t2 r3 st3 t3 r4 st4 t4 :
  send_command (on_model_number net) MODEL_NUMBER [] true st1
  = (Returns r2, st2, t2) ->
  send_command (on_serial_number net) SERIAL_NUMBER [] true st2
  = (Returns r3, st3, t3) ->
  send_command (on_software_version net) SOFTWARE_VERSION [] true st3
  = (Returns r4, st4, t4) ->
  gather_info net hd st1
  = (Returns tt,
     (if success r4 then Health.with_software_version (text_of r4)
      else fun h => h)
       ((if success r3 then Health.with_serial_number (text_of r3)
         else fun h => h)
          ((if success r2 then Health.with_model (text_of r2)
            else fun h => h) hd)),
     st4, t2 ++ t3 ++ t4).
Proof.
  intros E2 E3 E4. unfold gather_info, bindH, call, whenH, update, retH.
  rewrite (get_model_number_reply _ _ _ _ _ E2). cbn [returned added].
  destruct (success r2);
    rewrite (get_serial_number_reply _ _ _ _ _ E3); cbn [returned added];
    destruct (success r3);
    rewrite (get_software_version_reply _ _ _ _ _ E4); cbn [returned added];
    destruct (success r4); cbn [app]; rewrite ?app_nil_r; reflexivity.
Qed.

(** The two ways a health check goes: the connection cannot be opened
    and nothing is sent, or the four queries are made in order. *)
Lemma health_check_cases net st :
  (connected st = false /\ on_connect net = false
   /\ health_check net st
      = (Returns (unreachable_report st), set_connected false st,
         [OpenConnection; Log ERROR LogConnectFailed]))
  \/ ((connected st = true \/ on_connect net = true)
      /\ exists r1 st1 t1 r2 st2 t2 r3 st3 t3 r4 st4 t4,
           send_command (on_temperature net) CURRENT_TEMP [] true
                        (after_connect st)
           = (Returns r1, st1, t1)
           /\ send_command (on_model_number net) MODEL_NUMBER [] true st1
              = (Returns r2, st2, t2)
           /\ send_command (on_serial_number net) SERIAL_NUMBER [] true st2
              = (Returns r3, st3, t3)
           /\ send_command (on_software_version net) SOFTWARE_VERSION []
                           true st3
              = (Returns r4, st4, t4)
           /\ health_check net st
              = (Returns (report st r1 r2 r3 r4), st4,
                 connect_trace st ++ t1 ++ t2 ++ t3 ++ t4)).
Proof.
  destruct (connected st) eqn:Hc; [|destruct (on_connect net) eqn:Ho].
  3:{ left. split; [reflexivity|]. split; [reflexivity|].
      unfold health_check, catchH, check_body, bindH, call, whenH,
        Session.get, retH.
      rewrite Hc. cbn [negb]. rewrite Ho.
      unfold connect, bindM, emit, modify, ret. cbn.
      reflexivity. }
  all: right; (split; [auto|]).
  all: destruct (send_command_summary (on_temperature net) CURRENT_TEMP []
                   true (after_connect st))
         as (r1 & st1 & t1 & E1 & _);
       destruct (send_command_summary (on_model_number net) MODEL_NUMBER []
                   true st1) as (r2 & st2 & t2 & E2 & _);
       destruct (send_command_summary (on_serial_number net) SERIAL_NUMBER
                   [] true st2) as (r3 & st3 & t3 & E3 & _);
       destruct (send_command_summary (on_software_version net)
                   SOFTWARE_VERSION [] true st3)
         as (r4 & st4 & t4 & E4 & _);
       exists r1, st1, t1, r2, st2, t2, r3, st3, t3, r4, st4, t4;
       (split; [exact E1|]); (split; [exact E2|]); (split; [exact E3|]);
       (split; [exact E4|]).
  - unfold after_connect, connect_trace in *. rewrite Hc in *.
    unfold health_check, check_body.
    unfold catchH, bindH, call, whenH, update, Session.get, retH.
    cbv beta iota zeta. rewrite Hc. cbn [negb]. cbv beta iota zeta.
    rewrite Hc. cbv beta iota zeta.
    rewrite (get_temperature_reply _ _ _ _ _ E1). cbn [returned added].
    cbv beta iota zeta.
    destruct (success r1) eqn:S1; cbv beta iota zeta;
      rewrite (gather_info_run net _ _ _ _ _ _ _ _ _ _ _ E2 E3 E4);
      cbv beta iota zeta.
    all: cbn [app]; unfold report;
      destruct r1 as [? [|? ?] ?| |?], r2, r3, r4; cbn in S1 |- *;
      try discriminate S1; reflexivity.
  - unfold after_connect, connect_trace in *. rewrite Hc in *.
    unfold health_check, check_body.
    unfold catchH, bindH, call, whenH, update, Session.get, retH.
    cbv beta iota zeta. rewrite Hc. cbn [negb]. cbv beta iota zeta.
    rewrite Ho. unfold connect, bindM, emit, modify, ret.
    cbv beta iota zeta. cbn [connected set_error_count set_connected].
    cbv beta iota zeta.
    rewrite (get_temperature_reply _ _ _ _ _ E1). cbn [returned added].
    cbv beta iota zeta.
    destruct (success r1) eqn:S1; cbv beta iota zeta;
      rewrite (gather_info_run net _ _ _ _ _ _ _ _ _ _ _ E2 E3 E4);
      cbv beta iota zeta.
    all: cbn [app]; unfold report;
      destruct r1 as [? [|? ?] ?| |?], r2, r3, r4; cbn in S1 |- *;
      try discriminate S1; reflexivity.
Qed.

(** What a [send_command] that returned has left of the adapter. *)
Lemma send_command_facts tr command data expect st r st' t :
  send_command tr command data expect st = (Returns r, st', t) ->
  display_id st' = display_id st
  /\ max_retries st' = max_retries st
  /\ (length (filter is_write t) <= max_retries st)%nat
  /\ (success r = true \/ r = Failure (FailedAfter (max_retries st))).
Proof.
  intros E.
  destruct (send_command_summary tr command data expect st)
    as (r0 & st0 & t0 & E0 & H).
  rewrite E in E0. injection E0 as <- <- <-. exact H.
Qed.

Lemma after_connect_fields (st : adapter) :
  display_id (after_connect st) = display_id st
  /\ max_retries (after_connect st) = max_retries st.
Proof. unfold after_connect. destruct (connected st); auto. Qed.

Lemma after_connect_connected (st : adapter) :
  connected (after_connect st) = true.
Proof.
  unfold after_connect. destruct (connected st) eqn:E; [exact E|].
  reflexivity.
Qed.

Lemma after_connect_reachable (st : adapter) :
  reachable st -> reachable (after_connect st).
Proof.
  intros R. unfold after_connect. destruct (connected st); [exact R|].
  apply (reachable_connect st _ true (Returns true)
           [OpenConnection; Log INFO LogConnected] R).
  reflexivity.
Qed.

(** A health check leaves the adapter in a state that [connect] and
    [send_command] calls lead to. *)
Lemma health_check_reachable net st o st' t :
  reachable st -> health_check net st = (o, st', t) -> reachable st'.
Proof.
  intros R E.
  destruct (health_check_cases net st)
    as [(_ & _ & E0)
       |(_ & r1 & st1 & t1 & r2 & st2 & t2 & r3 & st3 & t3 & r4 & st4 & t4
           & E1 & E2 & E3 & E4 & E0)];
    rewrite E0 in E; injection E as <- <- <-.
  - apply (reachable_connect st _ false (Returns false)
             [OpenConnection; Log ERROR LogConnectFailed] R).
    reflexivity.
  - apply after_connect_reachable in R.
    pose proof (reachable_send _ _ _ _ _ _ _ _ R E1) as R1.
    pose proof (reachable_send _ _ _ _ _ _ _ _ R1 E2) as R2.
    pose proof (reachable_send _ _ _ _ _ _ _ _ R2 E3) as R3.
    exact (reachable_send _ _ _ _ _ _ _ _ R3 E4).
Qed.

End HealthFacts.

Module HealthExtras.
Import Codec Session Queries HealthCheck HealthMonitoring.
Import Notions MoreNotions HealthNotions.
Import PyFacts SessionFacts SessionExtras HealthFacts.
Local Open Scope string_scope.

(** X16.  [health_check] never raises and never fills in ['error']:
    its two handlers are not reached.  If the adapter is not connected
    and the connection cannot be opened, nothing is sent.  Otherwise
    the check asks four things through [send_command], each with an
    empty payload and expecting a response, in this order:
    CURRENT_TEMP, MODEL_NUMBER, SERIAL_NUMBER, SOFTWARE_VERSION.  Each
    query starts from the adapter as the one before left it and is made
    whatever the ones before returned; the health data are read off the
    four results, and ['error_count'] and ['last_response'] are those
    of the adapter before the check. *)
Theorem health_check_queries net st :
  (connected st = false /\ on_connect net = false
   /\ health_check net st
      = (Returns (unreachable_report st), set_connected false st,
         [OpenConnection; Log ERROR LogConnectFailed]))
  \/ ((connected st = true \/ on_connect net = true)
      /\ exists r1 st1 t1 r2 st2 t2 r3 st3 t3 r4 st4 t4,
           send_command (on_temperature net) CURRENT_TEMP [] true
                        (after_connect st)
           = (Returns r1, st1, t1)
           /\ send_command (on_model_number net) MODEL_NUMBER [] true st1
              = (Returns r2, st2, t2)
           /\ send_command (on_serial_number net) SERIAL_NUMBER [] true st2
              = (Returns r3, st3, t3)
           /\ send_command (on_software_version net) SOFTWARE_VERSION []
                           true st3
              = (Returns r4, st4, t4)
           /\ health_check net st
              = (Returns (report st r1 r2 r3 r4), st4,
                 connect_trace st ++ t1 ++ t2 ++ t3 ++ t4)%list).
Proof. exact (health_check_cases net st). Qed.

(** X17.  The health data are consistent, whatever the network
    answers: ['connected'] is true exactly when the adapter was
    connected or the connection opened; ['responsive'] implies
    ['connected']; a temperature is reported only for a responsive
    display and is one byte; model, serial number and version are
    reported only when connected; and the check writes at most
    4 * [max_retries] frames, none when it reports not connected. *)
Theorem health_data_consistent net st :
  exists hd st' t,
    health_check net st = (Returns hd, st', t)
    /\ Health.error hd = None
    /\ Health.display_id hd = display_id st
    /\ Health.connected hd = connected st || on_connect net
    /\ (Health.responsive hd = true -> Health.connected hd = true)
    /\ (forall v, Health.temperature hd = Some v ->
          Health.responsive hd = true /\ (0 <= v <= 255)%Z)
    /\ (Health.connected hd = false ->
        Health.model hd = None /\ Health.serial_number hd = None
        /\ Health.software_version hd = None
        /\ filter is_write t = [])
    /\ (length (filter is_write t) <= 4 * max_retries st)%nat
    /\ display_id st' = display_id st
    /\ max_retries st' = max_retries st.
Proof.
  destruct (health_check_cases net st)
    as [(Hc & Ho & E0)
       |(Hc & r1 & st1 & t1 & r2 & st2 & t2 & r3 & st3 & t3 & r4 & st4 & t4
           & E1 & E2 & E3 & E4 & E0)];
    rewrite E0; do 3 eexists; (split; [reflexivity|]).
  - rewrite Hc, Ho. cbn. repeat split; try discriminate; try lia.
  - destruct (after_connect_fields st) as [Hid0 Hm0].
    destruct (send_command_facts _ _ _ _ _ _ _ _ E1)
      as (Hid1 & Hm1 & Hw1 & _).
    destruct (send_command_facts _ _ _ _ _ _ _ _ E2)
      as (Hid2 & Hm2 & Hw2 & _).
    destruct (send_command_facts _ _ _ _ _ _ _ _ E3)
      as (Hid3 & Hm3 & Hw3 & _).
    destruct (send_command_facts _ _ _ _ _ _ _ _ E4)
      as (Hid4 & Hm4 & Hw4 & _).
    cbn [report Health.error Health.display_id Health.connected
         Health.responsive Health.temperature Health.model
         Health.serial_number Health.software_version].
    split; [reflexivity|]. split; [reflexivity|].
    split; [destruct Hc as [-> | ->];
            [reflexivity | symmetry; apply orb_true_r]|].
    split; [reflexivity|].
    split; [intros v Hv; apply temperature_of_range in Hv; exact Hv|].
    split; [discriminate|].
    split; [|split; congruence].
    rewrite !filter_app, !length_app.
    assert (length (filter is_write (connect_trace st)) = 0)%nat
      by (unfold connect_trace; destruct (connected st); reflexivity).
    lia.
Qed.

(** X18.  The alert on the error count is never raised for the health
    data of an adapter whose methods are called one after the other: its
    error count is at most 1, below the threshold of 3.  The health
    check keeps the adapter among the states that [connect] and
    [send_command] calls lead to, so that this holds for every round of
    monitoring. *)
Theorem error_count_alert_unreachable (one_decimal : Z -> string) net st
    (current_time : Z) :
  reachable st ->
  exists hd st' t,
    health_check net st = (Returns hd, st', t)
    /\ reachable st'
    /\ (Health.error_count hd <= 1)%nat
    /\ check_error_count hd = []
    /\ health_alerts one_decimal hd current_time
       = (check_temperature hd ++ check_connectivity hd
          ++ check_response_time one_decimal hd current_time)%list.
Proof.
  intros R.
  destruct (reachable_error_count st R) as [Hle _].
  destruct (health_check net st) as [[o st'] t] eqn:E.
  pose proof (health_check_reachable net st o st' t R E) as R'.
  assert (Hhd : exists hd, o = Returns hd
                           /\ Health.error_count hd = error_count st).
  { destruct (health_check_cases net st)
      as [(_ & _ & E0)
         |(_ & r1 & st1 & t1 & r2 & st2 & t2 & r3 & st3 & t3 & r4 & st4
             & t4 & _ & _ & _ & _ & E0)];
      rewrite E0 in E; injection E as <- <- <-;
      eexists; split; reflexivity. }
  destruct Hhd as (hd & -> & Hec).
  exists hd, st', t. split; [reflexivity|]. split; [exact R'|].
  split; [lia|].
  assert (Hnone : check_error_count hd = []).
  { unfold check_error_count, error_count_warning.
    replace (3 <=? Health.error_count hd)%nat with false
      by (symmetry; apply Nat.leb_gt; lia).
    reflexivity. }
  split; [exact Hnone|].
  unfold health_alerts. rewrite Hnone, !app_nil_r. reflexivity.
Qed.

Lemma error_count_alert_unreachable_witness :
  exists hd st' t,
    health_check (uniform false Scripts.dead) (new_adapter 1)
    = (Returns hd, st', t)
    /\ check_error_count hd = [].
Proof.
  destruct (error_count_alert_unreachable (fun _ => EmptyString)
              (uniform false Scripts.dead) (new_adapter 1) 0
              (reachable_new 1))
    as (hd & st' & t & E & _ & _ & Hnone & _).
  exists hd, st', t. split; [exact E | exact Hnone].
Defined.

(** X19.  What the health check makes of the connectivity.  A display
    whose connection cannot be opened is reported with the error
    'Display N not connected', and nothing was written to it.  A
    display that is connected is reported with the warning 'Display N
    not responding' exactly when the temperature query failed after
    [max_retries] attempts, and with nothing when that query returned a
    success. *)
Theorem connectivity_verdict net st :
  exists hd st' t,
    health_check net st = (Returns hd, st', t)
    /\ ((connected st = false /\ on_connect net = false
         /\ check_connectivity hd
            = [("error",
                "Display " ++ str (display_id st) ++ " not connected")]
         /\ filter is_write t = [])
        \/ ((connected st = true \/ on_connect net = true)
            /\ exists r1 st1 t1,
                 send_command (on_temperature net) CURRENT_TEMP [] true
                              (after_connect st)
                 = (Returns r1, st1, t1)
                 /\ ((r1 = Failure (FailedAfter (max_retries st))
                      /\ check_connectivity hd
                         = [("warning",
                             "Display " ++ str (display_id st)
                             ++ " not responding")])
                     \/ (success r1 = true
                         /\ check_connectivity hd = [])))).
Proof.
  destruct (health_check_cases net st)
    as [(Hc & Ho & E0)
       |(Hc & r1 & st1 & t1 & r2 & st2 & t2 & r3 & st3 & t3 & r4 & st4 & t4
           & E1 & E2 & E3 & E4 & E0)];
    rewrite E0; do 3 eexists; (split; [reflexivity|]).
  - left. repeat split; assumption.
  - right. split; [exact Hc|]. exists r1, st1, t1. split; [exact E1|].
    destruct (send_command_facts _ _ _ _ _ _ _ _ E1)
      as (_ & _ & _ & [Hs|Hf]).
    + right. split; [exact Hs|].
      unfold check_connectivity. cbn. rewrite Hs. reflexivity.
    + left. rewrite (proj2 (after_connect_fields st)) in Hf.
      split; [exact Hf|]. rewrite Hf. reflexivity.
Qed.

(** X20.  A display that answers the temperature query with bytes that
    do not decode, or that closes the stream (an empty read), counts as
    responsive: [send_command] reports such a command as sent, so that
    the health data say ['responsive'] with no temperature, and neither
    the connectivity check nor the temperature check raises an alert. *)
Theorem undecodable_answer_counts_as_responsive net st packet response n :
  (connected st = true \/ on_connect net = true) ->
  max_retries st = S n ->
  _create_mdc_packet (display_id st) CURRENT_TEMP [] = Returns packet ->
  write (on_temperature net) 0 = None ->
  drain (on_temperature net) 0 = None ->
  read (on_temperature net) 0 = Data response ->
  (response = []
   \/ exists err,
        _parse_mdc_response (display_id st) response
        = Returns (Failure err)) ->
  exists hd st' t,
    health_check net st = (Returns hd, st', t)
    /\ Health.connected hd = true
    /\ Health.responsive hd = true
    /\ Health.temperature hd = None
    /\ check_connectivity hd = []
    /\ check_temperature hd = [].
Proof.
  intros Hc Hn Hp Hw Hd Hr Hbad.
  destruct (after_connect_fields st) as [Hid0 Hm0].
  assert (Hsent : exists st1 t1,
            send_command (on_temperature net) CURRENT_TEMP [] true
                         (after_connect st)
            = (Returns Sent, st1, t1)).
  { destruct Hbad as [-> | [err Herr]].
    - do 2 eexists.
      eapply send_command_first_returns with (n := n); [congruence|].
      rewrite (attempt_reads _ _ _ _ _ packet []);
        [reflexivity | left; apply after_connect_connected
        | congruence | assumption..].
    - destruct response as [|b response].
      + do 2 eexists.
        eapply send_command_first_returns with (n := n); [congruence|].
        rewrite (attempt_reads _ _ _ _ _ packet []);
          [reflexivity | left; apply after_connect_connected
          | congruence | assumption..].
      + do 2 eexists.
        apply (decode_failure_not_retried _ _ _ _ packet (b :: response)
                 err n);
          [congruence | left; apply after_connect_connected | congruence
          | assumption | assumption | assumption | discriminate
          | congruence]. }
  destruct Hsent as (st1' & t1' & Esent).
  destruct (health_check_cases net st)
    as [(Hc0 & Ho0 & _)
       |(_ & r1 & st1 & t1 & r2 & st2 & t2 & r3 & st3 & t3 & r4 & st4 & t4
           & E1 & _ & _ & _ & E0)].
  - destruct Hc as [Hc|Hc]; congruence.
  - rewrite Esent in E1. injection E1 as <- <- <-.
    rewrite E0. do 3 eexists. split; [reflexivity|].
    repeat split.
Qed.

Lemma undecodable_answer_counts_as_responsive_witness :
  exists hd st' t,
    health_check
      (uniform true
         (Scripts.answering
            [Byte.xaa; Byte.x2b; Byte.x01; Byte.x01; Byte.x2d; Byte.x00] 0))
      (new_adapter 1)
    = (Returns hd, st', t)
    /\ Health.responsive hd = true
    /\ Health.temperature hd = None.
Proof.
  destruct (undecodable_answer_counts_as_responsive
              (uniform true
                 (Scripts.answering
                    [Byte.xaa; Byte.x2b; Byte.x01; Byte.x01; Byte.x2d;
                     Byte.x00] 0))
              (new_adapter 1)
              [Byte.xaa; Byte.x2b; Byte.x01; Byte.x00; Byte.xd6]
              [Byte.xaa; Byte.x2b; Byte.x01; Byte.x01; Byte.x2d; Byte.x00]
              2)
    as (hd & st' & t & E & _ & Hr & Ht & _);
    [right; reflexivity | reflexivity | reflexivity | reflexivity
    | reflexivity | reflexivity
    | right; exists ChecksumMismatch; reflexivity |].
  exists hd, st', t. split; [exact E|]. split; [exact Hr | exact Ht].
Defined.

End HealthExtras.

(** ** Health results, alerts and the system status *)

Module MonitoringExtras.
Import Session Dict HealthCheck MonitoringDashboard HealthMonitoring.
Import Notions MoreNotions HealthNotions.
Import PyFacts SessionFacts SessionExtras AlertFacts HealthFacts.
Local Open Scope string_scope.

(** X21.  Alerts of the same message are stored at least 300 seconds
    apart when every call of [_add_alert] reads its cutoff no later than
    its timestamp, in particular when a call reads the clock as one
    instant: from the empty store, whatever the calls, the later of two
    stored alerts with the same message is at least 300 seconds younger
    than the earlier. *)
Theorem duplicates_kept_apart (hash : string -> Z) (calls : list call) :
  Forall (fun c => at_cutoff (now c) <= at_timestamp (now c)) calls ->
  ForallOrdPairs apart (add_alerts hash calls []).
Proof. intros Hc. apply dedup_invariant; [exact Hc | constructor]. Qed.

Lemma duplicates_kept_apart_witness :
  ForallOrdPairs apart
    (add_alerts (fun _ => 0)
       [mkCall (at_instant 0) "warning" "X";
        mkCall (at_instant 299) "warning" "X";
        mkCall (at_instant 300) "critical" "X"] []).
Proof.
  apply (duplicates_kept_apart (fun _ => 0)).
  repeat constructor; cbn; lia.
Defined.

(** X22.  A display that cannot be reached is alerted on.  For an
    adapter that is not connected, has never had a response, and whose
    connection cannot be opened, the health check writes nothing and
    [_process_health_result] makes one call of [_add_alert]: the error
    'Display N not connected'.  Afterwards the store holds an alert with
    this message: the one just added, or one less than 300 seconds
    older than the cutoff that made it a duplicate. *)
Theorem unreachable_display_alerted (hash : string -> Z)
    (one_decimal : Z -> string) net st (current_time : Z)
    (clock : nat -> clock_reads) (alerts : list alert) :
  reachable st ->
  connected st = false -> on_connect net = false ->
  last_response_time st = None ->
  let message :=
    "Display " ++ str (display_id st) ++ " not connected" in
  exists hd st' t,
    health_check net st = (Returns hd, st', t)
    /\ filter is_write t = []
    /\ health_alerts one_decimal hd current_time = [("error", message)]
    /\ _process_health_result hash one_decimal current_time clock hd alerts
       = _add_alert hash (clock 0%nat) "error" message alerts
    /\ exists a,
         In a (_process_health_result hash one_decimal current_time clock
                 hd alerts)
         /\ MonitoringDashboard.message a = message.
Proof.
  intros R Hc Ho Hl message.
  destruct (reachable_error_count st R) as [Hle _].
  destruct (health_check_cases net st)
    as [(_ & _ & E0)|([Hc'|Ho'] & _)]; [|congruence..].
  rewrite E0. do 3 eexists. split; [reflexivity|]. split; [reflexivity|].
  assert (Hcalls : health_alerts one_decimal (unreachable_report st)
                                 current_time
                   = [("error", message)]).
  { unfold health_alerts, check_temperature, check_connectivity,
      check_response_time, check_error_count, error_count_warning,
      unreachable_report.
    cbn [Health.temperature Health.connected Health.last_response
         Health.error_count Health.display_id negb].
    rewrite Hl.
    replace (3 <=? error_count st)%nat with false
      by (symmetry; apply Nat.leb_gt; lia).
    reflexivity. }
  split; [exact Hcalls|].
  assert (Hstore : _process_health_result hash one_decimal current_time
                     clock (unreachable_report st) alerts
                   = _add_alert hash (clock 0%nat) "error" message alerts).
  { unfold _process_health_result. rewrite Hcalls. reflexivity. }
  split; [exact Hstore|]. rewrite Hstore.
  destruct (add_alert_cases hash (clock 0%nat) "error" message alerts)
    as [[-> (a & Hin & Hm & _)]|[-> _]].
  - exists a. split; assumption.
  - exists (mkAlert "error" message (at_timestamp (clock 0%nat))
                    (mkAlertId "error" (hash message)
                               (at_id (clock 0%nat)))).
    split; [|reflexivity].
    change 100%nat with (S 99). rewrite last_n_app_single.
    apply in_or_app. right. left. reflexivity.
Qed.

Lemma unreachable_display_alerted_witness :
  exists hd st' t,
    health_check (uniform false Scripts.dead) (new_adapter 1)
    = (Returns hd, st', t)
    /\ health_alerts (fun _ => EmptyString) hd 0
       = [("error", "Display 1 not connected")].
Proof.
  destruct (unreachable_display_alerted (fun _ => 0)
              (fun _ => EmptyString) (uniform false Scripts.dead)
              (new_adapter 1) 0 (fun _ => at_instant 0) []
              (reachable_new 1) eq_refl eq_refl eq_refl)
    as (hd & st' & t & E & _ & Hcalls & _).
  exists hd, st', t. split; [exact E | exact Hcalls].
Defined.

(** Counting with a loop is counting with a filter. *)
Lemma count_connected (l : list adapter) (n : nat) :
  fold_left
    (fun connected_displays adapter =>
       if connected adapter then (connected_displays + 1)%nat
       else connected_displays) l n
  = (n + length (filter connected l))%nat.
Proof.
  revert n. induction l as [|a l IH]; intros n; cbn; [lia|].
  rewrite IH. destruct (connected a); cbn; lia.
Qed.

Lemma filter_length_le {A} (p : A -> bool) (l : list A) :
  (length (filter p l) <= length l)%nat.
Proof.
  induction l as [|a l IH]; cbn; [lia|]. destruct (p a); cbn; lia.
Qed.

Lemma disjoint_filters {A} (p q : A -> bool) (l : list A) :
  (forall a, p a = true -> q a = false) ->
  (length (filter p l) + length (filter q l) <= length l)%nat.
Proof.
  intros Hpq. induction l as [|a l IH]; cbn; [lia|].
  destruct (p a) eqn:Ep; [rewrite (Hpq a Ep)|destruct (q a)]; cbn; lia.
Qed.

Lemma filter_none {A} (p : A -> bool) (l : list A) :
  Forall (fun a => p a = false) l -> filter p l = [].
Proof.
  induction 1 as [|a l Ha _ IH]; cbn; [reflexivity|].
  rewrite Ha. exact IH.
Qed.

(** X23.  The system status is consistent, whatever the clock reads:
    the connected displays are those whose adapter is connected and are
    no more than the displays; no display is ever counted as
    responsive; critical and warning alerts together are no more than
    the recent alerts, which are no more than the stored ones; the
    health is 'healthy' exactly when there is no recent alert,
    'critical' exactly when there is a recent critical alert, and
    'warning' otherwise.  Alerts of level 'error', the level of
    'not connected', count as recent but are neither critical nor
    warning. *)
Theorem system_status_consistent {K : Type} (clock : nat -> Z)
    (adapters : dict K adapter) (alerts : list alert) :
  exists s,
    get_system_status clock adapters alerts = s
    /\ total_displays s = length adapters
    /\ connected_displays s = length (filter connected (map snd adapters))
    /\ (connected_displays s <= total_displays s)%nat
    /\ responsive_displays s = 0%nat
    /\ (critical_alerts s + warning_alerts s <= recent_alerts s)%nat
    /\ (recent_alerts s <= length alerts)%nat
    /\ (system_health s = "healthy" <-> recent_alerts s = 0%nat)
    /\ (system_health s = "critical" <-> critical_alerts s <> 0%nat)
    /\ (system_health s = "warning"
        <-> recent_alerts s <> 0%nat /\ critical_alerts s = 0%nat)
    /\ (Forall (fun a => level a = "error") alerts ->
        critical_alerts s = 0%nat /\ warning_alerts s = 0%nat
        /\ system_health s <> "critical").
Proof.
  eexists. split; [reflexivity|]. unfold get_system_status.
  cbn [total_displays connected_displays responsive_displays
       recent_alerts critical_alerts warning_alerts system_health].
  set (recent :=
         map snd
           (filter (fun '(i, a) => (clock i - timestamp a <? 3600)%Z)
                   (combine (seq 0 (length alerts)) alerts))).
  set (critical := filter (fun a => level a =? "critical") recent).
  set (warning := filter (fun a => level a =? "warning") recent).
  assert (Hcw : (length critical + length warning <= length recent)%nat).
  { apply disjoint_filters. intros a Ha.
    apply String.eqb_eq in Ha. rewrite Ha. reflexivity. }
  assert (Hrecent : (length recent <= length alerts)%nat).
  { unfold recent. rewrite length_map.
    etransitivity; [apply filter_length_le|].
    rewrite length_combine, length_seq. lia. }
  rewrite count_connected. cbn [Nat.add].
  split; [reflexivity|]. split; [reflexivity|].
  split; [rewrite <- (length_map snd adapters); apply filter_length_le|].
  split; [reflexivity|]. split; [exact Hcw|]. split; [exact Hrecent|].
  assert (Hin : forall a, In a recent -> In a alerts).
  { intros a Ha. unfold recent in Ha. apply in_map_iff in Ha.
    destruct Ha as ([i a'] & <- & Ha). apply filter_In in Ha.
    destruct Ha as [Ha _]. apply in_combine_r in Ha. exact Ha. }
  destruct (length recent =? 0)%nat eqn:Er;
    [apply Nat.eqb_eq in Er | apply Nat.eqb_neq in Er];
    [|destruct (length critical =? 0)%nat eqn:Ec;
      [apply Nat.eqb_eq in Ec | apply Nat.eqb_neq in Ec]].
  all: split; [split; [intros; try discriminate; try lia
                      | intros; try reflexivity; try lia]|].
  all: split; [split; [intros; try discriminate; try lia
                      | intros; try reflexivity; try lia]|].
  all: split; [split; [intros; try discriminate; try lia
                      | intros; try reflexivity; try lia]|].
  all: intros Herr;
    assert (Hc0 : critical = [])
      by (apply filter_none, Forall_forall; intros a Ha;
          apply Hin in Ha;
          rewrite (proj1 (Forall_forall _ _) Herr a Ha); reflexivity);
    assert (Hw0 : warning = [])
      by (apply filter_none, Forall_forall; intros a Ha;
          apply Hin in Ha;
          rewrite (proj1 (Forall_forall _ _) Herr a Ha); reflexivity);
    rewrite ?Hc0, ?Hw0 in *; cbn in *;
    repeat split; try reflexivity; try discriminate; try lia.
Qed.

End MonitoringExtras.

(** ** Discovery and the configuration it leads to *)

Module DiscoveryExtras.
Import Session Dict HealthCheck Discovery VideoWallConfigWizard.
Import Notions MoreNotions HealthNotions.
Import PyFacts SessionFacts DictFacts DictExtras HealthFacts WizardExtras.
Local Open Scope nat_scope.
Local Open Scope string_scope.

(** The health check of a new adapter leaves a writer exactly when the
    connection opened. *)
Lemma health_check_writer net hd st t :
  health_check net (new_adapter 1) = (Returns hd, st, t) ->
  has_writer t = on_connect net
  /\ (Health.responsive hd = true -> on_connect net = true).
Proof.
  intros E.
  destruct (health_check_cases net (new_adapter 1))
    as [(_ & Ho & E0)
       |([Hc|Ho] & r1 & st1 & t1 & r2 & st2 & t2 & r3 & st3 & t3 & r4 & st4
             & t4 & _ & _ & _ & _ & E0)];
    try discriminate Hc;
    rewrite E0 in E; injection E as <- <- <-; rewrite Ho.
  - split; [reflexivity | discriminate].
  - split; [reflexivity | reflexivity].
Qed.

(** X25.  What [_test_single_ip] finds.  An address is reported exactly
    when the health check of a new adapter with display id 1 says
    responsive and closing the connection does not raise: a display that
    answers but whose connection fails to close is passed over.  The
    dictionary reported has the address under ['ip'], and under
    ['model'] and ['serial_number'] what the health check read, be it
    [None]: the three keys are always there. *)
Theorem test_single_ip_found (p : probe) (d : discovered) :
  _test_single_ip p = Some d
  <-> exists hd st t,
        health_check (answers p) (new_adapter 1) = (Returns hd, st, t)
        /\ Health.responsive hd = true
        /\ closing p = None
        /\ d = mkDiscovered (Text (address p))
                            (field_of (Health.model hd))
                            (field_of (Health.serial_number hd)).
Proof.
  unfold _test_single_ip.
  destruct (health_check (answers p) (new_adapter 1)) as [[[hd|e] st] t]
    eqn:E.
  - destruct (health_check_writer _ _ _ _ E) as [Hw Hr].
    rewrite Hw. unfold disconnect, bindM, modify, lift, ret.
    split.
    + intros Hfound.
      destruct (Health.responsive hd) eqn:Er.
      * rewrite (Hr eq_refl) in Hfound.
        destruct (closing p) as [e|] eqn:Ec; cbn in Hfound;
          [discriminate|].
        injection Hfound as <-.
        exists hd, st, t. repeat split. exact Er.
      * destruct (on_connect (answers p)); cbn in Hfound;
          [|discriminate].
        destruct (closing p); discriminate.
    + intros (hd' & st' & t' & [= <- <- <-] & Er & Ec & ->).
      rewrite (Hr Er), Ec, Er. reflexivity.
  - split; [discriminate|].
    intros (hd' & st' & t' & [=] & _).
Qed.

Lemma test_single_ip_found_witness :
  _test_single_ip
    (mkProbe "192.168.1.101"
       (uniform true
          (Scripts.answering
             [Byte.xaa; Byte.x2b; Byte.x01; Byte.x01; Byte.x2d; Byte.x04]
             0))
       None)
  = Some (mkDiscovered (Text "192.168.1.101") (Text "-") (Text "-")).
Proof.
  apply (proj2 (test_single_ip_found _ _)).
  do 3 eexists. split; [vm_compute; reflexivity|].
  split; [reflexivity|]. split; reflexivity.
Defined.

(** Every discovered display has the three keys. *)
Lemma discovered_keys (probes : list probe) (d : discovered) :
  In d (discover_displays probes) ->
  ip d <> Absent /\ model d <> Absent /\ serial_number d <> Absent.
Proof.
  unfold discover_displays. intros Hin. apply in_flat_map in Hin.
  destruct Hin as (p & _ & Hin).
  destruct (_test_single_ip p) as [d'|] eqn:E; [|destruct Hin].
  destruct Hin as [<-|[]].
  apply test_single_ip_found in E.
  destruct E as (hd & st & t & _ & _ & _ & ->). cbn.
  repeat split; try discriminate;
    [destruct (Health.model hd) | destruct (Health.serial_number hd)];
    discriminate.
Qed.

(** X26.  Discovery and [generate_config] fit together: for the
    displays that [discover_displays] reports, whatever the network
    answered, [generate_config] never raises [KeyError], and the default
    model 'Samsung' is never used: the name of display [i] ends in the
    model that was read, or in 'None' when the model query gave
    nothing. *)
Theorem discovered_displays_configure (probes : list probe) (h v : nat) :
  exists cfg,
    generate_config (discover_displays probes) (h, v) = Done cfg
    /\ forall i e,
         get (displays cfg) i = Some e ->
         exists d,
           nth_error (discover_displays probes) (i - 1) = Some d
           /\ 1 <= i
           /\ config_ip e = ip d
           /\ name e
              = "Display " ++ VideoWallLayoutManager.str i ++ " - "
                ++ match model d with
                   | Text s => s
                   | _ => "None"
                   end.
Proof.
  set (found := discover_displays probes).
  assert (Hall : Forall (fun d => ip d <> Absent) (firstn (h * v) found)).
  { apply Forall_forall. intros d Hin.
    assert (Hin' : In d found).
    { rewrite <- (firstn_skipn (h * v) found). apply in_or_app.
      left. exact Hin. }
    apply discovered_keys in Hin'. tauto. }
  unfold generate_config. cbv beta iota zeta. fold found.
  set (sel := firstn (h * v) found) in *.
  pose proof (config_fold h sel 1 [] Hall) as Hfold.
  unfold dict in Hfold |- *. rewrite Hfold by (intros k []).
  cbn [app]. eexists. split; [reflexivity|]. cbn [displays].
  intros i e Hg. apply get_In in Hg. apply in_map_iff in Hg.
  destruct Hg as ([k d] & [= <- <-] & Hin).
  apply in_numbered in Hin. destruct Hin as [Hle Hn]. cbn [fst snd].
  assert (Hnth : nth_error found (k - 1) = Some d).
  { unfold sel in Hn. rewrite nth_error_firstn in Hn.
    destruct (k - 1 <? h * v)%nat; [exact Hn | discriminate]. }
  exists d. split; [exact Hnth|]. split; [exact Hle|].
  split; [reflexivity|].
  assert (Hin : In d found) by (eapply nth_error_In; exact Hnth).
  apply discovered_keys in Hin. destruct Hin as (_ & Hm & _).
  unfold build_entry. cbn [name]. unfold model_text.
  destruct (model d); [contradiction | reflexivity | reflexivity].
Qed.

End DiscoveryExtras.
